(** * Word Fuse: the room and turn engine of the game server

    A shallow embedding of the server's [GameService] (room registry, session
    binder, turn engine, timer scheduler), of its utilities and of the
    dictionary loader, followed by the properties of the turn engine.

    Conventions of the embedding.
    - JavaScript strings are Rocq strings.  The case mappings, [trim] and the
      regular expressions are defined on the ASCII repertoire; code units
      above 127 have no case and are not white space.
    - JavaScript numbers that the code keeps integral (timestamps, lives,
      scores, seconds) are [Z]; numbers that arrive in a payload are
      [JsNumber], finite rationals or one of the three IEEE specials.
    - [Date.now()], [Math.random()] and the socket.io emitter are the host.
      A handler is a function in the state monad [M] over [Host]: every
      [Date.now()] consumes the next reading of the clock, every
      [Math.random()] the next draw.
    - Objects mutated in place (a player inside a room, a room inside the
      registry) are written back at the place they were read from. *)

From Stdlib Require Import ZArith QArith Qround Ascii String.
From stdpp Require Import base tactics option list gmap strings.

Local Open Scope Z_scope.

(** ** JavaScript strings *)

Module Js.

Definition code_of (c : ascii) : N := N_of_ascii c.

Definition between (lo hi : N) (c : ascii) : bool :=
  ((lo <=? code_of c) && (code_of c <=? hi))%N.

Definition is_upper : ascii -> bool := between 65 90.
Definition is_lower : ascii -> bool := between 97 122.
Definition is_digit : ascii -> bool := between 48 57.

(** White space and line terminators of the ASCII range, as matched by
    [\s] and removed by [trim]. *)
Definition is_space (c : ascii) : bool :=
  between 9 13 c || (code_of c =? 32)%N.

Definition lower_char (c : ascii) : ascii :=
  if is_upper c then ascii_of_N (code_of c + 32) else c.

Definition upper_char (c : ascii) : ascii :=
  if is_lower c then ascii_of_N (code_of c - 32) else c.

Fixpoint map_chars (f : ascii -> ascii) (s : string) : string :=
  match s with
  | EmptyString => EmptyString
  | String c rest => String (f c) (map_chars f rest)
  end.

Fixpoint filter_chars (keep : ascii -> bool) (s : string) : string :=
  match s with
  | EmptyString => EmptyString
  | String c rest =>
      if keep c then String c (filter_chars keep rest) else filter_chars keep rest
  end.

Fixpoint all_chars (p : ascii -> bool) (s : string) : bool :=
  match s with
  | EmptyString => true
  | String c rest => p c && all_chars p rest
  end.

Definition toLowerCase : string -> string := map_chars lower_char.
Definition toUpperCase : string -> string := map_chars upper_char.

Fixpoint trimStart (s : string) : string :=
  match s with
  | EmptyString => EmptyString
  | String c rest => if is_space c then trimStart rest else s
  end.

(** [trimEnd] keeps a character when it is not white space or when
    something is kept after it. *)
Fixpoint trimEnd (s : string) : string :=
  match s with
  | EmptyString => EmptyString
  | String c rest =>
      match trimEnd rest with
      | EmptyString => if is_space c then EmptyString else String c EmptyString
      | kept => String c kept
      end
  end.

Definition trim (s : string) : string := trimEnd (trimStart s).

(** [s.replace(/\s+/g, " ")]: every maximal run of white space becomes
    one blank; [in_run] tells that the run has already been replaced. *)
Fixpoint collapse_from (in_run : bool) (s : string) : string :=
  match s with
  | EmptyString => EmptyString
  | String c rest =>
      if is_space c
      then if in_run then collapse_from true rest
           else String " "%char (collapse_from true rest)
      else String c (collapse_from false rest)
  end.

Definition collapse_spaces : string -> string := collapse_from false.

(** [s.slice(0, n)]. *)
Definition slice_to (n : nat) (s : string) : string := String.substring 0 n s.

(** [s.slice(from, to)] for non-negative bounds. *)
Definition slice (from to : nat) (s : string) : string :=
  String.substring from (to - from) s.

(** [s.slice(-n)]: the last [n] characters. *)
Definition slice_last (n : nat) (s : string) : string :=
  String.substring (String.length s - n) n s.

(** [s.includes(sub)]. *)
Fixpoint includes (s sub : string) : bool :=
  String.prefix sub s ||
  match s with
  | EmptyString => false
  | String _ rest => includes rest sub
  end.

(** [/^[a-z]+$/.test(s)]. *)
Definition test_lower_plus (s : string) : bool :=
  negb (String.eqb s "") && all_chars is_lower s.

(** [/^[a-z]{3,}$/.test(s)]. *)
Definition test_lower_3 (s : string) : bool :=
  all_chars is_lower s && (3 <=? String.length s)%nat.

(** [s.split(/\r?\n/)]: [cur] is the piece being read, in reverse. *)
Fixpoint split_lines_aux (cur : list ascii) (s : string) : list string :=
  match s with
  | EmptyString => [string_of_list_ascii (rev cur)]
  | String c rest =>
      if (code_of c =? 10)%N then
        let piece := match cur with
                     | last :: before =>
                         if (code_of last =? 13)%N then before else cur
                     | [] => cur
                     end in
        string_of_list_ascii (rev piece) :: split_lines_aux [] rest
      else split_lines_aux (c :: cur) rest
  end.

Definition split_lines : string -> list string := split_lines_aux [].

(** The double quote, for messages that carry one. *)
Definition dquote : string := String (ascii_of_N 34) EmptyString.

(** Numbers as they arrive in a payload. *)
Inductive JsNumber : Type :=
| Finite (q : Q)
| NaN
| PosInfinity
| NegInfinity.

(** [Math.round] on a finite number: the nearest integer, ties upwards. *)
Definition round (q : Q) : Z := Qfloor (q + (1 # 2)).

End Js.

(** ** utils.ts *)

Definition ROOM_CHARS : string := "ABCDEFGHJKLMNPQRSTUVWXYZ23456789".

Definition clampInt (value : Js.JsNumber) (min max : Z) : Z :=
  match value with
  | Js.Finite q => Z.max min (Z.min max (Js.round q))
  | _ => min
  end.

Definition sanitizeRoomCode (input : string) : string :=
  Js.slice_to 6
    (Js.filter_chars (fun c => Js.is_upper c || Js.is_digit c) (Js.toUpperCase input)).

Definition name_char (c : ascii) : bool :=
  Js.is_upper c || Js.is_lower c || Js.is_digit c
  || (Js.code_of c =? 32)%N || (Js.code_of c =? 95)%N || (Js.code_of c =? 45)%N.

Definition sanitizePlayerName (input : string) : string :=
  Js.slice_to 20 (Js.filter_chars name_char (Js.collapse_spaces (Js.trim input))).

Definition sanitizeWord (input : string) : string :=
  Js.toLowerCase (Js.trim input).

(** ** types.ts *)

Inductive GamePhase : Type := lobby | in_game | results.

Global Instance GamePhase_eq_dec : EqDecision GamePhase.
Proof. solve_decision. Defined.

Record RoomConfig : Type := mkRoomConfig {
  turnSeconds : Z;
  startingLives : Z;
  dictionaryEnabled : bool;
}.

(** [PlayerState]; the fields [id] and [name] are [pl_id] and [pl_name]. *)
Record PlayerState : Type := mkPlayer {
  pl_id : string;
  pl_name : string;
  joinedAt : Z;
  socketId : option string;
  connected : bool;
  score : Z;
  lives : Z;
  eliminated : bool;
}.

Global Instance PlayerState_eq_dec : EqDecision PlayerState.
Proof. solve_decision. Defined.

Record RoomState : Type := mkRoom {
  code : string;
  hostId : string;
  phase : GamePhase;
  config : RoomConfig;
  players : list PlayerState;
  usedWords : gset string;
  usedWordsOrdered : list string;
  activePlayerId : option string;
  currentChunk : option string;
  previousChunk : option string;
  timerEndsAt : option Z;
  winnerId : option string;
  lastEvent : string;
  createdAt : Z;
  updatedAt : Z;
  emptySince : option Z;
}.

Record PublicPlayerState : Type := mkPublicPlayer {
  pub_id : string;
  pub_name : string;
  pub_connected : bool;
  pub_score : Z;
  pub_lives : Z;
  pub_eliminated : bool;
  pub_joinedAt : Z;
}.

Record PublicRoomState : Type := mkPublicRoom {
  pub_roomCode : string;
  pub_phase : GamePhase;
  pub_hostId : string;
  pub_players : list PublicPlayerState;
  pub_config : RoomConfig;
  pub_activePlayerId : option string;
  pub_currentChunk : option string;
  pub_remainingMs : Z;
  pub_usedWords : list string;
  pub_winnerId : option string;
  pub_lastEvent : string;
  pub_canStart : bool;
  pub_serverTime : Z;
}.

Record UpdateSettingsPayload : Type := mkUpdateSettings {
  us_roomCode : string;
  us_playerId : string;
  us_turnSeconds : option Js.JsNumber;
  us_startingLives : option Js.JsNumber;
  us_dictionaryEnabled : option bool;
}.

Record PlayerActionPayload : Type := mkPlayerAction {
  pa_roomCode : string;
  pa_playerId : string;
}.

Record SubmitWordPayload : Type := mkSubmitWord {
  sw_roomCode : string;
  sw_playerId : string;
  sw_word : string;
}.

(** *** Field updates

    One function per field that the service assigns. *)

Definition set_turnSeconds (v : Z) (c : RoomConfig) : RoomConfig :=
  mkRoomConfig v (startingLives c) (dictionaryEnabled c).
Definition set_startingLives (v : Z) (c : RoomConfig) : RoomConfig :=
  mkRoomConfig (turnSeconds c) v (dictionaryEnabled c).
Definition set_dictionaryEnabled (v : bool) (c : RoomConfig) : RoomConfig :=
  mkRoomConfig (turnSeconds c) (startingLives c) v.

Definition set_pl_name (v : string) (p : PlayerState) : PlayerState :=
  mkPlayer (pl_id p) v (joinedAt p) (socketId p) (connected p) (score p) (lives p)
    (eliminated p).
Definition set_socketId (v : option string) (p : PlayerState) : PlayerState :=
  mkPlayer (pl_id p) (pl_name p) (joinedAt p) v (connected p) (score p) (lives p)
    (eliminated p).
Definition set_connected (v : bool) (p : PlayerState) : PlayerState :=
  mkPlayer (pl_id p) (pl_name p) (joinedAt p) (socketId p) v (score p) (lives p)
    (eliminated p).
Definition set_score (v : Z) (p : PlayerState) : PlayerState :=
  mkPlayer (pl_id p) (pl_name p) (joinedAt p) (socketId p) (connected p) v (lives p)
    (eliminated p).
Definition set_lives (v : Z) (p : PlayerState) : PlayerState :=
  mkPlayer (pl_id p) (pl_name p) (joinedAt p) (socketId p) (connected p) (score p) v
    (eliminated p).
Definition set_eliminated (v : bool) (p : PlayerState) : PlayerState :=
  mkPlayer (pl_id p) (pl_name p) (joinedAt p) (socketId p) (connected p) (score p)
    (lives p) v.

Definition set_hostId (v : string) (r : RoomState) : RoomState :=
  mkRoom (code r) v (phase r) (config r) (players r) (usedWords r)
    (usedWordsOrdered r) (activePlayerId r) (currentChunk r) (previousChunk r)
    (timerEndsAt r) (winnerId r) (lastEvent r) (createdAt r) (updatedAt r)
    (emptySince r).
Definition set_phase (v : GamePhase) (r : RoomState) : RoomState :=
  mkRoom (code r) (hostId r) v (config r) (players r) (usedWords r)
    (usedWordsOrdered r) (activePlayerId r) (currentChunk r) (previousChunk r)
    (timerEndsAt r) (winnerId r) (lastEvent r) (createdAt r) (updatedAt r)
    (emptySince r).
Definition set_config (v : RoomConfig) (r : RoomState) : RoomState :=
  mkRoom (code r) (hostId r) (phase r) v (players r) (usedWords r)
    (usedWordsOrdered r) (activePlayerId r) (currentChunk r) (previousChunk r)
    (timerEndsAt r) (winnerId r) (lastEvent r) (createdAt r) (updatedAt r)
    (emptySince r).
Definition set_players (v : list PlayerState) (r : RoomState) : RoomState :=
  mkRoom (code r) (hostId r) (phase r) (config r) v (usedWords r)
    (usedWordsOrdered r) (activePlayerId r) (currentChunk r) (previousChunk r)
    (timerEndsAt r) (winnerId r) (lastEvent r) (createdAt r) (updatedAt r)
    (emptySince r).
Definition set_usedWords (v : gset string) (r : RoomState) : RoomState :=
  mkRoom (code r) (hostId r) (phase r) (config r) (players r) v
    (usedWordsOrdered r) (activePlayerId r) (currentChunk r) (previousChunk r)
    (timerEndsAt r) (winnerId r) (lastEvent r) (createdAt r) (updatedAt r)
    (emptySince r).
Definition set_usedWordsOrdered (v : list string) (r : RoomState) : RoomState :=
  mkRoom (code r) (hostId r) (phase r) (config r) (players r) (usedWords r)
    v (activePlayerId r) (currentChunk r) (previousChunk r)
    (timerEndsAt r) (winnerId r) (lastEvent r) (createdAt r) (updatedAt r)
    (emptySince r).
Definition set_activePlayerId (v : option string) (r : RoomState) : RoomState :=
  mkRoom (code r) (hostId r) (phase r) (config r) (players r) (usedWords r)
    (usedWordsOrdered r) v (currentChunk r) (previousChunk r)
    (timerEndsAt r) (winnerId r) (lastEvent r) (createdAt r) (updatedAt r)
    (emptySince r).
Definition set_currentChunk (v : option string) (r : RoomState) : RoomState :=
  mkRoom (code r) (hostId r) (phase r) (config r) (players r) (usedWords r)
    (usedWordsOrdered r) (activePlayerId r) v (previousChunk r)
    (timerEndsAt r) (winnerId r) (lastEvent r) (createdAt r) (updatedAt r)
    (emptySince r).
Definition set_previousChunk (v : option string) (r : RoomState) : RoomState :=
  mkRoom (code r) (hostId r) (phase r) (config r) (players r) (usedWords r)
    (usedWordsOrdered r) (activePlayerId r) (currentChunk r) v
    (timerEndsAt r) (winnerId r) (lastEvent r) (createdAt r) (updatedAt r)
    (emptySince r).
Definition set_timerEndsAt (v : option Z) (r : RoomState) : RoomState :=
  mkRoom (code r) (hostId r) (phase r) (config r) (players r) (usedWords r)
    (usedWordsOrdered r) (activePlayerId r) (currentChunk r) (previousChunk r)
    v (winnerId r) (lastEvent r) (createdAt r) (updatedAt r)
    (emptySince r).
Definition set_winnerId (v : option string) (r : RoomState) : RoomState :=
  mkRoom (code r) (hostId r) (phase r) (config r) (players r) (usedWords r)
    (usedWordsOrdered r) (activePlayerId r) (currentChunk r) (previousChunk r)
    (timerEndsAt r) v (lastEvent r) (createdAt r) (updatedAt r)
    (emptySince r).
Definition set_lastEvent (v : string) (r : RoomState) : RoomState :=
  mkRoom (code r) (hostId r) (phase r) (config r) (players r) (usedWords r)
    (usedWordsOrdered r) (activePlayerId r) (currentChunk r) (previousChunk r)
    (timerEndsAt r) (winnerId r) v (createdAt r) (updatedAt r)
    (emptySince r).
Definition set_updatedAt (v : Z) (r : RoomState) : RoomState :=
  mkRoom (code r) (hostId r) (phase r) (config r) (players r) (usedWords r)
    (usedWordsOrdered r) (activePlayerId r) (currentChunk r) (previousChunk r)
    (timerEndsAt r) (winnerId r) (lastEvent r) (createdAt r) v
    (emptySince r).
Definition set_emptySince (v : option Z) (r : RoomState) : RoomState :=
  mkRoom (code r) (hostId r) (phase r) (config r) (players r) (usedWords r)
    (usedWordsOrdered r) (activePlayerId r) (currentChunk r) (previousChunk r)
    (timerEndsAt r) (winnerId r) (lastEvent r) (createdAt r) (updatedAt r)
    v.

(** ** The host: clock, random source, number formatting, emitter *)

(** A draw of [Math.random()]: the rational [(rnum mod rden) / rden], which
    ranges over all rationals of the half-open unit interval. *)
Record Draw : Type := mkDraw { rnum : Z; rden : positive }.

Definition draw_value (d : Draw) : Q := (rnum d mod Zpos (rden d)) # rden d.

(** What the service emits to a socket.io room: the room, the event name
    and the snapshot. *)
Record Emit : Type := mkEmit {
  emit_room : string;
  emit_event : string;
  emit_snapshot : PublicRoomState;
}.

(** [dates] and [randoms] are the future readings of [Date.now()] and
    [Math.random()], [toString36] is [Number.prototype.toString(36)], whose
    digits for a fraction are left to the engine, and [outbox] collects the
    emitted messages, latest first. *)
Record Host : Type := mkHost {
  dates : nat -> Z;
  randoms : nat -> Draw;
  toString36 : Q -> string;
  outbox : list Emit;
}.

Definition M (A : Type) : Type := Host -> A * Host.

Global Instance M_ret : MRet M := fun A (a : A) (h : Host) => (a, h).
Global Instance M_bind : MBind M :=
  fun A B (f : A -> M B) (c : M A) (h : Host) =>
    let (a, h') := c h in f a h'.

Definition Date_now : M Z := fun h =>
  (dates h 0%nat,
   mkHost (fun n => dates h (S n)) (randoms h) (toString36 h) (outbox h)).

Definition Math_random : M Q := fun h =>
  (draw_value (randoms h 0%nat),
   mkHost (dates h) (fun n => randoms h (S n)) (toString36 h) (outbox h)).

Definition Number_toString36 (q : Q) : M string := fun h => (toString36 h q, h).

Definition io_emit (room event : string) (snapshot : PublicRoomState) : M unit :=
  fun h =>
    (tt, mkHost (dates h) (randoms h) (toString36 h)
           (mkEmit room event snapshot :: outbox h)).

(** [Math.floor(Math.random() * n)].  The product is taken exactly; the
    rounded product of the engine may land on a neighbouring index, which
    another draw yields here, so a statement about all draws covers it. *)
Definition random_index (n : nat) : M Z :=
  r ← Math_random; mret (Qfloor (r * inject_Z (Z.of_nat n))).

(** ** dictionary.ts *)

Record Dictionary : Type := mkDictionary {
  dict_enabled : bool;
  dict_size : nat;
  dict_has : string -> bool;
  dict_hasAnyForChunk : string -> gset string -> bool;
}.

Definition parseWords (raw : string) : gset string :=
  list_to_set
    (List.filter Js.test_lower_3
       (map (fun line => Js.toLowerCase (Js.trim line)) (Js.split_lines raw))).

Definition disabledDictionary : Dictionary :=
  mkDictionary false 0 (fun _ => true) (fun _ _ => true).

(** The two files are read with [fs.readFileSync]; [None] stands for a read
    that throws.  The local file is read first, and the package file is not
    read when the local one fails.  The per-chunk cache of the source only
    memoises [wordsForChunk] and is left out. *)
Definition createDictionary (dictionaryEnabledEnv : option string)
    (localFile packageFile : option string) : Dictionary :=
  let requested := negb (bool_decide (dictionaryEnabledEnv = Some "false")) in
  if negb requested then disabledDictionary
  else
    match localFile, packageFile with
    | Some localRaw, Some packageRaw =>
        let localWords := parseWords localRaw in
        let packageWords := parseWords packageRaw in
        let words : gset string := packageWords ∪ localWords in
        if bool_decide (size words = 0%nat) then disabledDictionary
        else
          let wordsForChunk (chunkInput : string) : list string :=
            List.filter (fun word => Js.includes word (Js.toLowerCase chunkInput))
              (elements words) in
          mkDictionary true (size words)
            (fun word => bool_decide (Js.toLowerCase word ∈ words))
            (fun chunk usedWords =>
               let candidates := wordsForChunk chunk in
               if bool_decide (length candidates = 0%nat) then false
               else if bool_decide (size usedWords = 0%nat) then true
               else existsb (fun word => negb (bool_decide (word ∈ usedWords)))
                      candidates)
    | _, _ => disabledDictionary
    end.

(** ** gameService.ts: constants *)

Definition DEFAULT_TURN_SECONDS : Z := 10.
Definition MIN_TURN_SECONDS : Z := 5.
Definition MAX_TURN_SECONDS : Z := 20.
Definition DEFAULT_STARTING_LIVES : Z := 3.
Definition MIN_STARTING_LIVES : Z := 1.
Definition MAX_STARTING_LIVES : Z := 5.
Definition MIN_PLAYERS_TO_START : nat := 2.
Definition MAX_PLAYERS_PER_ROOM : nat := 12.
Definition TIMER_TICK_MS : Z := 250.
Definition SUBMIT_RATE_LIMIT_MS : Z := 300.
Definition EMPTY_ROOM_TTL_MS : Z := 5 * 60 * 1000.

Definition CHUNKS : list string :=
  [ "AR"; "ER"; "ING"; "TION"; "CH"; "SH"; "TH"; "EA"; "OU"; "ST";
    "TR"; "SP"; "CL"; "BR"; "PL"; "GR"; "PH"; "WH"; "CK"; "LL";
    "MENT"; "NESS"; "ABLE"; "FUL"; "LESS"; "AL"; "OR"; "EN"; "IST"; "OUS" ].

Record SocketSession : Type := mkSession {
  sess_roomCode : string;
  sess_playerId : string;
}.

Record OperationResult : Type := mkResult {
  res_ok : bool;
  res_error : option string;
  res_roomCode : option string;
  res_playerId : option string;
  res_state : option PublicRoomState;
}.

Definition failure (message : string) : OperationResult :=
  mkResult false (Some message) None None None.

Definition success (snapshot : PublicRoomState) : OperationResult :=
  mkResult true None None None (Some snapshot).

(** ** The room registry: a [Map] in insertion order *)

Module Registry.

Definition t : Type := list (string * RoomState).

Fixpoint get (key : string) (m : t) : option RoomState :=
  match m with
  | [] => None
  | (k, v) :: rest => if decide (k = key) then Some v else get key rest
  end.

(** [Map.prototype.set]: an existing key keeps its place. *)
Fixpoint set (key : string) (value : RoomState) (m : t) : t :=
  match m with
  | [] => [(key, value)]
  | (k, v) :: rest =>
      if decide (k = key) then (key, value) :: rest
      else (k, v) :: set key value rest
  end.

Fixpoint delete (key : string) (m : t) : t :=
  match m with
  | [] => []
  | (k, v) :: rest =>
      if decide (k = key) then delete key rest else (k, v) :: delete key rest
  end.

Definition keys (m : t) : list string := map fst m.
Definition values (m : t) : list RoomState := map snd m.

End Registry.

Record GameService : Type := mkService {
  dictionary : Dictionary;
  rooms : Registry.t;
  socketSessions : gmap string SocketSession;
  lastSubmitAtBySocket : gmap string Z;
}.

Definition set_rooms (v : Registry.t) (s : GameService) : GameService :=
  mkService (dictionary s) v (socketSessions s) (lastSubmitAtBySocket s).
Definition set_socketSessions (v : gmap string SocketSession) (s : GameService)
  : GameService :=
  mkService (dictionary s) (rooms s) v (lastSubmitAtBySocket s).
Definition set_lastSubmitAtBySocket (v : gmap string Z) (s : GameService)
  : GameService :=
  mkService (dictionary s) (rooms s) (socketSessions s) v.

(** [new GameService(io, dictionary)]. *)
Definition newGameService (d : Dictionary) : GameService :=
  mkService d [] ∅ ∅.

(** ** gameService.ts: the turn engine *)

(** [player.connected && !player.eliminated]. *)
Definition isEligible (p : PlayerState) : bool :=
  connected p && negb (eliminated p).

Definition getEligiblePlayers (room : RoomState) : list PlayerState :=
  filter (fun p => isEligible p) (players room).

(** [room.players.findIndex(player => player.id === playerId)], together
    with the player found; [None] is the source's [-1]. *)
Definition findPlayer (room : RoomState) (playerId : string)
  : option (nat * PlayerState) :=
  list_find (fun p => pl_id p = playerId) (players room).

Definition getPlayer (room : RoomState) (playerId : string) : option PlayerState :=
  snd <$> findPlayer room playerId.

(** The [for] loop of [getNextEligiblePlayer]: [todo] iterations are left and
    the next one has the given [offset].  The index is below the length, so
    the candidate is always there. *)
Fixpoint scanFrom (ps : list PlayerState) (startIndex offset todo : nat)
  : option PlayerState :=
  match todo with
  | O => None
  | S todo' =>
      let index := ((startIndex + offset) mod length ps)%nat in
      match ps !! index with
      | Some candidate =>
          if connected candidate && negb (eliminated candidate)
          then Some candidate
          else scanFrom ps startIndex (S offset) todo'
      | None => None
      end
  end.

Definition getNextEligiblePlayer (room : RoomState) (fromPlayerId : option string)
  : option PlayerState :=
  let eligible := getEligiblePlayers room in
  if bool_decide (length eligible = 0%nat) then None
  else
    match fromPlayerId with
    | None => head eligible
    | Some fromId =>
        match findPlayer room fromId with
        | None => head eligible
        | Some (startIndex, _) =>
            scanFrom (players room) startIndex 1 (length (players room))
        end
    end.

(** [array[i]] for a number [i]: [undefined] outside the array. *)
Definition js_index {A : Type} (l : list A) (i : Z) : option A :=
  if (i <? 0) then None else l !! Z.to_nat i.

Definition chooseChunk (previous : option string) : M (option string) :=
  let pool := filter (fun chunk => Some chunk ≠ previous) CHUNKS in
  let source := if bool_decide (0 < length pool)%nat then pool else CHUNKS in
  i ← random_index (length source);
  mret (js_index source i).

Definition finishGame (room : RoomState) (winner : option PlayerState)
  : M RoomState :=
  let room := set_phase results room in
  let room := set_winnerId (pl_id <$> winner) room in
  let room := set_activePlayerId None room in
  let room := set_currentChunk None room in
  let room := set_timerEndsAt None room in
  now ← Date_now;
  let room := set_updatedAt now room in
  mret (set_lastEvent
          match winner with
          | Some w => pl_name w +:+ " wins the match."
          | None => "Match ended."
          end room).

Definition advanceTurn (room : RoomState) (fromPlayerId : option string)
  : M RoomState :=
  let eligible := getEligiblePlayers room in
  if bool_decide (length eligible ≤ 1)%nat then finishGame room (head eligible)
  else
    match getNextEligiblePlayer room fromPlayerId with
    | None => finishGame room (head eligible)
    | Some next =>
        let room := set_activePlayerId (Some (pl_id next)) room in
        let room := set_previousChunk (currentChunk room) room in
        chunk ← chooseChunk (previousChunk room);
        let room := set_currentChunk chunk room in
        now ← Date_now;
        mret (set_timerEndsAt (Some (now + turnSeconds (config room) * 1000)) room)
    end.

Definition ensureHostIsConnected (room : RoomState) : RoomState :=
  let reassign :=
    match list_find (fun p => connected p = true) (players room) with
    | Some (_, nextHost) =>
        set_lastEvent (pl_name nextHost +:+ " is now host.")
          (set_hostId (pl_id nextHost) room)
    | None => room
    end in
  match getPlayer room (hostId room) with
  | Some currentHost => if connected currentHost then room else reassign
  | None => reassign
  end.

Definition handleTimerExpiry (room : RoomState) : M RoomState :=
  let unavailable (activeId : string) : M RoomState :=
    room ← advanceTurn room (Some activeId);
    let room := set_lastEvent "Bomb moved because active player was unavailable." room in
    now ← Date_now;
    mret (set_updatedAt now room) in
  if bool_decide (phase room ≠ in_game) then mret room
  else
    match activePlayerId room with
    | None => mret room
    | Some activeId =>
        if bool_decide (activeId = "") then mret room
        else
          match findPlayer room activeId with
          | None => unavailable activeId
          | Some (i, active) =>
              if negb (connected active) || eliminated active
              then unavailable activeId
              else
                let active := set_lives (Z.max 0 (lives active - 1)) active in
                let active :=
                  if bool_decide (lives active = 0) then set_eliminated true active
                  else active in
                let room := set_players (<[i:=active]> (players room)) room in
                let room :=
                  set_lastEvent
                    (if bool_decide (lives active = 0)
                     then pl_name active +:+ " exploded and was eliminated."
                     else pl_name active +:+ " exploded and lost a life.") room in
                room ← advanceTurn room (Some (pl_id active));
                now ← Date_now;
                mret (set_updatedAt now room)
          end
    end.

(** ** gameService.ts: the snapshot and the broadcast *)

Definition serializePlayer (p : PlayerState) : PublicPlayerState :=
  mkPublicPlayer (pl_id p) (pl_name p) (connected p) (score p) (lives p)
    (eliminated p) (joinedAt p).

Definition connectedCount (room : RoomState) : nat :=
  length (filter (fun p => connected p = true) (players room)).

Definition serializeRoom (room : RoomState) : M PublicRoomState :=
  remainingMs ←
    match timerEndsAt room with
    | Some ends =>
        if bool_decide (phase room = in_game) && negb (ends =? 0)
        then now ← Date_now; mret (Z.max 0 (ends - now))
        else mret 0
    | None => mret 0
    end;
  serverTime ← Date_now;
  mret (mkPublicRoom (code room) (phase room) (hostId room)
          (map serializePlayer (players room))
          (mkRoomConfig (turnSeconds (config room)) (startingLives (config room))
             (dictionaryEnabled (config room)))
          (activePlayerId room) (currentChunk room) remainingMs
          (usedWordsOrdered room) (winnerId room) (lastEvent room)
          (bool_decide (phase room = lobby) && bool_decide (2 ≤ connectedCount room)%nat)
          serverTime).

Definition broadcastRoom (room : RoomState) : M unit :=
  snapshot ← serializeRoom room;
  _ ← io_emit (code room) "room:update" snapshot;
  io_emit (code room) "game:state" snapshot.

(** ** utils.ts: identifiers that need the host *)

Definition js_char_at (s : string) (i : Z) : option ascii :=
  if (i <? 0) then None else String.get (Z.to_nat i) s.

(** The inner loop of [createRoomCode]; appending [undefined] writes the
    word out, as string concatenation does. *)
Fixpoint randomCode (n : nat) (next : string) : M string :=
  match n with
  | O => mret next
  | S n' =>
      i ← random_index (String.length ROOM_CHARS);
      randomCode n'
        (next +:+ match js_char_at ROOM_CHARS i with
                  | Some c => String c EmptyString
                  | None => "undefined"
                  end)
  end.

Fixpoint createRoomCode_attempts (attempts : nat) (existingCodes : gset string)
  : M (option string) :=
  match attempts with
  | O => mret None
  | S attempts' =>
      next ← randomCode 6 "";
      if bool_decide (next ∈ existingCodes)
      then createRoomCode_attempts attempts' existingCodes
      else mret (Some next)
  end.

(** [None] is the thrown [Error] after 10000 attempts. *)
Definition createRoomCode (existingCodes : gset string) : M (option string) :=
  createRoomCode_attempts (N.to_nat 10000) existingCodes.

Definition createPlayerId : M string :=
  r ← Math_random;
  digits ← Number_toString36 r;
  now ← Date_now;
  stamp ← Number_toString36 (inject_Z now);
  mret ("p_" +:+ Js.slice 2 10 digits +:+ Js.slice_last 4 stamp).

(** ** gameService.ts: the public methods

    A public method takes the service and returns its result with the
    service after the call.  Joining the socket.io room of the same name
    ([socket.join]) belongs to the transport and is not modelled. *)

Definition bindSocketSession (socket roomCode playerId : string) (s : GameService)
  : GameService :=
  set_socketSessions (<[socket := mkSession roomCode playerId]> (socketSessions s)) s.

Definition socketOwnsPlayer (s : GameService) (socket roomCode playerId : string)
  : bool :=
  match socketSessions s !! socket with
  | Some session =>
      bool_decide (sess_roomCode session = roomCode)
      && bool_decide (sess_playerId session = playerId)
  | None => false
  end.

Definition sameName (a b : string) : bool :=
  bool_decide (Js.toLowerCase a = Js.toLowerCase b).

(** [createRoom]; [None] when [createRoomCode] throws. *)
Definition createRoom (socket nameInput : string) (s : GameService)
  : M (option OperationResult * GameService) :=
  let name := sanitizePlayerName nameInput in
  if bool_decide (name = "") then
    mret (Some (failure "Enter a valid display name."), s)
  else
    allocated ← createRoomCode (list_to_set (Registry.keys (rooms s)));
    match allocated with
    | None => mret (None, s)
    | Some roomCode =>
        playerId ← createPlayerId;
        joined ← Date_now;
        let host :=
          mkPlayer playerId name joined (Some socket) true 0 DEFAULT_STARTING_LIVES
            false in
        created ← Date_now;
        updated ← Date_now;
        let room :=
          mkRoom roomCode (pl_id host) lobby
            (mkRoomConfig DEFAULT_TURN_SECONDS DEFAULT_STARTING_LIVES
               (dict_enabled (dictionary s)))
            [host] ∅ [] None None None None None
            "Room created. Waiting for players." created updated None in
        let s := set_rooms (Registry.set roomCode room (rooms s)) s in
        let s := bindSocketSession socket roomCode playerId s in
        snapshot ← serializeRoom room;
        mret (Some (mkResult true None (Some roomCode) (Some playerId) (Some snapshot)),
              s)
    end.

Definition joinRoom (socket roomCodeInput nameInput : string) (s : GameService)
  : M (OperationResult * GameService) :=
  let roomCode := sanitizeRoomCode roomCodeInput in
  let name := sanitizePlayerName nameInput in
  if bool_decide (roomCode = "") then mret (failure "Enter a valid room code.", s)
  else if bool_decide (name = "") then mret (failure "Enter a valid display name.", s)
  else
    match Registry.get roomCode (rooms s) with
    | None => mret (failure "Room not found.", s)
    | Some room =>
        if bool_decide (phase room ≠ lobby) then
          mret (failure "Game already started in this room.", s)
        else if bool_decide (MAX_PLAYERS_PER_ROOM ≤ length (players room))%nat then
          mret (failure "Room is full.", s)
        else if existsb (fun p => sameName (pl_name p) name) (players room) then
          mret (failure "Display name already taken in this room.", s)
        else
          playerId ← createPlayerId;
          joined ← Date_now;
          let player :=
            mkPlayer playerId name joined (Some socket) true 0
              (startingLives (config room)) false in
          let room := set_players (players room ++ [player]) room in
          let room := set_emptySince None room in
          updated ← Date_now;
          let room := set_updatedAt updated room in
          let room := set_lastEvent (pl_name player +:+ " joined the room.") room in
          let s := set_rooms (Registry.set roomCode room (rooms s)) s in
          let s := bindSocketSession socket (code room) (pl_id player) s in
          _ ← broadcastRoom room;
          snapshot ← serializeRoom room;
          mret (mkResult true None (Some (code room)) (Some playerId) (Some snapshot),
                s)
    end.

Definition reconnectPlayer (socket roomCodeInput playerId : string)
    (nameInput : option string) (s : GameService)
  : M (OperationResult * GameService) :=
  let roomCode := sanitizeRoomCode roomCodeInput in
  match Registry.get roomCode (rooms s) with
  | None => mret (failure "Room no longer exists.", s)
  | Some room =>
      match findPlayer room playerId with
      | None => mret (failure "Player not found in room.", s)
      | Some (i, player) =>
          let maybeName :=
            match nameInput with
            | Some n => sanitizePlayerName n
            | None => ""
            end in
          let player :=
            if negb (bool_decide (maybeName = ""))
               && negb (bool_decide (maybeName = pl_name player))
            then
              if existsb
                   (fun entry =>
                      negb (bool_decide (pl_id entry = pl_id player))
                      && sameName (pl_name entry) maybeName)
                   (players room)
              then player
              else set_pl_name maybeName player
            else player in
          let player := set_socketId (Some socket) player in
          let player := set_connected true player in
          let room := set_players (<[i:=player]> (players room)) room in
          let s := bindSocketSession socket (code room) (pl_id player) s in
          let room := set_emptySince None room in
          let room := ensureHostIsConnected room in
          room ←
            (if bool_decide (phase room = in_game)
                && bool_decide (activePlayerId room = None)
             then
               match getNextEligiblePlayer room None with
               | Some next =>
                   let room := set_activePlayerId (Some (pl_id next)) room in
                   chunk ← chooseChunk (currentChunk room);
                   let room := set_currentChunk chunk room in
                   now ← Date_now;
                   mret (set_timerEndsAt
                           (Some (now + turnSeconds (config room) * 1000)) room)
               | None => mret room
               end
             else mret room);
          updated ← Date_now;
          let room := set_updatedAt updated room in
          let s := set_rooms (Registry.set roomCode room (rooms s)) s in
          _ ← broadcastRoom room;
          snapshot ← serializeRoom room;
          mret (mkResult true None (Some (code room)) (Some (pl_id player))
                  (Some snapshot), s)
      end
  end.

Definition updateSettings (socket : string) (payload : UpdateSettingsPayload)
    (s : GameService) : M (OperationResult * GameService) :=
  let roomCode := sanitizeRoomCode (us_roomCode payload) in
  match Registry.get roomCode (rooms s) with
  | None => mret (failure "Room not found.", s)
  | Some room =>
      if negb (socketOwnsPlayer s socket roomCode (us_playerId payload)) then
        mret (failure "Action not allowed for this socket.", s)
      else if bool_decide (phase room ≠ lobby) then
        mret (failure "Settings can only be changed in lobby.", s)
      else if bool_decide (hostId room ≠ us_playerId payload) then
        mret (failure "Only the host can change settings.", s)
      else
        let room :=
          match us_turnSeconds payload with
          | Some v =>
              set_config
                (set_turnSeconds (clampInt v MIN_TURN_SECONDS MAX_TURN_SECONDS)
                   (config room)) room
          | None => room
          end in
        let room :=
          match us_startingLives payload with
          | Some v =>
              set_config
                (set_startingLives (clampInt v MIN_STARTING_LIVES MAX_STARTING_LIVES)
                   (config room)) room
          | None => room
          end in
        let room :=
          match us_dictionaryEnabled payload with
          | Some v =>
              set_config
                (set_dictionaryEnabled (v && dict_enabled (dictionary s))
                   (config room)) room
          | None => room
          end in
        updated ← Date_now;
        let room := set_updatedAt updated room in
        let room := set_lastEvent "Host updated game settings." room in
        let s := set_rooms (Registry.set roomCode room (rooms s)) s in
        _ ← broadcastRoom room;
        snapshot ← serializeRoom room;
        mret (success snapshot, s)
  end.

(** The per-match reset of a player, shared by [startGame] and [playAgain]. *)
Definition resetPlayer (room : RoomState) (p : PlayerState) : PlayerState :=
  set_eliminated false (set_lives (startingLives (config room)) (set_score 0 p)).

Definition startGame (socket : string) (payload : PlayerActionPayload)
    (s : GameService) : M (OperationResult * GameService) :=
  let roomCode := sanitizeRoomCode (pa_roomCode payload) in
  match Registry.get roomCode (rooms s) with
  | None => mret (failure "Room not found.", s)
  | Some room =>
      if negb (socketOwnsPlayer s socket roomCode (pa_playerId payload)) then
        mret (failure "Action not allowed for this socket.", s)
      else if bool_decide (hostId room ≠ pa_playerId payload) then
        mret (failure "Only the host can start the game.", s)
      else if bool_decide (phase room ≠ lobby) then
        mret (failure "Game already running.", s)
      else if bool_decide (connectedCount room < MIN_PLAYERS_TO_START)%nat then
        mret (failure "Need at least 2 connected players to start.", s)
      else
        let room := set_phase in_game room in
        let room := set_usedWords ∅ room in
        let room := set_usedWordsOrdered [] room in
        let room := set_winnerId None room in
        let room := set_previousChunk None room in
        let room := set_players (map (resetPlayer room) (players room)) room in
        match getNextEligiblePlayer room None with
        | None =>
            let room := set_phase lobby room in
            mret (failure "No eligible players to start the game.",
                  set_rooms (Registry.set roomCode room (rooms s)) s)
        | Some firstActive =>
            let room := set_activePlayerId (Some (pl_id firstActive)) room in
            chunk ← chooseChunk None;
            let room := set_currentChunk chunk room in
            now ← Date_now;
            let room :=
              set_timerEndsAt (Some (now + turnSeconds (config room) * 1000)) room in
            let room :=
              set_lastEvent (pl_name firstActive +:+ " starts with the bomb.") room in
            updated ← Date_now;
            let room := set_updatedAt updated room in
            let s := set_rooms (Registry.set roomCode room (rooms s)) s in
            _ ← broadcastRoom room;
            snapshot ← serializeRoom room;
            mret (success snapshot, s)
        end
  end.

Definition RATE_LIMIT_ERROR : string := "Submitting too quickly. Slow down slightly.".
Definition WORD_USED_ERROR : string := "Word already used in this match.".

Definition missingChunkError (room : RoomState) : string :=
  "Word must include chunk " +:+ Js.dquote
  +:+ match currentChunk room with Some c => c | None => "null" end
  +:+ Js.dquote +:+ ".".

Definition submitWord (socket : string) (payload : SubmitWordPayload)
    (s : GameService) : M (OperationResult * GameService) :=
  now ← Date_now;
  let lastSubmit := default 0 (lastSubmitAtBySocket s !! socket) in
  if (now - lastSubmit <? SUBMIT_RATE_LIMIT_MS) then
    mret (failure RATE_LIMIT_ERROR, s)
  else
    let s := set_lastSubmitAtBySocket (<[socket:=now]> (lastSubmitAtBySocket s)) s in
    let roomCode := sanitizeRoomCode (sw_roomCode payload) in
    match Registry.get roomCode (rooms s) with
    | None => mret (failure "Room not found.", s)
    | Some room =>
        if negb (socketOwnsPlayer s socket roomCode (sw_playerId payload)) then
          mret (failure "Action not allowed for this socket.", s)
        else if bool_decide (phase room ≠ in_game) then
          mret (failure "Game is not active.", s)
        else
          match findPlayer room (sw_playerId payload) with
          | None => mret (failure "You are not an active player.", s)
          | Some (i, player) =>
              if negb (connected player) || eliminated player then
                mret (failure "You are not an active player.", s)
              else if bool_decide (activePlayerId room ≠ Some (pl_id player)) then
                mret (failure "It is not your turn.", s)
              else
                let word := sanitizeWord (sw_word payload) in
                if negb (Js.test_lower_plus word) then
                  mret (failure "Word must contain letters A-Z only.", s)
                else if bool_decide (String.length word < 3)%nat then
                  mret (failure "Word must be at least 3 letters.", s)
                else if
                  match Js.toLowerCase <$> currentChunk room with
                  | Some chunk =>
                      bool_decide (chunk = "") || negb (Js.includes word chunk)
                  | None => true
                  end
                then mret (failure (missingChunkError room), s)
                else if bool_decide (word ∈ usedWords room) then
                  mret (failure WORD_USED_ERROR, s)
                else if dictionaryEnabled (config room)
                        && negb (dict_has (dictionary s) word) then
                  mret (failure "Word not found in dictionary.", s)
                else
                  let room := set_usedWords ({[word]} ∪ usedWords room) room in
                  let room :=
                    set_usedWordsOrdered (usedWordsOrdered room ++ [word]) room in
                  let player := set_score (score player + 1) player in
                  let room := set_players (<[i:=player]> (players room)) room in
                  let room :=
                    set_lastEvent
                      (pl_name player +:+ " played " +:+ Js.dquote +:+ word
                       +:+ Js.dquote +:+ ".") room in
                  room ← advanceTurn room (Some (pl_id player));
                  updated ← Date_now;
                  let room := set_updatedAt updated room in
                  let s := set_rooms (Registry.set roomCode room (rooms s)) s in
                  _ ← broadcastRoom room;
                  snapshot ← serializeRoom room;
                  mret (success snapshot, s)
          end
    end.

Definition playAgain (socket : string) (payload : PlayerActionPayload)
    (s : GameService) : M (OperationResult * GameService) :=
  let roomCode := sanitizeRoomCode (pa_roomCode payload) in
  match Registry.get roomCode (rooms s) with
  | None => mret (failure "Room not found.", s)
  | Some room =>
      if negb (socketOwnsPlayer s socket roomCode (pa_playerId payload)) then
        mret (failure "Action not allowed for this socket.", s)
      else if bool_decide (hostId room ≠ pa_playerId payload) then
        mret (failure "Only the host can reset the match.", s)
      else if bool_decide (phase room ≠ results) then
        mret (failure "Match has not ended yet.", s)
      else
        let room := set_phase lobby room in
        let room := set_activePlayerId None room in
        let room := set_currentChunk None room in
        let room := set_previousChunk None room in
        let room := set_timerEndsAt None room in
        let room := set_winnerId None room in
        let room := set_usedWords ∅ room in
        let room := set_usedWordsOrdered [] room in
        let room := set_players (map (resetPlayer room) (players room)) room in
        let room := set_lastEvent "Match reset. Host can start a new game." room in
        updated ← Date_now;
        let room := set_updatedAt updated room in
        let s := set_rooms (Registry.set roomCode room (rooms s)) s in
        _ ← broadcastRoom room;
        snapshot ← serializeRoom room;
        mret (success snapshot, s)
  end.

Definition handleDisconnect (socket : string) (s : GameService) : M GameService :=
  let session := socketSessions s !! socket in
  let s := set_socketSessions (delete socket (socketSessions s)) s in
  let s := set_lastSubmitAtBySocket (delete socket (lastSubmitAtBySocket s)) s in
  match session with
  | None => mret s
  | Some session =>
      match Registry.get (sess_roomCode session) (rooms s) with
      | None => mret s
      | Some room =>
          match findPlayer room (sess_playerId session) with
          | None => mret s
          | Some (i, player) =>
              if bool_decide (socketId player ≠ Some socket) then mret s
              else
                let player := set_socketId None player in
                let player := set_connected false player in
                let room := set_players (<[i:=player]> (players room)) room in
                let room :=
                  if bool_decide (pl_id player = hostId room)
                  then ensureHostIsConnected room
                  else room in
                room ←
                  (if bool_decide (phase room = in_game) then
                     if bool_decide (activePlayerId room = Some (pl_id player)) then
                       let room :=
                         set_lastEvent
                           (pl_name player
                            +:+ " disconnected. Bomb moved to next player.") room in
                       advanceTurn room (Some (pl_id player))
                     else
                       let eligible := getEligiblePlayers room in
                       if bool_decide (length eligible ≤ 1)%nat
                       then finishGame room (head eligible)
                       else mret room
                   else mret room);
                emptied ←
                  (if bool_decide (connectedCount room = 0%nat)
                   then now ← Date_now; mret (Some now)
                   else mret None);
                let room := set_emptySince emptied room in
                updated ← Date_now;
                let room := set_updatedAt updated room in
                let s :=
                  set_rooms (Registry.set (sess_roomCode session) room (rooms s)) s in
                _ ← broadcastRoom room;
                mret s
          end
      end
  end.

Definition toAck (result : OperationResult) : OperationResult :=
  if negb (res_ok result) then
    mkResult false (Some (default "Unknown error." (res_error result))) None None None
  else
    mkResult true None (res_roomCode result) (res_playerId result) (res_state result).

(** The body of the loop of [tick] for one room. *)
Definition tickRoom (room : RoomState) : M RoomState :=
  if bool_decide (phase room ≠ in_game) then mret room
  else
    match activePlayerId room, timerEndsAt room with
    | Some activeId, Some ends =>
        if bool_decide (activeId = "") then mret room
        else
          now ← Date_now;
          room ← (if (ends <=? now) then handleTimerExpiry room else mret room);
          _ ← broadcastRoom room;
          mret room
    | _, _ => mret room
    end.

Fixpoint tickRooms (m : Registry.t) : M Registry.t :=
  match m with
  | [] => mret []
  | (k, room) :: rest =>
      room ← tickRoom room;
      rest ← tickRooms rest;
      mret ((k, room) :: rest)
  end.

Definition tick (s : GameService) : M GameService :=
  m ← tickRooms (rooms s);
  mret (set_rooms m s).

Definition isStale (now : Z) (room : RoomState) : bool :=
  match emptySince room with
  | Some since => EMPTY_ROOM_TTL_MS <? now - since
  | None => false
  end.

(** The loop visits the entries that were there when it started and deletes
    the stale ones by key. *)
Definition cleanupRooms (s : GameService) : M GameService :=
  now ← Date_now;
  mret (set_rooms
          (fold_left
             (fun m e => if isStale now (snd e) then Registry.delete (fst e) m else m)
             (rooms s) (rooms s)) s).

(** ** index.ts: what reaches the service

    The socket handlers and the two interval timers of the constructor.  The
    reply is the acknowledgement, when there is one. *)

Inductive Event : Type :=
| RoomCreate (socket name : string)
| RoomJoin (socket roomCode name : string)
| RoomReconnect (socket roomCode playerId : string) (name : option string)
| RoomUpdateSettings (socket : string) (payload : UpdateSettingsPayload)
| GameStart (socket : string) (payload : PlayerActionPayload)
| TurnSubmitWord (socket : string) (payload : SubmitWordPayload)
| GamePlayAgain (socket : string) (payload : PlayerActionPayload)
| Disconnect (socket : string)
| TimerTick
| CleanupSweep.

Definition acked (c : M (OperationResult * GameService))
  : M (option OperationResult * GameService) :=
  '(result, s) ← c; mret (Some (toAck result), s).

Definition silent (c : M GameService) : M (option OperationResult * GameService) :=
  s ← c; mret (None, s).

Definition dispatch (e : Event) (s : GameService)
  : M (option OperationResult * GameService) :=
  match e with
  | RoomCreate socket name =>
      '(result, s) ← createRoom socket name s; mret (toAck <$> result, s)
  | RoomJoin socket roomCode name => acked (joinRoom socket roomCode name s)
  | RoomReconnect socket roomCode playerId name =>
      acked (reconnectPlayer socket roomCode playerId name s)
  | RoomUpdateSettings socket payload => acked (updateSettings socket payload s)
  | GameStart socket payload => acked (startGame socket payload s)
  | TurnSubmitWord socket payload => acked (submitWord socket payload s)
  | GamePlayAgain socket payload => acked (playAgain socket payload s)
  | Disconnect socket => silent (handleDisconnect socket s)
  | TimerTick => silent (tick s)
  | CleanupSweep => silent (cleanupRooms s)
  end.

(** The service after an event, whatever the host answers. *)
Definition after (e : Event) (s : GameService) (h : Host) : GameService :=
  snd (fst (dispatch e s h)).

(** The states the service can be in: from a fresh service, any events under
    any hosts. *)
Inductive reachable : GameService -> Prop :=
| reachable_new (d : Dictionary) : reachable (newGameService d)
| reachable_after (s : GameService) (e : Event) (h : Host) :
    reachable s -> reachable (after e s h).

(** ** A sample host

    A clock that advances by one millisecond per reading from [start], draws
    [k/64] for [k = seed, seed + 1, ...], and a base-36 printer with ten
    fractional digits. *)

Definition digit36 (d : Z) : ascii :=
  if (d <? 10) then ascii_of_N (Z.to_N (48 + d)) else ascii_of_N (Z.to_N (87 + d)).

Fixpoint int36 (fuel : nat) (n : Z) : string :=
  match fuel with
  | O => ""
  | S fuel' =>
      (if (n <? 36) then "" else int36 fuel' (n / 36))
      +:+ String (digit36 (n mod 36)) ""
  end.

Fixpoint frac36 (digits : nat) (q : Q) : string :=
  match digits with
  | O => ""
  | S digits' =>
      let scaled := (q * 36)%Q in
      let d := Qfloor scaled in
      String (digit36 d) (frac36 digits' (scaled - inject_Z d)%Q)
  end.

Definition sampleToString36 (q : Q) : string :=
  let whole := Qfloor q in
  let part := (q - inject_Z whole)%Q in
  int36 16 whole +:+ (if Qeq_bool part 0 then "" else "." +:+ frac36 10 part).

Definition sampleHost (start seed : Z) : Host :=
  mkHost (fun n => start + Z.of_nat n) (fun n => mkDraw (seed + Z.of_nat n) 64)
    sampleToString36 [].

(** * Vocabulary of the properties *)

(** Following the words of the specification: the players strictly after
    position [k] in join order, then, wrapping around, those up to [k]; the
    first eligible one of them. *)
Definition clockwiseFrom (ps : list PlayerState) (k : nat) : list PlayerState :=
  drop (S k) ps ++ take (S k) ps.

Definition firstEligibleClockwise (ps : list PlayerState) (k : nat)
  : option PlayerState :=
  head (filter (fun p => isEligible p) (clockwiseFrom ps k)).

(** What a turn advance leaves behind: the roster, the settings, the host
    and the word log are untouched; either the match is over, won by the
    only eligible player if there is one, or at least two players are
    eligible, the bomb is with an eligible player and the chunk is new. *)
Record advanced (room room' : RoomState) (fromId : option string) : Prop := {
  adv_players : players room' = players room;
  adv_config : config room' = config room;
  adv_hostId : hostId room' = hostId room;
  adv_code : code room' = code room;
  adv_usedWords : usedWords room' = usedWords room;
  adv_usedWordsOrdered : usedWordsOrdered room' = usedWordsOrdered room;
  adv_emptySince : emptySince room' = emptySince room;
  adv_outcome :
    ((length (getEligiblePlayers room) <= 1)%nat
     /\ phase room' = results
     /\ winnerId room' = pl_id <$> head (getEligiblePlayers room)
     /\ activePlayerId room' = None
     /\ currentChunk room' = None
     /\ timerEndsAt room' = None)
    \/ ((2 <= length (getEligiblePlayers room))%nat
        /\ phase room' = phase room
        /\ winnerId room' = winnerId room
        /\ previousChunk room' = currentChunk room
        /\ exists next chunk ends,
            getNextEligiblePlayer room fromId = Some next
            /\ activePlayerId room' = Some (pl_id next)
            /\ currentChunk room' = Some chunk
            /\ Some chunk ≠ currentChunk room
            /\ timerEndsAt room' = Some ends);
}.

(** Identifiers are never empty, a player still in the match has a life
    left, and the configured number of starting lives is positive. *)
Definition players_ok (r : RoomState) : Prop :=
  Forall (fun p => pl_id p ≠ "" /\ (eliminated p = false -> 1 <= lives p)) (players r)
  /\ 1 <= startingLives (config r).

(** During a match at least two players are eligible and the bomb is with
    an eligible player of the roster. *)
Definition turn_ok (r : RoomState) : Prop :=
  phase r = in_game ->
  (2 <= length (getEligiblePlayers r))%nat
  /\ exists p, p ∈ players r /\ activePlayerId r = Some (pl_id p) /\ isEligible p = true.

Definition room_ok (r : RoomState) : Prop := players_ok r /\ turn_ok r.

Definition service_ok (s : GameService) : Prop :=
  forall c r, Registry.get c (rooms s) = Some r -> room_ok r.

(** What one event may do to a room that stays in the registry: it keeps
    the invariants; a match goes on or ends with the only eligible player,
    if any, as winner; and unless the event resets the match, no used word
    is forgotten. *)
Definition room_trans (reset : bool) (r r' : RoomState) : Prop :=
  (room_ok r -> room_ok r')
  /\ (phase r = in_game ->
      phase r' = in_game
      \/ (phase r' = results
          /\ winnerId r' = pl_id <$> head (getEligiblePlayers r')))
  /\ (reset = false -> usedWords r ⊆ usedWords r').

(** What one event may do to the registry: a room found afterwards was there
    before and made a [room_trans], or is a new room in the lobby. *)
Definition rooms_trans (reset : bool) (m m' : Registry.t) : Prop :=
  (NoDup (Registry.keys m) -> NoDup (Registry.keys m'))
  /\ forall c r',
      Registry.get c m' = Some r' ->
      (exists r, Registry.get c m = Some r /\ room_trans reset r r')
      \/ (Registry.get c m = None /\ room_ok r' /\ phase r' = lobby).

Definition is_reset (e : Event) : bool :=
  match e with
  | GameStart _ _ | GamePlayAgain _ _ => true
  | _ => false
  end.

(** Two rooms that differ at most in what the invariants do not look at:
    the host, the event line, the chunk, the timer and the timestamps. *)
Definition same_game (r r' : RoomState) : Prop :=
  players r' = players r /\ config r' = config r /\ phase r' = phase r
  /\ activePlayerId r' = activePlayerId r /\ winnerId r' = winnerId r
  /\ usedWords r' = usedWords r.

(** The player after the bomb went off in their hands. *)
Definition exploded (active : PlayerState) : PlayerState :=
  let active := set_lives (Z.max 0 (lives active - 1)) active in
  if bool_decide (lives active = 0) then set_eliminated true active else active.

Definition explosionEvent (active : PlayerState) : string :=
  if bool_decide (lives (exploded active) = 0)
  then pl_name (exploded active) +:+ " exploded and was eliminated."
  else pl_name (exploded active) +:+ " exploded and lost a life.".

Definition UNAVAILABLE_EVENT : string :=
  "Bomb moved because active player was unavailable.".

(** The two ways a timer expiry goes once it has found the bomb holder's
    identifier [a]. *)
Definition expiry_passes (room room' : RoomState) (a : string) : Prop :=
  match findPlayer room a with
  | Some (_, active) => isEligible active = false
  | None => True
  end
  /\ exists adv t,
      advanced room adv (Some a)
      /\ room' = set_updatedAt t (set_lastEvent UNAVAILABLE_EVENT adv).

Definition expiry_explodes (room room' : RoomState) (a : string) : Prop :=
  exists i active adv t,
    findPlayer room a = Some (i, active)
    /\ isEligible active = true
    /\ advanced
         (set_lastEvent (explosionEvent active)
            (set_players (<[i:=exploded active]> (players room)) room))
         adv (Some a)
    /\ room' = set_updatedAt t adv.

(** An event that leaves the dictionary and the rate-limit table alone. *)
Definition service_step (reset : bool) (s s' : GameService) : Prop :=
  rooms_trans reset (rooms s) (rooms s')
  /\ dictionary s' = dictionary s
  /\ lastSubmitAtBySocket s' = lastSubmitAtBySocket s.

Definition leftPlayer (player : PlayerState) : PlayerState :=
  set_connected false (set_socketId None player).

(** The room once the player at position [i] is marked disconnected and the
    host role has been looked at. *)
Definition afterLeaving (room : RoomState) (i : nat) (player : PlayerState)
  : RoomState :=
  let room := set_players (<[i:=leftPlayer player]> (players room)) room in
  if bool_decide (pl_id player = hostId room) then ensureHostIsConnected room
  else room.

(** How the match goes on in the room [hosted] that the player has left. *)
Definition settled (hosted room' : RoomState) (player : PlayerState) : Prop :=
  (phase hosted ≠ in_game /\ room' = hosted)
  \/ (phase hosted = in_game
      /\ activePlayerId hosted = Some (pl_id player)
      /\ exists message, advanced (set_lastEvent message hosted) room' (Some (pl_id player)))
  \/ (phase hosted = in_game
      /\ activePlayerId hosted ≠ Some (pl_id player)
      /\ (length (getEligiblePlayers hosted) <= 1)%nat
      /\ exists h, room' = fst (finishGame hosted (head (getEligiblePlayers hosted)) h))
  \/ (phase hosted = in_game
      /\ activePlayerId hosted ≠ Some (pl_id player)
      /\ (2 <= length (getEligiblePlayers hosted))%nat
      /\ room' = hosted).

(** The connection still speaks for a player of a room. *)
Definition live_session (s : GameService) (socket : string)
    (session : SocketSession) (room : RoomState) (i : nat) (player : PlayerState)
  : Prop :=
  socketSessions s !! socket = Some session
  /\ Registry.get (sess_roomCode session) (rooms s) = Some room
  /\ findPlayer room (sess_playerId session) = Some (i, player)
  /\ socketId player = Some socket.

(** The events that write the rate-limit entry of a connection: its own
    submissions and its disconnection. *)
Definition touches_rate_limit (socket : string) (e : Event) : bool :=
  match e with
  | TurnSubmitWord socket' _ | Disconnect socket' => bool_decide (socket' = socket)
  | _ => false
  end.

(** [meanwhile socket s s']: the service went from [s] to [s'] through
    events that are neither a submission nor the disconnection of
    [socket]. *)
Inductive meanwhile (socket : string) : GameService -> GameService -> Prop :=
| meanwhile_refl (s : GameService) : meanwhile socket s s
| meanwhile_step (s s' : GameService) (e : Event) (h : Host) :
    meanwhile socket s s' ->
    touches_rate_limit socket e = false ->
    meanwhile socket s (after e s' h).

(** Following the words of the specification: the player after losing
    exactly one life, eliminated exactly when no life is left, and otherwise
    as before. *)
Definition loses_one_life (before after : PlayerState) : Prop :=
  lives after = lives before - 1
  /\ (eliminated after = true <-> lives after = 0)
  /\ pl_id after = pl_id before
  /\ pl_name after = pl_name before
  /\ joinedAt after = joinedAt before
  /\ socketId after = socketId before
  /\ connected after = connected before
  /\ score after = score before.



(** ** A sample game

    Ava creates a room, Bo joins, Ava starts the match and plays a word. *)

Definition SAMPLE_CODE : string := "DEEFFG".
Definition AVA : string := "p_7b900000rs".
Definition BO : string := "p_b90000001jk".

Definition sampleLobby : GameService :=
  after (RoomJoin "sockB" SAMPLE_CODE "Bo")
    (after (RoomCreate "sockA" "Ava") (newGameService disabledDictionary)
       (sampleHost 1000 7))
    (sampleHost 2000 20).

Definition sampleMatch : GameService :=
  after (GameStart "sockA" (mkPlayerAction SAMPLE_CODE AVA)) sampleLobby
    (sampleHost 3000 9).

Definition sampleSecondTurn : GameService :=
  after (TurnSubmitWord "sockA" (mkSubmitWord SAMPLE_CODE AVA " Teach ")) sampleMatch
    (sampleHost 4000 11).

(** Bo has come back on another connection; the old one is still bound. *)
Definition sampleReconnected : GameService :=
  after (RoomReconnect "sockC" SAMPLE_CODE BO None) sampleLobby (sampleHost 2600 0).

(** Three players, the second one disconnected. *)
Definition sampleTrio : RoomState :=
  mkRoom "ROOM42" "a" in_game (mkRoomConfig 10 3 false)
    [ mkPlayer "a" "Ann" 1 (Some "s1") true 0 3 false;
      mkPlayer "b" "Ben" 2 None false 0 3 false;
      mkPlayer "c" "Cy" 3 (Some "s3") true 0 3 false ]
    ∅ [] (Some "a") (Some "CH") None (Some 100) None "" 0 0 None.

(** ** Vocabulary of the further properties *)

(** The characters that [sanitizeRoomCode] keeps. *)
Definition code_char (c : ascii) : bool := Js.is_upper c || Js.is_digit c.

(** The characters of [ROOM_CHARS], of which room codes are made. *)
Definition room_char (c : ascii) : bool :=
  Js.includes ROOM_CHARS (String c EmptyString).

(** ** One event, one room: what each method does to the room it touches *)

(** The player that [createRoom] and [joinRoom] add. *)
Definition newcomer (playerId name socket : string) (joined startLives : Z)
  : PlayerState :=
  mkPlayer playerId name joined (Some socket) true 0 startLives false.

(** A display name as [sanitizePlayerName] leaves it, when it is accepted. *)
Definition well_named (name : string) : Prop :=
  name ≠ "" /\ (String.length name <= 20)%nat /\ Js.all_chars name_char name = true.

(** The player who comes back on [socket], under the old or a new name. *)
Definition returned (socket : string) (player renamed : PlayerState) : Prop :=
  (renamed = player
   \/ exists name, well_named name /\ renamed = set_pl_name name player).

(** The room after the three optional assignments of [updateSettings]. *)
Definition settingsApplied (d : Dictionary) (payload : UpdateSettingsPayload)
    (room : RoomState) : RoomState :=
  let room :=
    match us_turnSeconds payload with
    | Some v =>
        set_config
          (set_turnSeconds (clampInt v MIN_TURN_SECONDS MAX_TURN_SECONDS) (config room))
          room
    | None => room
    end in
  let room :=
    match us_startingLives payload with
    | Some v =>
        set_config
          (set_startingLives (clampInt v MIN_STARTING_LIVES MAX_STARTING_LIVES)
             (config room)) room
    | None => room
    end in
  match us_dictionaryEnabled payload with
  | Some v =>
      set_config (set_dictionaryEnabled (v && dict_enabled d) (config room)) room
  | None => room
  end.

(** The room as [startGame] prepares it before it picks the first player. *)
Definition matchReset (room : RoomState) : RoomState :=
  let room := set_phase in_game room in
  let room := set_usedWords ∅ room in
  let room := set_usedWordsOrdered [] room in
  let room := set_winnerId None room in
  let room := set_previousChunk None room in
  set_players (map (resetPlayer room) (players room)) room.

(** The room as [submitWord] leaves it before the turn advances. *)
Definition wordPlayed (room : RoomState) (i : nat) (player : PlayerState)
    (word : string) : RoomState :=
  let room := set_usedWords ({[word]} ∪ usedWords room) room in
  let room := set_usedWordsOrdered (usedWordsOrdered room ++ [word]) room in
  let player := set_score (score player + 1) player in
  let room := set_players (<[i:=player]> (players room)) room in
  set_lastEvent
    (pl_name player +:+ " played " +:+ Js.dquote +:+ word +:+ Js.dquote +:+ ".") room.

(** The room as [playAgain] leaves it, up to the event line and the time. *)
Definition lobbyAgain (room : RoomState) : RoomState :=
  let room := set_phase lobby room in
  let room := set_activePlayerId None room in
  let room := set_currentChunk None room in
  let room := set_previousChunk None room in
  let room := set_timerEndsAt None room in
  let room := set_winnerId None room in
  let room := set_usedWords ∅ room in
  let room := set_usedWordsOrdered [] room in
  set_players (map (resetPlayer room) (players room)) room.

(** The sample match after Bo's connection has closed: Ava has won. *)
Definition sampleResults : GameService :=
  after (Disconnect "sockB") sampleMatch (sampleHost 6000 0).

(** [room_step d room room']: what one event does to a room that is in the
    registry before and after it, with one constructor for each place where
    a method writes a room back; [d] is the dictionary of the server. *)
Inductive room_step (d : Dictionary) : RoomState -> RoomState -> Prop :=
| step_none room : room_step d room room
| step_join room playerId name socket joined updated :
    phase room = lobby ->
    (length (players room) < MAX_PLAYERS_PER_ROOM)%nat ->
    playerId ≠ "" -> well_named name ->
    existsb (fun p => sameName (pl_name p) name) (players room) = false ->
    room_step d room
      (set_lastEvent (name +:+ " joined the room.")
         (set_updatedAt updated
            (set_emptySince None
               (set_players
                  (players room
                   ++ [newcomer playerId name socket joined (startingLives (config room))])
                  room))))
| step_reconnect room i player renamed socket restarted updated :
    players room !! i = Some player ->
    returned socket player renamed ->
    let back := set_connected true (set_socketId (Some socket) renamed) in
    let hosted :=
      ensureHostIsConnected
        (set_emptySince None (set_players (<[i:=back]> (players room)) room)) in
    (restarted = hosted
     \/ (phase hosted = in_game /\ activePlayerId hosted = None
         /\ exists next chunk ends,
             getNextEligiblePlayer hosted None = Some next
             /\ chunk ∈ CHUNKS
             /\ restarted
                = set_timerEndsAt (Some ends)
                    (set_currentChunk (Some chunk)
                       (set_activePlayerId (Some (pl_id next)) hosted)))) ->
    room_step d room (set_updatedAt updated restarted)
| step_settings room payload updated :
    phase room = lobby ->
    room_step d room
      (set_lastEvent "Host updated game settings."
         (set_updatedAt updated (settingsApplied d payload room)))
| step_start room firstActive chunk ends updated :
    phase room = lobby ->
    (MIN_PLAYERS_TO_START <= connectedCount room)%nat ->
    getNextEligiblePlayer (matchReset room) None = Some firstActive ->
    chunk ∈ CHUNKS ->
    room_step d room
      (set_updatedAt updated
         (set_lastEvent (pl_name firstActive +:+ " starts with the bomb.")
            (set_timerEndsAt (Some ends)
               (set_currentChunk (Some chunk)
                  (set_activePlayerId (Some (pl_id firstActive)) (matchReset room))))))
| step_submit room i player word adv fromHost toHost updated :
    phase room = in_game ->
    findPlayer room (pl_id player) = Some (i, player) ->
    isEligible player = true ->
    activePlayerId room = Some (pl_id player) ->
    Js.test_lower_plus word = true ->
    (3 <= String.length word)%nat ->
    (exists chunk, currentChunk room = Some chunk
                   /\ Js.includes word (Js.toLowerCase chunk) = true) ->
    word ∉ usedWords room ->
    (dictionaryEnabled (config room) = true -> dict_has d word = true) ->
    advanceTurn (wordPlayed room i player word) (Some (pl_id player)) fromHost
    = (adv, toHost) ->
    room_step d room (set_updatedAt updated adv)
| step_again room updated :
    phase room = results ->
    room_step d room
      (set_updatedAt updated
         (set_lastEvent "Match reset. Host can start a new game." (lobbyAgain room)))
| step_leave room i player mid fromHost toHost emptied updated :
    players room !! i = Some player ->
    is_Some (socketId player) ->
    let hosted := afterLeaving room i player in
    ((mid = hosted
      /\ (phase hosted ≠ in_game
          \/ (activePlayerId hosted ≠ Some (pl_id player)
              /\ (2 <= length (getEligiblePlayers hosted))%nat)))
     \/ (phase hosted = in_game
         /\ activePlayerId hosted = Some (pl_id player)
         /\ advanceTurn
              (set_lastEvent
                 (pl_name player +:+ " disconnected. Bomb moved to next player.")
                 hosted)
              (Some (pl_id player)) fromHost
            = (mid, toHost))
     \/ (phase hosted = in_game
         /\ activePlayerId hosted ≠ Some (pl_id player)
         /\ (length (getEligiblePlayers hosted) <= 1)%nat
         /\ finishGame hosted (head (getEligiblePlayers hosted)) fromHost
            = (mid, toHost))) ->
    (emptied = None <-> connectedCount mid ≠ 0%nat) ->
    room_step d room (set_updatedAt updated (set_emptySince emptied mid))
| step_expire room fromHost room' toHost :
    handleTimerExpiry room fromHost = (room', toHost) ->
    room_step d room room'.

(** The room that [createRoom] puts into the registry under [c]. *)
Definition room_born (d : Dictionary) (c : string) (room : RoomState) : Prop :=
  exists playerId name socket joined created updated,
    playerId ≠ "" /\ well_named name
    /\ String.length c = 6%nat /\ Js.all_chars room_char c = true
    /\ room
       = mkRoom c playerId lobby
           (mkRoomConfig DEFAULT_TURN_SECONDS DEFAULT_STARTING_LIVES (dict_enabled d))
           [newcomer playerId name socket joined DEFAULT_STARTING_LIVES]
           ∅ [] None None None None None
           "Room created. Waiting for players." created updated None.

(** What one event does to the registry: a room found afterwards was there
    before and made a [room_step], or has just been opened by
    [createRoom]. *)
Definition rooms_step (d : Dictionary) (m m' : Registry.t) : Prop :=
  forall c r',
    Registry.get c m' = Some r' ->
    (exists r, Registry.get c m = Some r /\ room_step d r r')
    \/ (Registry.get c m = None /\ room_born d c r').

(** A method call that changed the room under [key] by a [room_step] and
    nothing else of the registry. *)
Definition touched (s s' : GameService) (key : string) : Prop :=
  exists room room',
    Registry.get key (rooms s) = Some room
    /\ room_step (dictionary s) room room'
    /\ rooms s' = Registry.set key room' (rooms s).

(** The checks of [submitWord] all passed. *)
Definition accepted_word (s : GameService) (socket : string)
    (payload : SubmitWordPayload) (now : Z) (room : RoomState) (i : nat)
    (player : PlayerState) : Prop :=
  SUBMIT_RATE_LIMIT_MS <= now - default 0 (lastSubmitAtBySocket s !! socket)
  /\ socketOwnsPlayer s socket (sanitizeRoomCode (sw_roomCode payload))
       (sw_playerId payload) = true
  /\ phase room = in_game
  /\ findPlayer room (sw_playerId payload) = Some (i, player)
  /\ isEligible player = true
  /\ activePlayerId room = Some (pl_id player)
  /\ Js.test_lower_plus (sanitizeWord (sw_word payload)) = true
  /\ (3 <= String.length (sanitizeWord (sw_word payload)))%nat
  /\ (exists chunk,
        currentChunk room = Some chunk
        /\ Js.toLowerCase chunk ≠ ""
        /\ Js.includes (sanitizeWord (sw_word payload)) (Js.toLowerCase chunk) = true)
  /\ (sanitizeWord (sw_word payload) ∉ usedWords room)
  /\ (dictionaryEnabled (config room) = true ->
      dict_has (dictionary s) (sanitizeWord (sw_word payload)) = true).

(** The name a reconnecting player ends up with. *)
Definition reconnectName (room : RoomState) (player : PlayerState)
    (nameInput : option string) : PlayerState :=
  let maybeName :=
    match nameInput with
    | Some n => sanitizePlayerName n
    | None => ""
    end in
  if negb (bool_decide (maybeName = ""))
     && negb (bool_decide (maybeName = pl_name player))
  then
    if existsb
         (fun entry =>
            negb (bool_decide (pl_id entry = pl_id player))
            && sameName (pl_name entry) maybeName)
         (players room)
    then player
    else set_pl_name maybeName player
  else player.

(** ** What holds of every room of a reachable service *)

(** The settings are within their bounds, and the dictionary is on only if
    the server has one. *)
Definition config_wf (d : Dictionary) (c : RoomConfig) : Prop :=
  MIN_TURN_SECONDS <= turnSeconds c <= MAX_TURN_SECONDS
  /\ MIN_STARTING_LIVES <= startingLives c <= MAX_STARTING_LIVES
  /\ (dictionaryEnabled c = true -> dict_enabled d = true).

(** The record of a player is consistent. *)
Definition player_wf (p : PlayerState) : Prop :=
  pl_id p ≠ "" /\ well_named (pl_name p)
  /\ 0 <= lives p <= MAX_STARTING_LIVES
  /\ (eliminated p = true <-> lives p = 0)
  /\ (connected p = true <-> is_Some (socketId p))
  /\ 0 <= score p.

(** One to twelve players, each with a consistent record. *)
Definition roster_wf (r : RoomState) : Prop :=
  (1 <= length (players r) <= MAX_PLAYERS_PER_ROOM)%nat
  /\ Forall player_wf (players r).

(** The sum of the scores. *)
Definition totalScore (ps : list PlayerState) : Z :=
  foldr (fun p acc => score p + acc) 0 ps.

(** A word as [submitWord] accepts it: letters a-z, at least three. *)
Definition word_wf (w : string) : Prop :=
  Js.test_lower_plus w = true /\ (3 <= String.length w)%nat.

(** The used-word set, the word log and the scores agree. *)
Definition log_wf (r : RoomState) : Prop :=
  usedWords r = list_to_set (usedWordsOrdered r)
  /\ NoDup (usedWordsOrdered r)
  /\ Forall word_wf (usedWordsOrdered r)
  /\ totalScore (players r) = Z.of_nat (length (usedWordsOrdered r)).

(** The phase fixes which fields of the turn are set. *)
Definition phase_wf (r : RoomState) : Prop :=
  match phase r with
  | lobby =>
      activePlayerId r = None /\ currentChunk r = None /\ previousChunk r = None
      /\ timerEndsAt r = None /\ winnerId r = None /\ usedWordsOrdered r = []
      /\ Forall (fun p => eliminated p = false) (players r)
  | in_game =>
      (exists c, currentChunk r = Some c /\ c ∈ CHUNKS)
      /\ currentChunk r ≠ previousChunk r
      /\ is_Some (timerEndsAt r) /\ winnerId r = None
      /\ Forall (fun p => lives p <= startingLives (config r)) (players r)
  | results =>
      activePlayerId r = None /\ currentChunk r = None /\ timerEndsAt r = None
      /\ (exists w, w ∈ players r /\ winnerId r = Some (pl_id w))
      /\ Forall (fun p => lives p <= startingLives (config r)) (players r)
  end.

(** The host is a player of the roster. *)
Definition host_wf (r : RoomState) : Prop :=
  exists p, p ∈ players r /\ pl_id p = hostId r.

(** The room is marked empty exactly when nobody is connected. *)
Definition empty_wf (r : RoomState) : Prop :=
  emptySince r = None <-> connectedCount r ≠ 0%nat.

(** All of it, for the room filed under the code [c]. *)
Record room_wf (d : Dictionary) (c : string) (r : RoomState) : Prop := {
  wf_code : code r = c;
  wf_code_shape : String.length c = 6%nat /\ Js.all_chars room_char c = true;
  wf_config : config_wf d (config r);
  wf_roster : roster_wf r;
  wf_log : log_wf r;
  wf_phase : phase_wf r;
  wf_host : host_wf r;
  wf_empty : empty_wf r;
}.

(** Two rooms that differ at most in the turn: the phase, the bomb holder,
    the chunks, the timer and the winner, and in the event line and the
    timestamps. *)
Definition same_frame (r r' : RoomState) : Prop :=
  code r' = code r /\ players r' = players r /\ config r' = config r
  /\ hostId r' = hostId r /\ usedWords r' = usedWords r
  /\ usedWordsOrdered r' = usedWordsOrdered r /\ emptySince r' = emptySince r.

(** Two rooms that differ at most in the host, the event line and the
    timestamps. *)
Definition kept (r r' : RoomState) : Prop :=
  code r' = code r /\ players r' = players r /\ config r' = config r
  /\ phase r' = phase r /\ activePlayerId r' = activePlayerId r
  /\ currentChunk r' = currentChunk r /\ previousChunk r' = previousChunk r
  /\ timerEndsAt r' = timerEndsAt r /\ winnerId r' = winnerId r
  /\ usedWords r' = usedWords r /\ usedWordsOrdered r' = usedWordsOrdered r
  /\ emptySince r' = emptySince r.

(** What an event does to one player, a played word apart. *)
Inductive player_step : PlayerState -> PlayerState -> Prop :=
| player_back p renamed socket :
    returned socket p renamed ->
    player_step p (set_connected true (set_socketId (Some socket) renamed))
| player_left p : is_Some (socketId p) -> player_step p (leftPlayer p)
| player_exploded p : isEligible p = true -> player_step p (exploded p).

(** What an event does to the roster and the word log of a room. *)
Inductive match_step (r r' : RoomState) : Prop :=
| match_same :
    players r' = players r ->
    usedWordsOrdered r' = usedWordsOrdered r -> usedWords r' = usedWords r ->
    match_step r r'
| match_join playerId name socket joined :
    phase r = lobby ->
    (length (players r) < MAX_PLAYERS_PER_ROOM)%nat ->
    playerId ≠ "" -> well_named name ->
    players r'
    = players r ++ [newcomer playerId name socket joined (startingLives (config r))] ->
    usedWordsOrdered r' = usedWordsOrdered r -> usedWords r' = usedWords r ->
    match_step r r'
| match_change i p p' :
    players r !! i = Some p -> player_step p p' ->
    players r' = <[i:=p']> (players r) ->
    usedWordsOrdered r' = usedWordsOrdered r -> usedWords r' = usedWords r ->
    match_step r r'
| match_word i p word :
    phase r = in_game ->
    players r !! i = Some p -> isEligible p = true ->
    word_wf word -> word ∉ usedWords r ->
    players r' = <[i:=set_score (score p + 1) p]> (players r) ->
    usedWordsOrdered r' = usedWordsOrdered r ++ [word] ->
    usedWords r' = {[word]} ∪ usedWords r ->
    match_step r r'
| match_reset :
    phase r ≠ in_game ->
    players r' = map (resetPlayer r) (players r) ->
    usedWordsOrdered r' = [] -> usedWords r' = ∅ ->
    match_step r r'.

(** * Properties *)

(** ** Next-player selection *)

Lemma clockwiseFrom_length ps k : length (clockwiseFrom ps k) = length ps.
Proof.
  unfold clockwiseFrom. rewrite length_app, length_drop, length_take. lia.
Qed.

Lemma clockwiseFrom_lookup ps k j :
  (k < length ps)%nat -> (j < length ps)%nat ->
  clockwiseFrom ps k !! j = ps !! ((k + S j) mod length ps)%nat.
Proof.
  intros Hk Hj. unfold clockwiseFrom.
  destruct (decide (S k + j < length ps)%nat) as [Hlt|Hge].
  - rewrite lookup_app_l by (rewrite length_drop; lia).
    rewrite lookup_drop. f_equal.
    rewrite Nat.mod_small by lia. lia.
  - rewrite lookup_app_r by (rewrite length_drop; lia).
    rewrite length_drop, lookup_take_lt by lia. f_equal.
    replace (k + S j)%nat with ((k + S j - length ps) + 1 * length ps)%nat by lia.
    rewrite Nat.Div0.mod_add. rewrite Nat.mod_small by lia. lia.
Qed.

Lemma clockwiseFrom_elem ps k p : p ∈ clockwiseFrom ps k <-> p ∈ ps.
Proof.
  unfold clockwiseFrom. rewrite elem_of_app.
  rewrite <- (take_drop (S k) ps) at 3. rewrite elem_of_app. tauto.
Qed.

Lemma scanFrom_clockwise ps k todo off :
  (k < length ps)%nat -> (off + todo = length ps)%nat ->
  scanFrom ps k (S off) todo
  = head (filter (fun p => isEligible p) (drop off (clockwiseFrom ps k))).
Proof.
  intros Hk. revert off. induction todo as [|todo IH]; intros off Hsum.
  - rewrite drop_ge by (rewrite clockwiseFrom_length; lia). reflexivity.
  - assert (Hoff : (off < length ps)%nat) by lia.
    pose proof (clockwiseFrom_lookup ps k off Hk Hoff) as Hrot.
    destruct (lookup_lt_is_Some_2 (clockwiseFrom ps k) off) as [c Hc].
    { rewrite clockwiseFrom_length. lia. }
    rewrite (drop_S _ _ _ Hc). simpl scanFrom.
    rewrite <- Hrot, Hc. unfold isEligible at 1.
    destruct (connected c && negb (eliminated c)) eqn:He.
    + rewrite filter_cons_True by (unfold isEligible; rewrite He; exact I).
      reflexivity.
    + rewrite filter_cons_False by (unfold isEligible; rewrite He; auto).
      apply IH. lia.
Qed.

Lemma findPlayer_Some room fromId k p :
  findPlayer room fromId = Some (k, p) ->
  players room !! k = Some p /\ pl_id p = fromId /\ (k < length (players room))%nat.
Proof.
  unfold findPlayer. intros H. apply list_find_Some in H as (Hk & Hid & _).
  split; [exact Hk|]. split; [exact Hid|]. eapply lookup_lt_Some; eauto.
Qed.

Lemma filter_eq_nil {A} (P : A -> Prop) `{!forall x, Decision (P x)} (l : list A) :
  filter P l = [] <-> forall x, x ∈ l -> ~ P x.
Proof.
  split.
  - intros Hnil x Hx HP. eapply filter_nil_not_elem_of; eauto.
  - intros Hall. induction l as [|a l IH]; [reflexivity|].
    rewrite filter_cons_False by (apply Hall; left).
    apply IH. intros x Hx. apply Hall. by right.
Qed.

Lemma eligible_clockwise_nil ps k :
  filter (fun p => isEligible p) (clockwiseFrom ps k) = []
  <-> filter (fun p => isEligible p) ps = [].
Proof.
  rewrite !filter_eq_nil. split; intros H x Hx; apply H.
  - by apply clockwiseFrom_elem.
  - by apply clockwiseFrom_elem in Hx.
Qed.

Lemma getNextEligiblePlayer_from room fromId k p :
  findPlayer room fromId = Some (k, p) ->
  getNextEligiblePlayer room (Some fromId) = firstEligibleClockwise (players room) k.
Proof.
  intros Hf. pose proof (findPlayer_Some _ _ _ _ Hf) as (_ & _ & Hk).
  unfold getNextEligiblePlayer, firstEligibleClockwise. rewrite Hf.
  rewrite (scanFrom_clockwise _ _ _ 0) by (auto; lia). rewrite drop_0.
  case_bool_decide as Hlen; [|reflexivity].
  symmetry. apply head_None. apply eligible_clockwise_nil.
  by apply length_zero_iff_nil.
Qed.

Lemma getNextEligiblePlayer_None room fromId :
  getNextEligiblePlayer room fromId = None <-> getEligiblePlayers room = [].
Proof.
  unfold getNextEligiblePlayer.
  case_bool_decide as Hlen.
  - apply length_zero_iff_nil in Hlen. tauto.
  - assert (Hne : getEligiblePlayers room <> []).
    { intros E. apply Hlen. by rewrite E. }
    destruct fromId as [fromId|]; [|by rewrite head_None].
    destruct (findPlayer room fromId) as [[k p]|] eqn:Hf; [|by rewrite head_None].
    pose proof (findPlayer_Some _ _ _ _ Hf) as (_ & _ & Hk).
    rewrite (scanFrom_clockwise _ _ _ 0) by (auto; lia). rewrite drop_0.
    rewrite head_None, eligible_clockwise_nil. reflexivity.
Qed.

Lemma getNextEligiblePlayer_Some room fromId next :
  getNextEligiblePlayer room fromId = Some next ->
  next ∈ players room /\ isEligible next = true.
Proof.
  intros H.
  assert (Hin : next ∈ getEligiblePlayers room
                \/ exists k, next ∈ filter (fun p => isEligible p)
                                      (clockwiseFrom (players room) k)).
  { unfold getNextEligiblePlayer in H.
    case_bool_decide; [discriminate|].
    destruct fromId as [fromId|]; [|left; by eapply head_Some_elem_of].
    destruct (findPlayer room fromId) as [[k p]|] eqn:Hf;
      [|left; by eapply head_Some_elem_of].
    pose proof (findPlayer_Some _ _ _ _ Hf) as (_ & _ & Hk).
    rewrite (scanFrom_clockwise _ _ _ 0) in H by (auto; lia). rewrite drop_0 in H.
    right. exists k. by eapply head_Some_elem_of. }
  destruct Hin as [Hin|[k Hin]]; apply list_elem_of_filter in Hin as [He Hin].
  - split; [done|]. by apply Is_true_true.
  - split; [by apply clockwiseFrom_elem in Hin|]. by apply Is_true_true.
Qed.

(** C5. Next-player selection returns the first eligible player in join
    order clockwise strictly after the position of the starting player,
    wrapping around; with no starting player it returns the first eligible
    player in join order; and it returns nothing exactly when no player is
    eligible.  A starting identifier that is not in the roster counts as no
    starting player. *)
Theorem getNextEligiblePlayer_clockwise (room : RoomState) :
  getNextEligiblePlayer room None = head (getEligiblePlayers room)
  /\ (forall fromId k p,
        findPlayer room fromId = Some (k, p) ->
        getNextEligiblePlayer room (Some fromId)
        = firstEligibleClockwise (players room) k)
  /\ (forall fromId,
        getNextEligiblePlayer room fromId = None <-> getEligiblePlayers room = [])
  /\ (forall fromId,
        findPlayer room fromId = None ->
        getNextEligiblePlayer room (Some fromId) = head (getEligiblePlayers room)).
Proof.
  assert (Hfirst : forall eligible : list PlayerState,
             (if bool_decide (length eligible = 0%nat) then None else head eligible)
             = head eligible).
  { intros eligible. case_bool_decide as Hlen; [|reflexivity].
    apply length_zero_iff_nil in Hlen. by rewrite Hlen. }
  split; [|split; [|split]].
  - unfold getNextEligiblePlayer. apply Hfirst.
  - apply getNextEligiblePlayer_from.
  - apply getNextEligiblePlayer_None.
  - intros fromId Hf. unfold getNextEligiblePlayer. rewrite Hf. apply Hfirst.
Qed.

(** ** Chunk selection *)

Lemma random_index_range (n : nat) (h : Host) :
  (0 < n)%nat -> 0 <= fst (random_index n h) < Z.of_nat n.
Proof.
  intros Hn. unfold random_index, Math_random, draw_value, mbind, M_bind, mret, M_ret.
  cbn [fst snd]. destruct (randoms h 0%nat) as [a d]. cbn [rnum rden].
  unfold Qfloor, Qmult, inject_Z. cbn [Qnum Qden].
  rewrite Pos.mul_1_r.
  pose proof (Z.mod_pos_bound a (Z.pos d) ltac:(lia)) as Hmod.
  split.
  - apply Z.div_pos; nia.
  - apply Z.div_lt_upper_bound; nia.
Qed.

Lemma js_index_in_range {A} (l : list A) (i : Z) :
  0 <= i < Z.of_nat (length l) -> exists x, js_index l i = Some x /\ x ∈ l.
Proof.
  intros Hi. unfold js_index.
  destruct (i <? 0) eqn:Hneg; [lia|].
  destruct (lookup_lt_is_Some_2 l (Z.to_nat i)) as [x Hx]; [lia|].
  exists x. split; [exact Hx|]. eapply list_elem_of_lookup_2; eauto.
Qed.

Lemma CHUNKS_pool_nonempty (previous : option string) :
  (0 < length (filter (fun chunk => Some chunk ≠ previous) CHUNKS))%nat.
Proof.
  assert (H : "AR" ∈ filter (fun chunk => Some chunk ≠ previous) CHUNKS
              \/ "ER" ∈ filter (fun chunk => Some chunk ≠ previous) CHUNKS).
  { destruct (decide (Some "AR" = previous)) as [<-|Hne].
    - right. apply list_elem_of_filter. split; [discriminate|].
      unfold CHUNKS. set_solver.
    - left. apply list_elem_of_filter. split; [exact Hne|].
      unfold CHUNKS. set_solver. }
  destruct (filter _ CHUNKS) as [|c l]; [|simpl; lia].
  destruct H as [H|H]; by apply not_elem_of_nil in H.
Qed.

Lemma chooseChunk_fresh (previous : option string) (h : Host) :
  exists chunk,
    fst (chooseChunk previous h) = Some chunk
    /\ Some chunk ≠ previous /\ chunk ∈ CHUNKS.
Proof.
  pose proof (CHUNKS_pool_nonempty previous) as Hpool.
  unfold chooseChunk. rewrite bool_decide_true by exact Hpool.
  pose proof (random_index_range _ h Hpool) as Hrange.
  unfold mbind, M_bind, mret, M_ret.
  destruct (random_index _ h) as [i h'] eqn:Hi. cbn [fst] in *.
  destruct (js_index_in_range _ _ Hrange) as (chunk & Hsome & Hin).
  exists chunk. split; [exact Hsome|].
  by apply list_elem_of_filter in Hin as [Hne Hin].
Qed.

(** ** Running the monad *)

Ltac unfold_m :=
  unfold mbind, M_bind, mret, M_ret, Date_now, io_emit, Number_toString36 in *.

(** Name the result of every host computation the goal is waiting for. *)
Ltac step_m :=
  match goal with
  | |- context [let (_, _) := ?c in _] =>
      let E := fresh "E" in destruct c as [? ?] eqn:E
  | H : context [let (_, _) := ?c in _] |- _ =>
      let E := fresh "E" in destruct c as [? ?] eqn:E
  end.

Lemma finishGame_run room winner h :
  finishGame room winner h
  = (set_lastEvent
       match winner with
       | Some w => pl_name w +:+ " wins the match."
       | None => "Match ended."
       end
       (set_updatedAt (dates h 0%nat)
          (set_timerEndsAt None
             (set_currentChunk None
                (set_activePlayerId None
                   (set_winnerId (pl_id <$> winner) (set_phase results room)))))),
     mkHost (fun n => dates h (S n)) (randoms h) (toString36 h) (outbox h)).
Proof. reflexivity. Qed.

Lemma advanceTurn_advanced room fromId h room' h' :
  advanceTurn room fromId h = (room', h') -> advanced room room' fromId.
Proof.
  unfold advanceTurn. case_bool_decide as Hlen.
  - rewrite finishGame_run. intros [= <- <-].
    split; try reflexivity. left. repeat split; auto.
  - destruct (getNextEligiblePlayer room fromId) as [next|] eqn:Hnext.
    + unfold mbind, M_bind.
      destruct (chooseChunk_fresh (currentChunk room) h) as (chunk & Hc & Hne & _).
      cbn [previousChunk currentChunk set_previousChunk set_activePlayerId].
      destruct (chooseChunk (currentChunk room) h) as [c h1]. cbn [fst] in Hc. subst c.
      unfold_m. intros [= <- <-].
      split; try reflexivity. right.
      split; [lia|]. do 3 (split; [reflexivity|]).
      eexists next, chunk, _. repeat split; auto.
    + apply getNextEligiblePlayer_None in Hnext. rewrite Hnext in Hlen.
      simpl in Hlen. lia.
Qed.

(** ** The registry *)

Lemma Registry_get_set c k v m :
  Registry.get c (Registry.set k v m) = if decide (k = c) then Some v else Registry.get c m.
Proof.
  induction m as [|[k' v'] m IH]; simpl.
  - repeat case_decide; congruence.
  - destruct (decide (k' = k)) as [->|Hne]; simpl.
    + repeat case_decide; congruence.
    + rewrite IH. repeat case_decide; congruence.
Qed.

Lemma Registry_get_delete c k m :
  Registry.get c (Registry.delete k m) = if decide (k = c) then None else Registry.get c m.
Proof.
  induction m as [|[k' v'] m IH]; simpl.
  - by case_decide.
  - destruct (decide (k' = k)) as [->|Hne]; simpl.
    + rewrite IH. repeat case_decide; congruence.
    + rewrite IH. repeat case_decide; congruence.
Qed.

Lemma Registry_get_keys c m r : Registry.get c m = Some r -> c ∈ Registry.keys m.
Proof.
  induction m as [|[k v] m IH]; simpl; [discriminate|].
  case_decide as Hk.
  - intros _. subst. left.
  - intros H. right. by apply IH.
Qed.

(** ** Invariants of a room *)

Lemma room_trans_refl reset r : room_trans reset r r.
Proof. split; [auto|]. split; [auto|]. intros _. reflexivity. Qed.

Lemma rooms_trans_refl reset m : rooms_trans reset m m.
Proof.
  split; [auto|]. intros c r' H. left. exists r'. split; [done|apply room_trans_refl].
Qed.

Lemma Registry_get_None c m : Registry.get c m = None <-> c ∉ Registry.keys m.
Proof.
  induction m as [|[k v] m IH]; simpl.
  - split; [intros _; apply not_elem_of_nil|done].
  - rewrite not_elem_of_cons. case_decide as Hk.
    + split; [discriminate|]. intros [Hne _]. congruence.
    + rewrite IH. split; [intros H; split; [congruence|done]|tauto].
Qed.

Lemma Registry_keys_set k v m :
  Registry.keys (Registry.set k v m)
  = if decide (k ∈ Registry.keys m) then Registry.keys m else Registry.keys m ++ [k].
Proof.
  unfold Registry.keys. induction m as [|[k' v'] m IH].
  - cbn [Registry.set map fst].
    destruct (decide (k ∈ [])) as [Hin|_]; [by apply not_elem_of_nil in Hin|].
    reflexivity.
  - cbn [Registry.set map fst]. destruct (decide (k' = k)) as [->|Hne].
    + cbn [map fst].
      destruct (decide (k ∈ k :: map fst m)) as [_|Hout]; [reflexivity|].
      destruct Hout. left.
    + cbn [map fst]. rewrite IH. clear IH.
      destruct (decide (k ∈ map fst m)) as [Hin|Hout];
        destruct (decide (k ∈ k' :: map fst m)) as [Hin2|Hout2]; try reflexivity.
      * destruct Hout2. by right.
      * apply elem_of_cons in Hin2 as [->|Hin2]; [congruence|contradiction].
Qed.

Lemma Registry_set_NoDup k v m :
  NoDup (Registry.keys m) -> NoDup (Registry.keys (Registry.set k v m)).
Proof.
  intros Hnd. rewrite Registry_keys_set. case_decide as Hin; [done|].
  apply NoDup_app. split; [done|]. split; [|apply NoDup_singleton].
  intros x Hx Hk. apply list_elem_of_singleton in Hk. congruence.
Qed.

Lemma Registry_delete_sublist k m :
  Registry.keys (Registry.delete k m) `sublist_of` Registry.keys m.
Proof.
  induction m as [|[k' v'] m IH]; simpl; [done|].
  case_decide; simpl; [by apply sublist_cons|by apply sublist_skip].
Qed.

Lemma Registry_get_elem c r m :
  NoDup (Registry.keys m) -> (c, r) ∈ m -> Registry.get c m = Some r.
Proof.
  induction m as [|[k v] m IH]; simpl.
  - intros _ H. by apply not_elem_of_nil in H.
  - rewrite NoDup_cons. intros [Hk Hnd] Hin.
    apply elem_of_cons in Hin as [[= -> ->]|Hin].
    + by rewrite decide_True.
    + rewrite decide_False; [by apply IH|].
      intros ->. apply Hk. apply list_elem_of_fmap. by exists (c, r).
Qed.

Lemma rooms_trans_set reset m k r r' :
  Registry.get k m = Some r -> room_trans reset r r' ->
  rooms_trans reset m (Registry.set k r' m).
Proof.
  intros Hget Ht. split; [apply Registry_set_NoDup|].
  intros c r2. rewrite Registry_get_set. case_decide as Hk.
  - intros [= <-]. subst. left. eauto.
  - intros H. left. exists r2. split; [done|apply room_trans_refl].
Qed.

Lemma rooms_trans_new reset m k r' :
  Registry.get k m = None -> room_ok r' -> phase r' = lobby ->
  rooms_trans reset m (Registry.set k r' m).
Proof.
  intros Hget Hok Hph. split; [apply Registry_set_NoDup|].
  intros c r2. rewrite Registry_get_set. case_decide as Hk.
  - intros [= <-]. subst. right. auto.
  - intros H. left. exists r2. split; [done|apply room_trans_refl].
Qed.

(** ** The turn engine keeps the invariants *)

Lemma advanced_room_ok room room' fromId :
  advanced room room' fromId -> players_ok room -> room_ok room'.
Proof.
  intros [Hp Hc _ _ _ _ _ Hout] Hok. split.
  - unfold players_ok in *. by rewrite Hp, Hc.
  - intros Hphase.
    destruct Hout as [(_ & Hres & _)|(Hlen & _ & _ & _ & next & ? & ? & Hnext & Hact & _)].
    + congruence.
    + unfold getEligiblePlayers. rewrite Hp. split; [exact Hlen|].
      apply getNextEligiblePlayer_Some in Hnext as [Hin He].
      by exists next.
Qed.

Lemma advanced_in_game room room' fromId :
  advanced room room' fromId ->
  phase room = in_game ->
  phase room' = in_game
  \/ (phase room' = results /\ winnerId room' = pl_id <$> head (getEligiblePlayers room')).
Proof.
  intros [Hp _ _ _ _ _ _ Hout] Hphase.
  destruct Hout as [(_ & Hres & Hw & _)|(_ & Hph & _)].
  - right. split; [done|]. unfold getEligiblePlayers in *. by rewrite Hp.
  - left. congruence.
Qed.

Lemma advanced_trans reset room room' fromId :
  advanced room room' fromId -> players_ok room -> room_trans reset room room'.
Proof.
  intros Hadv Hok. split; [|split].
  - intros _. eapply advanced_room_ok; eauto.
  - by eapply advanced_in_game.
  - intros _. by rewrite (adv_usedWords _ _ _ Hadv).
Qed.

Lemma same_game_room_ok r r' : same_game r r' -> room_ok r -> room_ok r'.
Proof.
  intros (Hp & Hc & Hph & Ha & _ & _).
  unfold room_ok, players_ok, turn_ok, getEligiblePlayers.
  by rewrite Hp, Hc, Hph, Ha.
Qed.

Lemma room_trans_same reset r r1 r2 :
  room_trans reset r r1 -> same_game r1 r2 -> room_trans reset r r2.
Proof.
  intros (H1 & H2 & H3) Hs. pose proof Hs as (Hp & Hc & Hph & Ha & Hw & Hu).
  split; [|split].
  - intros Hok. eapply same_game_room_ok; eauto.
  - intros Hin. unfold getEligiblePlayers in *. rewrite Hp, Hph, Hw. auto.
  - intros Hr. rewrite Hu. auto.
Qed.

Ltac same_game := repeat split; reflexivity.

Lemma exploded_id active : pl_id (exploded active) = pl_id active.
Proof. unfold exploded. cbv zeta. by case_bool_decide. Qed.

Lemma handleTimerExpiry_run room h room' h' :
  handleTimerExpiry room h = (room', h') ->
  (room' = room
   /\ (phase room ≠ in_game \/ activePlayerId room = None
       \/ activePlayerId room = Some ""))
  \/ exists a,
      phase room = in_game /\ activePlayerId room = Some a /\ a ≠ ""
      /\ (expiry_passes room room' a \/ expiry_explodes room room' a).
Proof.
  unfold handleTimerExpiry.
  case_bool_decide as Hph; [intros [= <- <-]; left; auto|].
  destruct (activePlayerId room) as [a|] eqn:Ha; [|intros [= <- <-]; left; auto].
  case_bool_decide as Hempty; [intros [= <- <-]; left; subst; auto|].
  assert (Hphase : phase room = in_game) by (destruct (phase room); congruence).
  intros Hrun. right. exists a. do 3 (split; [done|]).
  assert (Hpass :
    forall room1 h1,
      (room1 ← advanceTurn room (Some a);
       let room2 := set_lastEvent UNAVAILABLE_EVENT room1 in
       now ← Date_now; mret (set_updatedAt now room2)) h = (room1, h1) ->
      exists adv t, advanced room adv (Some a)
        /\ room1 = set_updatedAt t (set_lastEvent UNAVAILABLE_EVENT adv)).
  { intros room1 h1. unfold mbind, M_bind.
    destruct (advanceTurn room (Some a) h) as [adv h2] eqn:Eadv.
    unfold_m. intros [= <- <-]. eexists adv, _. split; [|reflexivity].
    by eapply advanceTurn_advanced. }
  destruct (findPlayer room a) as [[i active]|] eqn:Hf.
  - destruct (findPlayer_Some _ _ _ _ Hf) as (_ & Hid & _).
    destruct (negb (connected active) || eliminated active) eqn:Hel.
    + left. split; [|by eapply Hpass].
      rewrite Hf. unfold isEligible.
      destruct (connected active), (eliminated active); done.
    + right. exists i, active.
      revert Hrun. unfold mbind, M_bind.
      match goal with
      | |- context [advanceTurn ?r ?f h] =>
          destruct (advanceTurn r f h) as [adv h2] eqn:Eadv
      end.
      unfold_m. intros [= <- <-]. eexists adv, _.
      split; [done|]. split.
      { unfold isEligible. destruct (connected active), (eliminated active); done. }
      split; [|reflexivity].
      apply advanceTurn_advanced in Eadv.
      rewrite <- Hid, <- (exploded_id active). exact Eadv.
  - left. split; [by rewrite Hf|by eapply Hpass].
Qed.

Lemma room_trans_advanced reset room mid adv room' fromId :
  (players_ok room -> players_ok mid) ->
  phase mid = phase room ->
  usedWords room ⊆ usedWords mid ->
  advanced mid adv fromId ->
  same_game adv room' ->
  room_trans reset room room'.
Proof.
  intros Hok Hph Hused Hadv Hsame.
  eapply room_trans_same; [|exact Hsame].
  split; [|split].
  - intros [Hpl _]. eapply advanced_room_ok; eauto.
  - intros Hin. eapply advanced_in_game; eauto. congruence.
  - intros _. by rewrite (adv_usedWords _ _ _ Hadv).
Qed.

Lemma finishGame_trans reset room mid h :
  (players_ok room -> players_ok mid) ->
  usedWords room ⊆ usedWords mid ->
  room_trans reset room (fst (finishGame mid (head (getEligiblePlayers mid)) h)).
Proof.
  intros Hok Hused. rewrite finishGame_run. cbn [fst].
  split; [|split].
  - intros [Hpl _]. split; [exact (Hok Hpl)|]. intros Hph. discriminate Hph.
  - intros _. right. split; reflexivity.
  - intros _. exact Hused.
Qed.

Lemma exploded_ok active :
  pl_id active ≠ "" ->
  pl_id (exploded active) ≠ ""
  /\ (eliminated (exploded active) = false -> 1 <= lives (exploded active)).
Proof.
  intros Hid. split; [by rewrite exploded_id|].
  unfold exploded. cbv zeta. case_bool_decide as Hz; simpl in *; [discriminate|lia].
Qed.

Lemma players_ok_insert room i p p' :
  players room !! i = Some p ->
  (pl_id p ≠ "" -> pl_id p' ≠ "" /\ (eliminated p' = false -> 1 <= lives p')) ->
  players_ok room ->
  players_ok (set_players (<[i:=p']> (players room)) room).
Proof.
  intros Hi Hp' [Hall Hcfg]. split; [|exact Hcfg]. cbn [players set_players].
  apply Forall_insert; [exact Hall|]. apply Hp'.
  rewrite Forall_lookup in Hall. by destruct (Hall _ _ Hi).
Qed.

Lemma handleTimerExpiry_trans reset room h room' h' :
  handleTimerExpiry room h = (room', h') -> room_trans reset room room'.
Proof.
  intros Hrun.
  apply handleTimerExpiry_run in Hrun as [[-> _]|(a & Hph & Ha & Hne & Hcase)].
  { apply room_trans_refl. }
  destruct Hcase as [(_ & adv & t & Hadv & ->)|(i & active & adv & t & Hf & _ & Hadv & ->)].
  - eapply (room_trans_advanced _ room room adv);
      [auto|reflexivity|reflexivity|exact Hadv|same_game].
  - destruct (findPlayer_Some _ _ _ _ Hf) as (Hi & _ & _).
    eapply room_trans_advanced; [| | |exact Hadv|same_game].
    + intros Hok.
      apply (players_ok_insert room i active (exploded active) Hi) in Hok;
        [exact Hok|apply exploded_ok].
    + reflexivity.
    + reflexivity.
Qed.

(** [broadcastRoom] and [serializeRoom] only read the room. *)
Lemma tickRoom_run room h room' h' :
  tickRoom room h = (room', h') ->
  room' = room \/ exists h1 h2, handleTimerExpiry room h1 = (room', h2).
Proof.
  unfold tickRoom.
  case_bool_decide; [intros [= <- <-]; by left|].
  destruct (activePlayerId room) as [a|]; [|intros [= <- <-]; by left].
  destruct (timerEndsAt room) as [ends|]; [|intros [= <- <-]; by left].
  case_bool_decide; [intros [= <- <-]; by left|].
  unfold mbind, M_bind, Date_now.
  destruct (ends <=? dates h 0).
  - match goal with
    | |- context [handleTimerExpiry room ?h1] =>
        destruct (handleTimerExpiry room h1) as [r1 h2] eqn:E
    end.
    destruct (broadcastRoom r1 h2) as [[] h3].
    intros [= <- <-]. right. eauto.
  - unfold mret, M_ret.
    match goal with
    | |- context [broadcastRoom room ?h1] => destruct (broadcastRoom room h1) as [[] h3]
    end.
    intros [= <- <-]. by left.
Qed.

Lemma tickRoom_trans reset room h room' h' :
  tickRoom room h = (room', h') -> room_trans reset room room'.
Proof.
  intros H. apply tickRoom_run in H as [->|(h1 & h2 & H)].
  - apply room_trans_refl.
  - by eapply handleTimerExpiry_trans.
Qed.

Lemma tickRooms_keys m h m' h' :
  tickRooms m h = (m', h') -> Registry.keys m' = Registry.keys m.
Proof.
  revert h m' h'. induction m as [|[k room] m IH]; intros h m' h'; simpl.
  - by intros [= <- <-].
  - unfold mbind, M_bind, mret, M_ret.
    destruct (tickRoom room h) as [room1 h1].
    destruct (tickRooms m h1) as [m1 h2] eqn:E2.
    intros [= <- <-]. simpl. f_equal. by eapply IH.
Qed.

Lemma tickRooms_trans reset m h m' h' :
  tickRooms m h = (m', h') -> rooms_trans reset m m'.
Proof.
  revert h m' h'. induction m as [|[k room] m IH]; intros h m' h'; simpl.
  - intros [= <- <-]. apply rooms_trans_refl.
  - unfold mbind, M_bind, mret, M_ret.
    destruct (tickRoom room h) as [room1 h1] eqn:E1.
    destruct (tickRooms m h1) as [m1 h2] eqn:E2.
    intros [= <- <-]. destruct (IH _ _ _ E2) as [_ IHget].
    split.
    + simpl. by rewrite (tickRooms_keys _ _ _ _ E2).
    + intros c r'. simpl. case_decide as Hk.
      * intros [= <-]. left. exists room. split; [done|]. by eapply tickRoom_trans.
      * apply IHget.
Qed.

(** ** Every public method is a [rooms_trans] *)

Arguments broadcastRoom : simpl never.
Arguments serializeRoom : simpl never.
Arguments createPlayerId : simpl never.
Arguments chooseChunk : simpl never.
Arguments advanceTurn : simpl never.
Arguments finishGame : simpl never.
Arguments sanitizeRoomCode : simpl never.
Arguments sanitizePlayerName : simpl never.
Arguments sanitizeWord : simpl never.
Arguments getNextEligiblePlayer : simpl never.
Arguments ensureHostIsConnected : simpl never.

Ltac run_m := unfold_m; repeat step_m; cbn [fst snd rooms set_rooms bindSocketSession
  set_socketSessions set_lastSubmitAtBySocket].

Lemma room_trans_lobby reset r r' :
  phase r' = lobby ->
  (players_ok r -> players_ok r') ->
  (phase r = in_game -> False) ->
  (reset = false -> usedWords r ⊆ usedWords r') ->
  room_trans reset r r'.
Proof.
  intros Hph Hok Hnot Hused. split; [|split].
  - intros [Hpl _]. split; [auto|]. intros Hin. congruence.
  - intros Hin. destruct (Hnot Hin).
  - exact Hused.
Qed.

Lemma clampInt_bounds v lo hi : lo <= hi -> lo <= clampInt v lo hi <= hi.
Proof. intros H. unfold clampInt. destruct v; lia. Qed.

Lemma service_step_refl reset s : service_step reset s s.
Proof. split; [apply rooms_trans_refl|done]. Qed.

Lemma service_step_rooms reset s s' :
  dictionary s' = dictionary s ->
  lastSubmitAtBySocket s' = lastSubmitAtBySocket s ->
  rooms_trans reset (rooms s) (rooms s') ->
  service_step reset s s'.
Proof. by split. Qed.

Lemma updateSettings_trans socket payload s h :
  service_step false s (snd (fst (updateSettings socket payload s h))).
Proof.
  unfold updateSettings.
  destruct (Registry.get _ (rooms s)) as [room|] eqn:Hget; [|apply service_step_refl].
  destruct (negb _); [apply service_step_refl|].
  case_bool_decide as Hph; [apply service_step_refl|].
  case_bool_decide as Hhost; [apply service_step_refl|].
  assert (Hlobby : phase room = lobby) by (destruct (phase room); congruence).
  run_m. apply service_step_rooms; [reflexivity|reflexivity|].
  cbn [rooms set_rooms set_socketSessions].
  eapply rooms_trans_set; [exact Hget|].
  apply room_trans_lobby.
  - destruct (us_turnSeconds payload), (us_startingLives payload),
      (us_dictionaryEnabled payload); exact Hlobby.
  - intros [Hall Hcfg]. split.
    + destruct (us_turnSeconds payload), (us_startingLives payload),
        (us_dictionaryEnabled payload); exact Hall.
    + pose proof (clampInt_bounds) as Hb.
      destruct (us_turnSeconds payload), (us_startingLives payload) as [v|],
        (us_dictionaryEnabled payload); simpl; try exact Hcfg;
        apply (Hb v MIN_STARTING_LIVES MAX_STARTING_LIVES); done.
  - congruence.
  - intros _. destruct (us_turnSeconds payload), (us_startingLives payload),
      (us_dictionaryEnabled payload); reflexivity.
Qed.

Lemma eligible_insert_count (ps : list PlayerState) i p p' :
  ps !! i = Some p ->
  (isEligible p = true -> isEligible p' = true) ->
  (length (filter (fun q => isEligible q) ps)
   <= length (filter (fun q => isEligible q) (<[i:=p']> ps)))%nat.
Proof.
  intros Hi Himp.
  rewrite insert_take_drop by (eapply lookup_lt_Some; eauto).
  rewrite <- (take_drop_middle ps i p Hi) at 1.
  rewrite !filter_app, !length_app, !filter_cons.
  destruct (decide (isEligible p)) as [Hp|Hp].
  - apply Is_true_true, Himp, Is_true_true in Hp.
    rewrite decide_True by exact Hp. simpl. lia.
  - case_decide; simpl; lia.
Qed.

Lemma elem_of_insert_other (ps : list PlayerState) i p q x :
  ps !! i = Some q -> p ∈ ps -> p ≠ q -> p ∈ <[i:=x]> ps.
Proof.
  intros Hi Hin Hne. apply list_elem_of_lookup in Hin as [j Hj].
  apply list_elem_of_lookup. exists j.
  rewrite list_lookup_insert_ne; [exact Hj|]. intros ->. congruence.
Qed.

Lemma elem_of_insert_self (ps : list PlayerState) i q x :
  ps !! i = Some q -> x ∈ <[i:=x]> ps.
Proof.
  intros Hi. apply list_elem_of_lookup. exists i.
  apply list_lookup_insert_eq. eapply lookup_lt_Some; eauto.
Qed.

Lemma ensureHostIsConnected_same room : same_game room (ensureHostIsConnected room).
Proof.
  unfold ensureHostIsConnected.
  destruct (getPlayer room (hostId room)) as [host|];
    [destruct (connected host); [same_game|]|];
    destruct (list_find _ _) as [[? ?]|]; same_game.
Qed.

(** A roster update that keeps identifiers, lives and elimination flags and
    does not make an eligible player ineligible keeps the invariants. *)
Lemma room_ok_insert room i p p' :
  players room !! i = Some p ->
  pl_id p' = pl_id p -> lives p' = lives p -> eliminated p' = eliminated p ->
  (connected p = true -> connected p' = true) ->
  room_ok room -> room_ok (set_players (<[i:=p']> (players room)) room).
Proof.
  intros Hi Hid Hl He Hc [Hpl Hturn].
  assert (Helig : isEligible p = true -> isEligible p' = true).
  { unfold isEligible. rewrite He. destruct (connected p); [|done].
    intros H. by rewrite Hc. }
  split.
  - apply (players_ok_insert room i p p' Hi); [|exact Hpl].
    rewrite Hid, Hl, He. intros Hne.
    destruct Hpl as [Hall _]. rewrite Forall_lookup in Hall.
    by destruct (Hall _ _ Hi).
  - intros Hph. destruct (Hturn Hph) as (Hlen & q & Hq & Hact & Hqe).
    split.
    + unfold getEligiblePlayers in *. cbn [players set_players].
      pose proof (eligible_insert_count _ _ _ _ Hi Helig). lia.
    + cbn [players set_players activePlayerId].
      destruct (decide (q = p)) as [->|Hne].
      * exists p'. split; [by eapply elem_of_insert_self|].
        split; [by rewrite Hid|auto].
      * exists q. split; [by eapply elem_of_insert_other|]. auto.
Qed.

Lemma reconnectPlayer_trans socket roomCode playerId name s h :
  service_step false s (snd (fst (reconnectPlayer socket roomCode playerId name s h))).
Proof.
  unfold reconnectPlayer.
  destruct (Registry.get _ (rooms s)) as [room|] eqn:Hget; [|apply service_step_refl].
  destruct (findPlayer room playerId) as [[i player]|] eqn:Hf; [|apply service_step_refl].
  destruct (findPlayer_Some _ _ _ _ Hf) as (Hi & _ & _).
  match goal with
  | |- context [set_connected true (set_socketId (Some socket) ?p)] =>
      set (renamed := p)
  end.
  set (back := set_connected true (set_socketId (Some socket) renamed)).
  set (marked := set_emptySince None (set_players (<[i:=back]> (players room)) room)).
  set (hosted := ensureHostIsConnected marked).
  assert (Hren : pl_id renamed = pl_id player /\ lives renamed = lives player
                 /\ eliminated renamed = eliminated player).
  { unfold renamed. destruct (_ && _); [destruct (existsb _ _)|]; done. }
  destruct Hren as (Hid & Hlives & Helim).
  assert (Hsame : same_game (set_players (<[i:=back]> (players room)) room) hosted).
  { pose proof (ensureHostIsConnected_same marked) as (? & ? & ? & ? & ? & ?).
    repeat split; assumption. }
  assert (Hok : room_ok room -> room_ok hosted).
  { intros Hok. eapply same_game_room_ok; [exact Hsame|].
    apply (room_ok_insert room i player back Hi); auto. }
  assert (Hphase : phase hosted = phase room) by apply Hsame.
  assert (Hused : usedWords hosted = usedWords room) by apply Hsame.
  assert (Hactive : activePlayerId hosted = activePlayerId room) by apply Hsame.
  unfold mbind at 1. unfold M_bind at 1.
  match goal with
  | |- context [let (_, _) := ?c h in _] =>
      assert (Hrestart : forall r1 h1, c h = (r1, h1) ->
                (r1 = hosted
                 \/ (activePlayerId room = None /\ phase room = in_game
                     /\ phase r1 = phase room /\ usedWords r1 = usedWords room)));
        [|destruct (c h) as [r1 h1] eqn:E1]
  end.
  { intros r1 h1.
    destruct (bool_decide (phase hosted = in_game)
              && bool_decide (activePlayerId hosted = None)) eqn:Hcond.
    - apply andb_prop in Hcond as [Hin Hnone].
      apply bool_decide_eq_true in Hnone. apply bool_decide_eq_true in Hin.
      destruct (getNextEligiblePlayer hosted None) as [next|].
      + run_m. intros [= <- <-]. right. split; [congruence|].
        split; [congruence|]. split; assumption.
      + intros [= <- <-]. by left.
    - intros [= <- <-]. by left. }
  run_m. apply service_step_rooms; [reflexivity|reflexivity|].
  cbn [rooms set_rooms set_socketSessions].
  eapply rooms_trans_set; [exact Hget|].
  destruct (Hrestart _ _ eq_refl) as [->|(Hnone & Hin & Hph1 & Hu1)].
  - eapply (room_trans_same _ _ hosted); [|same_game].
    split; [exact Hok|]. split.
    + intros Hin. left. congruence.
    + intros _. by rewrite Hused.
  - split; [|split].
    + intros [_ Hturn]. exfalso.
      destruct (Hturn Hin) as (_ & q & _ & Hq & _). congruence.
    + intros _. left. cbn [phase set_updatedAt]. congruence.
    + intros _. cbn [usedWords set_updatedAt]. by rewrite Hu1.
Qed.

Lemma createRoomCode_attempts_fresh attempts existing h c h' :
  createRoomCode_attempts attempts existing h = (Some c, h') -> c ∉ existing.
Proof.
  revert h. induction attempts as [|n IH]; intros h;
    cbn [createRoomCode_attempts].
  - intros [=].
  - unfold mbind, M_bind. destruct (randomCode 6 "" h) as [next h1].
    case_bool_decide as Hin.
    + apply IH.
    + intros [= <- <-]. exact Hin.
Qed.

Lemma createRoomCode_fresh existing h c h' :
  createRoomCode existing h = (Some c, h') -> c ∉ existing.
Proof. apply createRoomCode_attempts_fresh. Qed.

Lemma createPlayerId_nonempty h : fst (createPlayerId h) ≠ "".
Proof. unfold createPlayerId, Math_random. unfold_m. cbn [fst]. discriminate. Qed.

Lemma createRoom_trans socket name s h :
  service_step false s (snd (fst (createRoom socket name s h))).
Proof.
  unfold createRoom. case_bool_decide; [apply service_step_refl|].
  unfold mbind at 1. unfold M_bind at 1.
  destruct (createRoomCode _ h) as [[c|] h1] eqn:Ecode; [|apply service_step_refl].
  apply createRoomCode_fresh in Ecode.
  unfold mbind at 1. unfold M_bind at 1.
  pose proof (createPlayerId_nonempty h1) as Hid.
  destruct (createPlayerId h1) as [playerId h2]. cbn [fst] in Hid.
  run_m. apply service_step_rooms; [reflexivity|reflexivity|].
  cbn [rooms set_rooms set_socketSessions]. apply rooms_trans_new.
  - destruct (Registry.get c (rooms s)) eqn:Hget; [|done].
    apply Registry_get_keys in Hget. exfalso. apply Ecode. set_solver.
  - split.
    + split; [|done]. cbn [players]. apply Forall_singleton. simpl.
      split; [done|]. intros _. unfold DEFAULT_STARTING_LIVES. lia.
    + intros [=].
  - reflexivity.
Qed.

Lemma joinRoom_trans socket roomCode name s h :
  service_step false s (snd (fst (joinRoom socket roomCode name s h))).
Proof.
  unfold joinRoom.
  case_bool_decide; [apply service_step_refl|].
  case_bool_decide; [apply service_step_refl|].
  destruct (Registry.get _ (rooms s)) as [room|] eqn:Hget; [|apply service_step_refl].
  case_bool_decide as Hph; [apply service_step_refl|].
  case_bool_decide; [apply service_step_refl|].
  destruct (existsb _ _); [apply service_step_refl|].
  assert (Hlobby : phase room = lobby) by (destruct (phase room); congruence).
  unfold mbind at 1. unfold M_bind at 1.
  pose proof (createPlayerId_nonempty h) as Hid.
  destruct (createPlayerId h) as [playerId h2]. cbn [fst] in Hid.
  run_m. apply service_step_rooms; [reflexivity|reflexivity|].
  cbn [rooms set_rooms set_socketSessions].
  eapply rooms_trans_set; [exact Hget|].
  apply room_trans_lobby.
  - exact Hlobby.
  - intros [Hall Hcfg]. split; [|exact Hcfg]. cbn [players set_players set_emptySince
      set_updatedAt set_lastEvent].
    apply Forall_app. split; [exact Hall|]. apply Forall_singleton. simpl.
    split; [done|]. intros _. exact Hcfg.
  - congruence.
  - reflexivity.
Qed.

Lemma resetPlayer_eligible room p : isEligible (resetPlayer room p) = connected p.
Proof. unfold isEligible. simpl. by destruct (connected p). Qed.

Lemma eligible_reset_count room (ps : list PlayerState) :
  length (filter (fun p => isEligible p) (map (resetPlayer room) ps))
  = length (filter (fun p => connected p = true) ps).
Proof.
  induction ps as [|p ps IH]; [reflexivity|].
  simpl map. rewrite !filter_cons.
  pose proof (resetPlayer_eligible room p) as He.
  destruct (connected p) eqn:Hc.
  - rewrite decide_True by (by apply Is_true_true).
    rewrite decide_True by done. simpl. by rewrite IH.
  - rewrite decide_False by (rewrite He; auto).
    rewrite decide_False by done. exact IH.
Qed.

Lemma players_ok_reset room room0 room' :
  config room0 = config room ->
  config room' = config room ->
  players room' = map (resetPlayer room0) (players room) ->
  players_ok room -> players_ok room'.
Proof.
  intros Hcfg0 Hcfg Hps [Hall Hlives]. unfold players_ok. rewrite Hps, Hcfg.
  split; [|exact Hlives].
  apply Forall_fmap. eapply Forall_impl; [exact Hall|].
  intros p [Hid _]. simpl. split; [exact Hid|]. intros _. by rewrite Hcfg0.
Qed.

Lemma startGame_trans socket payload s h :
  service_step true s (snd (fst (startGame socket payload s h))).
Proof.
  unfold startGame.
  destruct (Registry.get _ (rooms s)) as [room|] eqn:Hget; [|apply service_step_refl].
  destruct (negb _); [apply service_step_refl|].
  case_bool_decide; [apply service_step_refl|].
  case_bool_decide as Hph; [apply service_step_refl|].
  case_bool_decide as Hcount; [apply service_step_refl|].
  assert (Hlobby : phase room = lobby) by (destruct (phase room); congruence).
  match goal with
  | |- context [getNextEligiblePlayer ?r None] => set (fresh := r)
  end.
  assert (Hpl : players_ok room -> players_ok fresh).
  { apply (players_ok_reset room
             (set_previousChunk None
                (set_winnerId None
                   (set_usedWordsOrdered []
                      (set_usedWords ∅ (set_phase in_game room))))));
      reflexivity. }
  destruct (getNextEligiblePlayer fresh None) as [firstActive|] eqn:Hnext.
  - unfold mbind at 1. unfold M_bind at 1.
    destruct (chooseChunk None h) as [chunk h1].
    run_m. apply service_step_rooms; [reflexivity|reflexivity|].
  cbn [rooms set_rooms set_socketSessions].
  eapply rooms_trans_set; [exact Hget|].
    split; [|split]; [|congruence|discriminate].
    intros [Hok _]. split; [exact (Hpl Hok)|]. intros _.
    apply getNextEligiblePlayer_Some in Hnext as [Hin He].
    split; [|by exists firstActive].
    unfold getEligiblePlayers. cbn [players set_players fresh set_phase set_usedWords
      set_usedWordsOrdered set_winnerId set_previousChunk set_activePlayerId
      set_currentChunk set_timerEndsAt set_lastEvent set_updatedAt].
    rewrite eligible_reset_count. unfold connectedCount, MIN_PLAYERS_TO_START in Hcount.
    lia.
  - cbn [fst snd]. apply service_step_rooms; [reflexivity|reflexivity|].
    cbn [rooms set_rooms]. eapply rooms_trans_set; [exact Hget|].
    apply room_trans_lobby; [reflexivity|exact Hpl|congruence|discriminate].
Qed.

Lemma playAgain_trans socket payload s h :
  service_step true s (snd (fst (playAgain socket payload s h))).
Proof.
  unfold playAgain.
  destruct (Registry.get _ (rooms s)) as [room|] eqn:Hget; [|apply service_step_refl].
  destruct (negb _); [apply service_step_refl|].
  case_bool_decide; [apply service_step_refl|].
  case_bool_decide as Hph; [apply service_step_refl|].
  assert (Hres : phase room = results) by (destruct (phase room); congruence).
  run_m. apply service_step_rooms; [reflexivity|reflexivity|].
  cbn [rooms set_rooms set_socketSessions].
  eapply rooms_trans_set; [exact Hget|].
  apply room_trans_lobby; [reflexivity| |congruence|discriminate].
  eapply players_ok_reset; [| |reflexivity]; reflexivity.
Qed.

Lemma submitWord_trans socket payload s h :
  rooms_trans false (rooms s) (rooms (snd (fst (submitWord socket payload s h)))).
Proof.
  unfold submitWord. unfold mbind at 1. unfold M_bind at 1.
  destruct (Date_now h) as [now h0].
  destruct (now - _ <? SUBMIT_RATE_LIMIT_MS); [apply rooms_trans_refl|].
  cbn [rooms set_lastSubmitAtBySocket dictionary].
  destruct (Registry.get _ (rooms s)) as [room|] eqn:Hget; [|apply rooms_trans_refl].
  destruct (negb _); [apply rooms_trans_refl|].
  case_bool_decide as Hph; [apply rooms_trans_refl|].
  destruct (findPlayer room _) as [[i player]|] eqn:Hf; [|apply rooms_trans_refl].
  destruct (findPlayer_Some _ _ _ _ Hf) as (Hi & _ & _).
  destruct (negb (connected player) || eliminated player); [apply rooms_trans_refl|].
  case_bool_decide; [apply rooms_trans_refl|].
  destruct (negb (Js.test_lower_plus _)); [apply rooms_trans_refl|].
  case_bool_decide; [apply rooms_trans_refl|].
  match goal with
  | |- context [if ?b then mret (failure (missingChunkError room), _) else _] =>
      destruct b; [apply rooms_trans_refl|]
  end.
  case_bool_decide; [apply rooms_trans_refl|].
  destruct (_ && _); [apply rooms_trans_refl|].
  unfold mbind at 1. unfold M_bind at 1.
  match goal with
  | |- context [advanceTurn ?r ?f h0] =>
      destruct (advanceTurn r f h0) as [adv h1] eqn:Eadv
  end.
  apply advanceTurn_advanced in Eadv.
  run_m. eapply rooms_trans_set; [exact Hget|].
  eapply room_trans_advanced; [| | |exact Eadv|same_game].
  - intros Hok.
    apply (players_ok_insert room i player (set_score (score player + 1) player) Hi)
      in Hok; [exact Hok|]. intros Hid. simpl.
    destruct Hok as [Hall _]. rewrite Forall_lookup in Hall.
    destruct (Hall _ _ Hi) as [_ Hl]. auto.
  - reflexivity.
  - cbn [usedWords set_usedWords set_usedWordsOrdered set_players set_lastEvent].
    set_solver.
Qed.

(** *** Losing a connection *)

Lemma handleDisconnect_run socket s h s' h' :
  handleDisconnect socket s h = (s', h') ->
  dictionary s' = dictionary s
  /\ socketSessions s' = delete socket (socketSessions s)
  /\ lastSubmitAtBySocket s' = delete socket (lastSubmitAtBySocket s)
  /\ ((rooms s' = rooms s /\ h' = h
       /\ forall session room i player, ~ live_session s socket session room i player)
      \/ exists session room i player mid emptied updated,
          live_session s socket session room i player
          /\ settled (afterLeaving room i player) mid player
          /\ rooms s'
             = Registry.set (sess_roomCode session)
                 (set_updatedAt updated (set_emptySince emptied mid)) (rooms s)).
Proof.
  unfold handleDisconnect, live_session.
  cbn [rooms set_socketSessions set_lastSubmitAtBySocket].
  destruct (socketSessions s !! socket) as [session|] eqn:Hs;
    [|intros [= <- <-]; repeat (split; [reflexivity|]); left;
      repeat (split; [reflexivity|]); intros ???? (? & _); congruence].
  destruct (Registry.get _ (rooms s)) as [room|] eqn:Hget;
    [|intros [= <- <-]; repeat (split; [reflexivity|]); left;
      repeat (split; [reflexivity|]); intros ???? (? & ? & _); congruence].
  destruct (findPlayer room _) as [[i player]|] eqn:Hf;
    [|intros [= <- <-]; repeat (split; [reflexivity|]); left;
      repeat (split; [reflexivity|]); intros ???? (? & ? & ? & _); congruence].
  case_bool_decide as Hsock;
    [intros [= <- <-]; repeat (split; [reflexivity|]); left;
     repeat (split; [reflexivity|]); intros ???? (? & ? & ? & ?); congruence|].
  assert (Hsocket : socketId player = Some socket).
  { destruct (decide (socketId player = Some socket)); [done|]. by destruct Hsock. }
  change (set_connected false (set_socketId None player)) with (leftPlayer player).
  change (pl_id (leftPlayer player)) with (pl_id player).
  change (pl_name (leftPlayer player)) with (pl_name player).
  match goal with
  | |- context [if bool_decide (phase ?r = in_game) then _ else _] =>
      change r with (afterLeaving room i player)
  end.
  set (hosted := afterLeaving room i player).
  unfold mbind at 1. unfold M_bind at 1.
  match goal with
  | |- context [let (_, _) := ?c h in _] =>
      assert (Hset : forall mid h1, c h = (mid, h1) -> settled hosted mid player);
        [|destruct (c h) as [mid h1] eqn:E1]
  end.
  { intros mid h1. case_bool_decide as Hph.
    - case_bool_decide as Hact.
      + intros Hadv. apply advanceTurn_advanced in Hadv.
        right. left. eauto.
      + case_bool_decide as Hlen.
        * intros Hfin. right. right. left. do 3 (split; [done|]).
          exists h. by rewrite Hfin.
        * intros [= <- <-]. right. right. right. repeat split; auto. lia.
    - intros [= <- <-]. left. done. }
  unfold mbind at 1. unfold M_bind at 1.
  match goal with
  | |- context [let (_, _) := ?c h1 in _] => destruct (c h1) as [emptied h2]
  end.
  run_m. intros [= <- <-]. repeat (split; [reflexivity|]).
  right. exists session, room, i, player, mid. eexists _, _.
  split; [done|]. split; [by eapply Hset|]. reflexivity.
Qed.

Lemma afterLeaving_same room i player :
  same_game (set_players (<[i:=leftPlayer player]> (players room)) room)
    (afterLeaving room i player).
Proof.
  unfold afterLeaving. cbv zeta. case_bool_decide.
  - apply ensureHostIsConnected_same.
  - same_game.
Qed.

Lemma afterLeaving_players_ok room i player :
  players room !! i = Some player ->
  players_ok room -> players_ok (afterLeaving room i player).
Proof.
  intros Hi Hok.
  destruct (afterLeaving_same room i player) as (Hp & Hc & _).
  apply (players_ok_insert room i player (leftPlayer player) Hi) in Hok.
  - unfold players_ok in *. by rewrite Hp, Hc.
  - intros Hid. simpl. split; [exact Hid|].
    destruct Hok as [Hall _]. rewrite Forall_lookup in Hall.
    by destruct (Hall _ _ Hi).
Qed.

Lemma settled_trans room i player mid :
  players room !! i = Some player ->
  settled (afterLeaving room i player) mid player ->
  room_trans false room mid.
Proof.
  intros Hi Hset.
  pose proof (afterLeaving_players_ok room i player Hi) as Hpl.
  destruct (afterLeaving_same room i player) as (Hp & Hc & Hph & Ha & Hw & Hu).
  cbn [players config phase activePlayerId winnerId usedWords set_players] in *.
  set (hosted := afterLeaving room i player) in *.
  destruct Hset as [(Hnot & ->)|[(Hin & Hact & msg & Hadv)|[(Hin & Hact & Hlen & h & ->)
    |(Hin & Hact & Hlen & ->)]]].
  - split; [|split].
    + intros [Hok _]. split; [auto|]. intros Hgame. contradiction.
    + intros Hgame. congruence.
    + intros _. by rewrite Hu.
  - eapply (room_trans_advanced _ room (set_lastEvent msg hosted));
      [exact Hpl|exact Hph|by rewrite <- Hu|exact Hadv|same_game].
  - apply finishGame_trans; [exact Hpl|by rewrite Hu].
  - split; [|split].
    + intros [Hok Hturn]. split; [auto|]. intros _.
      split; [exact Hlen|].
      destruct (Hturn ltac:(congruence)) as (_ & q & Hq & Hqa & Hqe).
      exists q. rewrite Hp, Ha. split; [|auto].
      eapply elem_of_insert_other; eauto. intros ->. congruence.
    + intros _. by left.
    + intros _. by rewrite Hu.
Qed.

Lemma handleDisconnect_trans socket s h :
  rooms_trans false (rooms s) (rooms (fst (handleDisconnect socket s h))).
Proof.
  destruct (handleDisconnect socket s h) as [s' h'] eqn:E.
  apply handleDisconnect_run in E as (_ & _ & _ & Hcase). cbn [fst].
  destruct Hcase as [(-> & _)|(session & room & i & player & mid & e & u & Hlive & Hset & ->)].
  - apply rooms_trans_refl.
  - destruct Hlive as (_ & Hget & Hf & _).
    destruct (findPlayer_Some _ _ _ _ Hf) as (Hi & _ & _).
    eapply rooms_trans_set; [exact Hget|].
    eapply room_trans_same; [by eapply settled_trans|same_game].
Qed.

Lemma cleanup_fold_get now entries acc c r :
  Registry.get c
    (fold_left
       (fun m e => if isStale now (snd e) then Registry.delete (fst e) m else m)
       entries acc) = Some r ->
  Registry.get c acc = Some r.
Proof.
  revert acc. induction entries as [|[k v] entries IH]; intros acc; simpl; [done|].
  intros H. apply IH in H. destruct (isStale now v); [|done].
  rewrite Registry_get_delete in H. by case_decide.
Qed.

Lemma cleanup_fold_sublist now entries acc :
  Registry.keys
    (fold_left
       (fun m e => if isStale now (snd e) then Registry.delete (fst e) m else m)
       entries acc) `sublist_of` Registry.keys acc.
Proof.
  revert acc. induction entries as [|[k v] entries IH]; intros acc; simpl; [done|].
  etrans; [apply IH|]. destruct (isStale now v); [|done].
  apply Registry_delete_sublist.
Qed.

Lemma cleanupRooms_trans s h :
  rooms_trans false (rooms s) (rooms (fst (cleanupRooms s h))).
Proof.
  unfold cleanupRooms. run_m. split.
  - intros Hnd. eapply sublist_NoDup; [exact Hnd|apply cleanup_fold_sublist].
  - intros c r' H.
    apply cleanup_fold_get in H. left. exists r'. split; [done|apply room_trans_refl].
Qed.

Lemma tick_trans s h : rooms_trans false (rooms s) (rooms (fst (tick s h))).
Proof.
  unfold tick. unfold mbind, M_bind.
  destruct (tickRooms (rooms s) h) as [m h1] eqn:E. cbn.
  by eapply tickRooms_trans.
Qed.

Lemma rooms_trans_weaken m m' : rooms_trans false m m' -> forall b, rooms_trans b m m'.
Proof.
  intros [Hnd H] b. split; [exact Hnd|]. intros c r' Hget.
  destruct (H c r' Hget) as [(r & Hr & H1 & H2 & H3)|Hnew].
  - left. exists r. split; [done|]. split; [done|]. split; [done|].
    intros _. by apply H3.
  - by right.
Qed.

Lemma after_trans e s h : rooms_trans (is_reset e) (rooms s) (rooms (after e s h)).
Proof.
  unfold after, dispatch, acked, silent.
  destruct e; cbn [is_reset]; unfold mbind, M_bind, mret, M_ret.
  - pose proof (createRoom_trans socket name s h) as [H _].
    destruct (createRoom socket name s h) as [[res s'] h']. exact H.
  - pose proof (joinRoom_trans socket roomCode name s h) as [H _].
    destruct (joinRoom socket roomCode name s h) as [[res s'] h']. exact H.
  - pose proof (reconnectPlayer_trans socket roomCode playerId name s h) as [H _].
    destruct (reconnectPlayer socket roomCode playerId name s h) as [[res s'] h'].
    exact H.
  - pose proof (updateSettings_trans socket payload s h) as [H _].
    destruct (updateSettings socket payload s h) as [[res s'] h']. exact H.
  - pose proof (startGame_trans socket payload s h) as [H _].
    destruct (startGame socket payload s h) as [[res s'] h']. exact H.
  - pose proof (submitWord_trans socket payload s h) as H.
    destruct (submitWord socket payload s h) as [[res s'] h']. exact H.
  - pose proof (playAgain_trans socket payload s h) as [H _].
    destruct (playAgain socket payload s h) as [[res s'] h']. exact H.
  - pose proof (handleDisconnect_trans socket s h) as H.
    destruct (handleDisconnect socket s h) as [s' h']. exact H.
  - pose proof (tick_trans s h) as H.
    destruct (tick s h) as [s' h']. exact H.
  - pose proof (cleanupRooms_trans s h) as H.
    destruct (cleanupRooms s h) as [s' h']. exact H.
Qed.

Lemma reachable_service_ok s : reachable s -> service_ok s.
Proof.
  induction 1 as [d|s e h Hreach IH].
  - intros c r. simpl. discriminate.
  - intros c r' Hget.
    destruct (after_trans e s h) as [_ Htrans].
    destruct (Htrans c r' Hget) as [(r & Hr & Hok & _)|(_ & Hok & _)].
    + apply Hok. by eapply IH.
    + exact Hok.
Qed.

Lemma reachable_keys s : reachable s -> NoDup (Registry.keys (rooms s)).
Proof.
  induction 1 as [d|s e h Hreach IH].
  - apply NoDup_nil_2.
  - by apply (after_trans e s h).
Qed.

(** ** The bomb holder *)

Lemma reachable_room_ok s room :
  reachable s -> room ∈ Registry.values (rooms s) -> room_ok room.
Proof.
  intros Hreach Hin. apply list_elem_of_fmap in Hin as ([c r] & -> & Hin).
  eapply (reachable_service_ok s Hreach c).
  apply Registry_get_elem; [by apply reachable_keys|exact Hin].
Qed.

(** C1. In every state the service can reach, a room whose phase is
    [in_game] has a bomb holder, and the bomb holder's identifier is that of
    a player of the room who is connected and not eliminated. *)
Theorem active_player_is_eligible (s : GameService) (room : RoomState) :
  reachable s ->
  room ∈ Registry.values (rooms s) ->
  phase room = in_game ->
  exists p,
    p ∈ players room
    /\ activePlayerId room = Some (pl_id p)
    /\ connected p = true
    /\ eliminated p = false.
Proof.
  intros Hreach Hin Hphase.
  destruct (reachable_room_ok s room Hreach Hin) as [_ Hturn].
  destruct (Hturn Hphase) as (_ & p & Hp & Hact & He).
  exists p. split; [exact Hp|]. split; [exact Hact|].
  unfold isEligible in He. destruct (connected p), (eliminated p); done.
Qed.

(** ** The last player standing *)

(** C3. When an event leaves exactly one eligible player in a room that was
    in a match, the same event has moved the room to the results with that
    player as the winner. *)
Theorem sole_eligible_player_wins (s : GameService) (e : Event) (h : Host)
    (c : string) (room room' : RoomState) (w : PlayerState) :
  reachable s ->
  Registry.get c (rooms s) = Some room ->
  phase room = in_game ->
  Registry.get c (rooms (after e s h)) = Some room' ->
  getEligiblePlayers room' = [w] ->
  phase room' = results /\ winnerId room' = Some (pl_id w).
Proof.
  intros Hreach Hget Hphase Hget' Hsole.
  destruct (after_trans e s h) as [_ Htrans].
  destruct (Htrans c room' Hget') as [(r & Hr & _ & Hgame & _)|(Hnone & _)];
    [|congruence].
  assert (r = room) as -> by congruence.
  destruct (Hgame Hphase) as [Hin|[Hres Hwin]].
  - assert (Hok : room_ok room').
    { eapply (reachable_service_ok (after e s h)); [|exact Hget'].
      by apply reachable_after. }
    destruct Hok as [_ Hturn]. destruct (Hturn Hin) as [Hlen _].
    rewrite Hsole in Hlen. simpl in Hlen. lia.
  - split; [exact Hres|]. by rewrite Hwin, Hsole.
Qed.

(** ** No chunk twice in a row *)

(** C6. Whatever the previous chunk and whatever the random draw, the chunk
    chosen is in the catalogue and is not the previous one; the catalogue has
    more than one entry; and a turn advance that goes on with the match
    offers a chunk different from the one it replaces. *)
Theorem next_chunk_differs :
  (forall (previous : option string) (h : Host),
      exists chunk,
        fst (chooseChunk previous h) = Some chunk
        /\ Some chunk ≠ previous /\ chunk ∈ CHUNKS)
  /\ (1 < length CHUNKS)%nat
  /\ (forall room fromId h room' h',
        advanceTurn room fromId h = (room', h') ->
        (phase room' = results /\ currentChunk room' = None)
        \/ exists chunk,
            currentChunk room' = Some chunk
            /\ previousChunk room' = currentChunk room
            /\ Some chunk ≠ currentChunk room).
Proof.
  split; [apply chooseChunk_fresh|]. split; [simpl; lia|].
  intros room fromId h room' h' Hadv.
  apply advanceTurn_advanced in Hadv as [_ _ _ _ _ _ _ Hout].
  destruct Hout as [(_ & Hres & _ & _ & Hc & _)
                   |(_ & _ & _ & Hprev & next & chunk & ends & _ & _ & Hc & Hne & _)].
  - left. done.
  - right. exists chunk. done.
Qed.

(** ** A connection that was already replaced *)

(** C10. When the closing connection is bound to a player who has since
    reconnected on another connection, the handler removes the session
    binding and the rate-limit entry of the closing connection and does
    nothing else: the registry and with it every room and player are
    unchanged, no clock is read and nothing is emitted. *)
Theorem stale_disconnect_is_ignored (s : GameService) (socket : string) (h : Host)
    (session : SocketSession) (room : RoomState) (i : nat) (player : PlayerState) :
  socketSessions s !! socket = Some session ->
  Registry.get (sess_roomCode session) (rooms s) = Some room ->
  findPlayer room (sess_playerId session) = Some (i, player) ->
  socketId player ≠ Some socket ->
  handleDisconnect socket s h
  = (mkService (dictionary s) (rooms s) (delete socket (socketSessions s))
       (delete socket (lastSubmitAtBySocket s)), h).
Proof.
  intros Hs Hget Hf Hstale. unfold handleDisconnect.
  cbn [rooms set_socketSessions set_lastSubmitAtBySocket].
  rewrite Hs, Hget, Hf. by rewrite bool_decide_true.
Qed.

(** ** The dictionary switch *)

Lemma createDictionary_enabled env localFile packageFile :
  dict_enabled (createDictionary env localFile packageFile) = true <->
  env ≠ Some "false"
  /\ exists localRaw packageRaw,
      localFile = Some localRaw /\ packageFile = Some packageRaw
      /\ size (parseWords packageRaw ∪ parseWords localRaw) ≠ 0%nat.
Proof.
  unfold createDictionary. case_bool_decide as Henv; simpl.
  - split; [discriminate|]. intros [Hne _]. contradiction.
  - destruct localFile as [l|], packageFile as [p|]; simpl;
      try (split; [discriminate|intros (_ & ? & ? & ? & ? & _); discriminate]).
    case_bool_decide as Hsize; simpl.
    + split; [discriminate|]. intros (_ & ? & ? & [= <-] & [= <-] & Hne). contradiction.
    + split; [|done]. intros _. split; [done|]. eauto.
Qed.

(** C9. When the host sets [dictionaryEnabled] to true in the lobby, the
    call succeeds and the flag stored in the room is the [enabled] flag of
    the server's dictionary: true only if the dictionary is enabled, false
    when it is not.  The dictionary is not enabled when the environment says
    [false], when a word list cannot be read, or when the lists hold no
    word. *)
Theorem dictionary_flag_follows_oracle :
  (forall (s : GameService) (socket : string) (payload : UpdateSettingsPayload)
          (h : Host) (room : RoomState),
      let roomCode := sanitizeRoomCode (us_roomCode payload) in
      Registry.get roomCode (rooms s) = Some room ->
      socketOwnsPlayer s socket roomCode (us_playerId payload) = true ->
      phase room = lobby ->
      hostId room = us_playerId payload ->
      us_dictionaryEnabled payload = Some true ->
      let result := fst (updateSettings socket payload s h) in
      res_ok (fst result) = true
      /\ exists room',
          Registry.get roomCode (rooms (snd result)) = Some room'
          /\ dictionaryEnabled (config room') = dict_enabled (dictionary s))
  /\ (forall env localFile packageFile,
        env = Some "false" \/ localFile = None \/ packageFile = None
        \/ (exists l p, localFile = Some l /\ packageFile = Some p
                        /\ parseWords p ∪ parseWords l = ∅) ->
        dict_enabled (createDictionary env localFile packageFile) = false).
Proof.
  split.
  - intros s socket payload h room roomCode Hget Hown Hlobby Hhost Hflag result.
    subst result. unfold updateSettings. fold roomCode.
    rewrite Hget, Hown. cbn [negb].
    rewrite bool_decide_false by congruence.
    rewrite bool_decide_false by congruence.
    rewrite Hflag. run_m. split; [reflexivity|].
    eexists. split; [rewrite Registry_get_set; by rewrite decide_True|].
    destruct (us_turnSeconds payload), (us_startingLives payload); reflexivity.
  - intros env localFile packageFile Hcase.
    destruct (dict_enabled (createDictionary env localFile packageFile)) eqn:E;
      [|reflexivity].
    apply createDictionary_enabled in E as (Henv & l & p & -> & -> & Hsize).
    destruct Hcase as [->|[[=]|[[=]|(l' & p' & [= <-] & [= <-] & Hempty)]]];
      [done|].
    rewrite Hempty in Hsize. by rewrite size_empty in Hsize.
Qed.

(** ** Host reassignment *)

Lemma findPlayer_insert room i player player' :
  findPlayer room (pl_id player) = Some (i, player) ->
  pl_id player' = pl_id player ->
  findPlayer (set_players (<[i:=player']> (players room)) room) (pl_id player)
  = Some (i, player').
Proof.
  unfold findPlayer. cbn [players set_players]. intros Hf Hid.
  apply list_find_Some in Hf as (Hi & _ & Hbefore).
  apply list_find_Some. split; [|split; [exact Hid|]].
  - apply list_lookup_insert_eq. eapply lookup_lt_Some; eauto.
  - intros j y Hj Hlt. rewrite list_lookup_insert_ne in Hj by lia. eauto.
Qed.

Lemma afterLeaving_host room i player :
  findPlayer room (pl_id player) = Some (i, player) ->
  pl_id player = hostId room ->
  players (afterLeaving room i player) = <[i:=leftPlayer player]> (players room)
  /\ match list_find (fun p => connected p = true)
             (<[i:=leftPlayer player]> (players room)) with
     | Some (_, next) => hostId (afterLeaving room i player) = pl_id next
     | None => hostId (afterLeaving room i player) = hostId room
     end.
Proof.
  intros Hf Hhost.
  pose proof (afterLeaving_same room i player) as (Hp & _).
  split; [exact Hp|].
  unfold afterLeaving. cbv zeta. cbn [hostId set_players].
  rewrite (bool_decide_eq_true_2 _ Hhost).
  unfold ensureHostIsConnected, getPlayer. cbn [hostId set_players].
  rewrite <- Hhost.
  rewrite (findPlayer_insert room i player (leftPlayer player) Hf eq_refl).
  cbn [fmap option_fmap option_map snd connected leftPlayer set_connected players
       set_players].
  destruct (list_find _ _) as [[j next]|]; [reflexivity|].
  cbn [hostId set_players]. by symmetry.
Qed.

Lemma settled_roster hosted mid player :
  settled hosted mid player ->
  players mid = players hosted /\ hostId mid = hostId hosted.
Proof.
  intros [(_ & ->)|[(_ & _ & msg & Hadv)|[(_ & _ & _ & h & ->)|(_ & _ & _ & ->)]]];
    try done.
  split; [apply (adv_players _ _ _ Hadv)|apply (adv_hostId _ _ _ Hadv)].
Qed.

(** C8. When the connection of the host closes, the room's host becomes the
    first connected player in join order, who is another player than the one
    who left; when nobody is connected any more, the host stays as it was.
    The roster only changes in that the leaver is marked disconnected. *)
Theorem host_moves_to_earliest_connected (s : GameService) (socket : string)
    (h : Host) (session : SocketSession) (room : RoomState) (i : nat)
    (player : PlayerState) :
  live_session s socket session room i player ->
  pl_id player = hostId room ->
  exists room',
    Registry.get (sess_roomCode session) (rooms (fst (handleDisconnect socket s h)))
    = Some room'
    /\ players room' = <[i:=leftPlayer player]> (players room)
    /\ match list_find (fun p => connected p = true) (players room') with
       | Some (j, nextHost) => hostId room' = pl_id nextHost /\ j ≠ i
       | None => hostId room' = hostId room
       end.
Proof.
  intros Hlive Hhost.
  destruct (handleDisconnect socket s h) as [s' h'] eqn:E. cbn [fst].
  apply handleDisconnect_run in E as (_ & _ & _ & Hcase).
  destruct Hcase as [(_ & _ & Hnot)
                    |(session' & room0 & i' & player' & mid & e & u & Hlive' & Hset & ->)].
  { destruct (Hnot _ _ _ _ Hlive). }
  destruct Hlive as (Hs & Hget & Hf & Hsock).
  destruct Hlive' as (Hs' & Hget' & Hf' & _).
  assert (session' = session) as -> by congruence.
  assert (room0 = room) as -> by congruence.
  assert (i' = i /\ player' = player) as [-> ->] by (split; congruence).
  destruct (findPlayer_Some _ _ _ _ Hf) as (Hi & Hid & _).
  rewrite <- Hid in Hf.
  destruct (afterLeaving_host room i player Hf Hhost) as [Hp Hh].
  destruct (settled_roster _ _ _ Hset) as [Hmp Hmh].
  eexists. split; [rewrite Registry_get_set; by rewrite decide_True|].
  cbn [players hostId set_updatedAt set_emptySince].
  rewrite Hmp, Hmh, Hp. split; [reflexivity|].
  destruct (list_find _ _) as [[j next]|] eqn:Hfind; [|exact Hh].
  split; [exact Hh|]. intros ->.
  apply list_find_Some in Hfind as (Hj & Hconn & _).
  rewrite list_lookup_insert_eq in Hj by (eapply lookup_lt_Some; eauto).
  injection Hj as <-. discriminate Hconn.
Qed.

(** ** The rate limit *)

Lemma submitWord_lastSubmit socket payload s h :
  lastSubmitAtBySocket (snd (fst (submitWord socket payload s h)))
  = if (dates h 0%nat - default 0 (lastSubmitAtBySocket s !! socket)
        <? SUBMIT_RATE_LIMIT_MS)
    then lastSubmitAtBySocket s
    else <[socket:=dates h 0%nat]> (lastSubmitAtBySocket s).
Proof.
  unfold submitWord. unfold mbind at 1. unfold M_bind at 1. unfold Date_now at 1.
  destruct (_ <? SUBMIT_RATE_LIMIT_MS); [reflexivity|].
  cbn [rooms set_lastSubmitAtBySocket dictionary].
  destruct (Registry.get _ (rooms s)) as [room|]; [|reflexivity].
  destruct (negb _); [reflexivity|].
  case_bool_decide; [reflexivity|].
  destruct (findPlayer room _) as [[i player]|]; [|reflexivity].
  destruct (negb (connected player) || eliminated player); [reflexivity|].
  case_bool_decide; [reflexivity|].
  destruct (negb (Js.test_lower_plus _)); [reflexivity|].
  case_bool_decide; [reflexivity|].
  match goal with
  | |- context [if ?b then mret (failure (missingChunkError room), _) else _] =>
      destruct b; [reflexivity|]
  end.
  case_bool_decide; [reflexivity|].
  destruct (_ && _); [reflexivity|].
  run_m. reflexivity.
Qed.

Lemma after_lastSubmit socket e s h :
  touches_rate_limit socket e = false ->
  lastSubmitAtBySocket (after e s h) !! socket = lastSubmitAtBySocket s !! socket.
Proof.
  intros Hquiet. unfold after, dispatch, acked, silent.
  destruct e; cbn [touches_rate_limit] in Hquiet; unfold mbind, M_bind, mret, M_ret.
  - pose proof (createRoom_trans socket0 name s h) as (_ & _ & H).
    destruct (createRoom socket0 name s h) as [[res s'] h']. by rewrite <- H.
  - pose proof (joinRoom_trans socket0 roomCode name s h) as (_ & _ & H).
    destruct (joinRoom socket0 roomCode name s h) as [[res s'] h']. by rewrite <- H.
  - pose proof (reconnectPlayer_trans socket0 roomCode playerId name s h) as (_ & _ & H).
    destruct (reconnectPlayer socket0 roomCode playerId name s h) as [[res s'] h'].
    by rewrite <- H.
  - pose proof (updateSettings_trans socket0 payload s h) as (_ & _ & H).
    destruct (updateSettings socket0 payload s h) as [[res s'] h']. by rewrite <- H.
  - pose proof (startGame_trans socket0 payload s h) as (_ & _ & H).
    destruct (startGame socket0 payload s h) as [[res s'] h']. by rewrite <- H.
  - apply bool_decide_eq_false in Hquiet.
    pose proof (submitWord_lastSubmit socket0 payload s h) as Hl.
    destruct (submitWord socket0 payload s h) as [[res s'] h']. cbn [fst snd] in *.
    rewrite Hl. destruct (_ <? _); [reflexivity|]. by rewrite lookup_insert_ne.
  - pose proof (playAgain_trans socket0 payload s h) as (_ & _ & H).
    destruct (playAgain socket0 payload s h) as [[res s'] h']. by rewrite <- H.
  - apply bool_decide_eq_false in Hquiet.
    destruct (handleDisconnect socket0 s h) as [s' h'] eqn:E. cbn [fst snd].
    apply handleDisconnect_run in E as (_ & _ & -> & _). by rewrite lookup_delete_ne.
  - unfold tick. unfold mbind, M_bind, mret, M_ret.
    destruct (tickRooms (rooms s) h) as [m h']. reflexivity.
  - reflexivity.
Qed.

Lemma meanwhile_lastSubmit socket s s' :
  meanwhile socket s s' ->
  lastSubmitAtBySocket s' !! socket = lastSubmitAtBySocket s !! socket.
Proof.
  induction 1 as [|s s' e h _ IH Hquiet]; [reflexivity|].
  by rewrite after_lastSubmit.
Qed.

(** C7. Once a submission of a connection has passed the rate-limit check
    at time [t], every submission of the same connection at a time less than
    300 ms after [t] is answered with the rate-limit error and changes
    nothing, whatever it carries, whatever became of the first submission and
    whatever other connections and the timers did in between. *)
Theorem second_submission_is_rate_limited (s : GameService) (socket : string)
    (first : SubmitWordPayload) (h : Host) :
  SUBMIT_RATE_LIMIT_MS <= dates h 0%nat - default 0 (lastSubmitAtBySocket s !! socket) ->
  forall s2 : GameService,
    meanwhile socket (snd (fst (submitWord socket first s h))) s2 ->
    forall (second : SubmitWordPayload) (h2 : Host),
      dates h2 0%nat - dates h 0%nat < SUBMIT_RATE_LIMIT_MS ->
      fst (submitWord socket second s2 h2) = (failure RATE_LIMIT_ERROR, s2).
Proof.
  intros Hpass s2 Hmean second h2 Hsoon.
  apply meanwhile_lastSubmit in Hmean.
  rewrite submitWord_lastSubmit in Hmean.
  destruct (_ <? SUBMIT_RATE_LIMIT_MS) eqn:Hlt in Hmean; [lia|].
  rewrite lookup_insert_eq in Hmean.
  unfold submitWord. unfold mbind at 1. unfold M_bind at 1. unfold Date_now at 1.
  rewrite Hmean.
  change (default 0 (Some (dates h 0%nat))) with (dates h 0%nat).
  rewrite (proj2 (Z.ltb_lt _ _) Hsoon). reflexivity.
Qed.

(** ** Timer expiry *)

Lemma exploded_loses_one_life active :
  eliminated active = false -> 1 <= lives active ->
  loses_one_life active (exploded active).
Proof.
  intros He Hl. unfold loses_one_life, exploded. cbv zeta.
  case_bool_decide as Hz; simpl in *.
  - repeat split; auto; lia.
  - rewrite He. repeat split; auto; try lia; try discriminate.
Qed.

Lemma tickRoom_fires room a ends h room' h' :
  phase room = in_game -> activePlayerId room = Some a -> a ≠ "" ->
  timerEndsAt room = Some ends -> ends <= dates h 0%nat ->
  tickRoom room h = (room', h') ->
  exists h1 h2, handleTimerExpiry room h1 = (room', h2).
Proof.
  intros Hph Ha Hne Ht Hdue. unfold tickRoom.
  rewrite bool_decide_false by auto. rewrite Ha, Ht.
  rewrite bool_decide_false by exact Hne.
  unfold mbind, M_bind, Date_now.
  rewrite (proj2 (Z.leb_le _ _) Hdue).
  match goal with
  | |- context [handleTimerExpiry room ?h1] =>
      destruct (handleTimerExpiry room h1) as [r1 h2] eqn:E
  end.
  destruct (broadcastRoom r1 h2) as [[] h3].
  intros [= <- <-]. eauto.
Qed.

(** C4. When the timer of a room in a match expires, the bomb holder is
    looked up.  If there is no such player, or the player is disconnected
    or eliminated, the roster is unchanged, so nobody loses a life, and the
    turn advances.  Otherwise the roster changes at the bomb holder's
    position only: the holder has one life less and is eliminated exactly
    when no life is left; then the turn advances.  In both cases the room
    after the expiry is the advanced room, up to its event line and its
    update time. *)
Theorem timer_expiry_takes_one_life (s : GameService) (room : RoomState) (ends : Z)
    (h : Host) (room' : RoomState) (h' : Host) :
  reachable s ->
  room ∈ Registry.values (rooms s) ->
  phase room = in_game ->
  timerEndsAt room = Some ends ->
  ends <= dates h 0%nat ->
  tickRoom room h = (room', h') ->
  exists a,
    activePlayerId room = Some a
    /\ ((match findPlayer room a with
         | Some (_, active) => isEligible active = false
         | None => True
         end
         /\ players room' = players room
         /\ exists adv t,
             advanced room adv (Some a)
             /\ room' = set_updatedAt t (set_lastEvent UNAVAILABLE_EVENT adv))
        \/ (exists i active hit adv t,
               findPlayer room a = Some (i, active)
               /\ isEligible active = true
               /\ loses_one_life active hit
               /\ players room' = <[i:=hit]> (players room)
               /\ advanced
                    (set_lastEvent (explosionEvent active)
                       (set_players (<[i:=hit]> (players room)) room))
                    adv (Some a)
               /\ room' = set_updatedAt t adv)).
Proof.
  intros Hreach Hin Hphase Htimer Hdue Htick.
  destruct (reachable_room_ok s room Hreach Hin) as [[Hall _] Hturn].
  destruct (Hturn Hphase) as (_ & p & Hp & Hact & _).
  assert (Hne : pl_id p ≠ "").
  { rewrite Forall_forall in Hall. by destruct (Hall p Hp). }
  destruct (tickRoom_fires _ _ _ _ _ _ Hphase Hact Hne Htimer Hdue Htick)
    as (h1 & h2 & Hrun).
  apply handleTimerExpiry_run in Hrun
    as [[_ [Hbad|[Hbad|Hbad]]]|(a & _ & Ha & _ & Hcase)]; try congruence.
  exists a. split; [exact Ha|].
  destruct Hcase as [(Hun & adv & t & Hadv & ->)
                    |(i & active & adv & t & Hf & He & Hadv & ->)].
  - left. split; [exact Hun|]. split; [|eauto].
    cbn [players set_updatedAt set_lastEvent]. apply (adv_players _ _ _ Hadv).
  - right. exists i, active, (exploded active), adv, t.
    destruct (findPlayer_Some _ _ _ _ Hf) as (Hi & _ & _).
    split; [exact Hf|]. split; [exact He|]. split.
    + rewrite Forall_lookup in Hall. destruct (Hall _ _ Hi) as [_ Hlives].
      unfold isEligible in He.
      destruct (eliminated active) eqn:Hel; [by destruct (connected active)|].
      apply exploded_loses_one_life; auto.
    + split; [|split; [exact Hadv|reflexivity]].
      cbn [players set_updatedAt]. rewrite (adv_players _ _ _ Hadv). reflexivity.
Qed.

(** ** Used words *)

Lemma socketOwnsPlayer_stamp s stamps socket roomCode playerId :
  socketOwnsPlayer (set_lastSubmitAtBySocket stamps s) socket roomCode playerId
  = socketOwnsPlayer s socket roomCode playerId.
Proof. reflexivity. Qed.





Lemma lower_upper_char c : Js.lower_char (Js.upper_char c) = Js.lower_char c.
Proof. destruct c as [[] [] [] [] [] [] [] []]; reflexivity. Qed.






Lemma map_chars_compose f g s :
  Js.map_chars f (Js.map_chars g s) = Js.map_chars (fun c => f (g c)) s.
Proof. induction s as [|c s IH]; [reflexivity|]. simpl. by rewrite IH. Qed.

Lemma map_chars_ext f g s :
  (forall c, f c = g c) -> Js.map_chars f s = Js.map_chars g s.
Proof.
  intros Hfg. induction s as [|c s IH]; [reflexivity|]. simpl. by rewrite Hfg, IH.
Qed.




(** * The properties on the sample game *)

Lemma sampleLobby_reachable : reachable sampleLobby.
Proof. unfold sampleLobby. repeat apply reachable_after. apply reachable_new. Qed.

Lemma sampleMatch_reachable : reachable sampleMatch.
Proof. apply reachable_after, sampleLobby_reachable. Qed.

Lemma sampleSecondTurn_reachable : reachable sampleSecondTurn.
Proof. apply reachable_after, sampleMatch_reachable. Qed.

Lemma Registry_get_values c m r : Registry.get c m = Some r -> r ∈ Registry.values m.
Proof.
  induction m as [|[k v] m IH]; simpl; [discriminate|].
  case_decide.
  - intros [= ->]. left.
  - intros Hr. right. by apply IH.
Qed.

(** After the start of the sample match the bomb is with a connected player
    who is still in the match. *)
Lemma active_player_is_eligible_witness :
  exists room p,
    Registry.get SAMPLE_CODE (rooms sampleMatch) = Some room
    /\ p ∈ players room /\ activePlayerId room = Some (pl_id p)
    /\ connected p = true /\ eliminated p = false.
Proof.
  eexists.
  assert (Hget : Registry.get SAMPLE_CODE (rooms sampleMatch) = Some _)
    by (vm_compute; reflexivity).
  destruct (active_player_is_eligible sampleMatch _ sampleMatch_reachable
              (Registry_get_values _ _ _ Hget) eq_refl) as (p & Hp).
  exists p. split; [exact Hget|exact Hp].
Defined.



(** Bo's connection closes during the sample match: Ava is the only
    eligible player left and wins. *)
Lemma sole_eligible_player_wins_witness :
  exists room',
    Registry.get SAMPLE_CODE
      (rooms (after (Disconnect "sockB") sampleMatch (sampleHost 6000 0))) = Some room'
    /\ phase room' = results /\ winnerId room' = Some AVA.
Proof.
  eexists.
  assert (Hget' : Registry.get SAMPLE_CODE
                    (rooms (after (Disconnect "sockB") sampleMatch (sampleHost 6000 0)))
                  = Some _) by (vm_compute; reflexivity).
  split; [exact Hget'|].
  assert (Hget : Registry.get SAMPLE_CODE (rooms sampleMatch) = Some _)
    by (vm_compute; reflexivity).
  match type of Hget' with
  | _ = Some ?r =>
      assert (Hsole : getEligiblePlayers r = [_]) by (vm_compute; reflexivity)
  end.
  exact (sole_eligible_player_wins sampleMatch (Disconnect "sockB") (sampleHost 6000 0)
           SAMPLE_CODE _ _ _ sampleMatch_reachable Hget eq_refl Hget' Hsole).
Defined.

(** The timer of the sample match runs out at 13000: Ava goes from three
    lives to two, Bo keeps three. *)
Lemma timer_expiry_takes_one_life_witness :
  exists room room',
    Registry.get SAMPLE_CODE (rooms sampleMatch) = Some room
    /\ fst (tickRoom room (sampleHost 13000 0)) = room'
    /\ (lives <$> players room) = [3; 3]
    /\ (lives <$> players room') = [2; 3].
Proof.
  eexists. eexists.
  assert (Hget : Registry.get SAMPLE_CODE (rooms sampleMatch) = Some _)
    by (vm_compute; reflexivity).
  split; [exact Hget|]. split; [reflexivity|]. split; [vm_compute; reflexivity|].
  match goal with
  | |- context [tickRoom ?r ?h] => destruct (tickRoom r h) as [room' h'] eqn:E
  end.
  pose proof (timer_expiry_takes_one_life sampleMatch _ 13000 (sampleHost 13000 0)
                room' h' sampleMatch_reachable (Registry_get_values _ _ _ Hget)
                eq_refl eq_refl) as H.
  assert (Hdue : 13000 <= dates (sampleHost 13000 0) 0) by (vm_compute; discriminate).
  specialize (H Hdue E).
  destruct H
    as (a & Ha & [(Hun & _)|(i & active & hit & adv & t & Hf & _ & Hlose & Hp & _)]).
  - injection Ha as <-. vm_compute in Hun. discriminate Hun.
  - injection Ha as <-. vm_compute in Hf. injection Hf as <- <-.
    cbn [fst]. rewrite Hp. destruct Hlose as (Hl & _). cbn. rewrite Hl. reflexivity.
Defined.

(** In the trio the turn goes from the first player to the third, the
    second being disconnected, and from the third back to the first. *)
Lemma getNextEligiblePlayer_clockwise_witness :
  (pl_id <$> getNextEligiblePlayer sampleTrio (Some "a")) = Some "c"
  /\ (pl_id <$> getNextEligiblePlayer sampleTrio (Some "c")) = Some "a"
  /\ (pl_id <$> getNextEligiblePlayer sampleTrio None) = Some "a".
Proof.
  destruct (getNextEligiblePlayer_clockwise sampleTrio) as (Hnone & Hfrom & _).
  split; [|split].
  - rewrite (Hfrom "a" 0%nat _ eq_refl). reflexivity.
  - rewrite (Hfrom "c" 2%nat _ eq_refl). reflexivity.
  - rewrite Hnone. reflexivity.
Defined.

(** Whatever is drawn after the chunk "CH", it is another chunk. *)
Lemma next_chunk_differs_witness :
  exists chunk,
    fst (chooseChunk (Some "CH") (sampleHost 4000 11)) = Some chunk
    /\ chunk ≠ "CH" /\ chunk ∈ CHUNKS.
Proof.
  destruct (proj1 next_chunk_differs (Some "CH") (sampleHost 4000 11))
    as (chunk & Hc & Hne & Hin).
  exists chunk. split; [exact Hc|]. split; [|exact Hin].
  intros ->. by apply Hne.
Defined.

(** Ava submits at 4000 and again at 4299. *)
Lemma second_submission_is_rate_limited_witness :
  fst (submitWord "sockA" (mkSubmitWord SAMPLE_CODE AVA "chair")
         (snd (fst (submitWord "sockA" (mkSubmitWord SAMPLE_CODE AVA "xx") sampleMatch
                      (sampleHost 4000 0))))
         (sampleHost 4299 0))
  = (failure RATE_LIMIT_ERROR,
     snd (fst (submitWord "sockA" (mkSubmitWord SAMPLE_CODE AVA "xx") sampleMatch
                 (sampleHost 4000 0)))).
Proof.
  apply (second_submission_is_rate_limited sampleMatch "sockA"
           (mkSubmitWord SAMPLE_CODE AVA "xx") (sampleHost 4000 0)).
  - vm_compute. discriminate.
  - apply meanwhile_refl.
  - vm_compute. reflexivity.
Defined.

(** Ava, the host, leaves the lobby: Bo is the host. *)
Lemma host_moves_to_earliest_connected_witness :
  hostId <$> Registry.get SAMPLE_CODE
               (rooms (fst (handleDisconnect "sockA" sampleLobby (sampleHost 6000 0))))
  = Some BO.
Proof.
  eassert (Hlive : live_session sampleLobby "sockA" (mkSession SAMPLE_CODE AVA) _ 0 _).
  { split; [vm_compute; reflexivity|].
    split; [vm_compute; reflexivity|].
    split; vm_compute; reflexivity. }
  destruct (host_moves_to_earliest_connected sampleLobby "sockA" (sampleHost 6000 0)
              _ _ _ _ Hlive eq_refl) as (room' & Hget & Hp & Hhost).
  cbn [sess_roomCode] in Hget. rewrite Hget. cbn [fmap option_fmap option_map].
  rewrite Hp in Hhost.
  match type of Hhost with
  | context [list_find ?P ?l] =>
      let found := eval vm_compute in (list_find P l) in
      change (list_find P l) with found in Hhost
  end.
  destruct Hhost as [-> _]. reflexivity.
Defined.

(** The sample service runs without a dictionary: switching the dictionary
    on succeeds and stores [false]. *)
Lemma dictionary_flag_follows_oracle_witness :
  (fun room => dictionaryEnabled (config room))
    <$> Registry.get SAMPLE_CODE
          (rooms (snd (fst (updateSettings "sockA"
                              (mkUpdateSettings SAMPLE_CODE AVA None None (Some true))
                              sampleLobby (sampleHost 2500 0)))))
  = Some false.
Proof.
  assert (Hget : Registry.get SAMPLE_CODE (rooms sampleLobby) = Some _)
    by (vm_compute; reflexivity).
  destruct (proj1 dictionary_flag_follows_oracle sampleLobby "sockA"
              (mkUpdateSettings SAMPLE_CODE AVA None None (Some true))
              (sampleHost 2500 0) _ Hget eq_refl eq_refl eq_refl eq_refl)
    as (_ & room' & Hget' & Hflag).
  change (sanitizeRoomCode (us_roomCode _)) with SAMPLE_CODE in Hget'.
  rewrite Hget'. cbn [fmap option_fmap option_map]. rewrite Hflag. reflexivity.
Defined.

(** Bo's old connection closes after the reconnection. *)
Lemma stale_disconnect_is_ignored_witness :
  rooms (fst (handleDisconnect "sockB" sampleReconnected (sampleHost 2700 0)))
  = rooms sampleReconnected
  /\ snd (handleDisconnect "sockB" sampleReconnected (sampleHost 2700 0))
     = sampleHost 2700 0.
Proof.
  assert (Hs : socketSessions sampleReconnected !! "sockB"
               = Some (mkSession SAMPLE_CODE BO)) by (vm_compute; reflexivity).
  assert (Hget : Registry.get SAMPLE_CODE (rooms sampleReconnected) = Some _)
    by (vm_compute; reflexivity).
  match type of Hget with
  | _ = Some ?r =>
      assert (Hf : findPlayer r BO = Some (1%nat, _)) by (vm_compute; reflexivity)
  end.
  rewrite (stale_disconnect_is_ignored sampleReconnected "sockB" (sampleHost 2700 0)
             _ _ _ _ Hs Hget Hf ltac:(vm_compute; discriminate)).
  split; reflexivity.
Defined.

(** * Further properties of the code *)

(** ** utils.ts: the sanitizers and [clampInt] *)

Lemma substring_0_length n s :
  String.length (String.substring 0 n s) = Nat.min n (String.length s).
Proof.
  revert s. induction n as [|n IH]; intros [|c s]; simpl; auto.
Qed.

Lemma substring_0_all p n s :
  Js.all_chars p s = true -> Js.all_chars p (String.substring 0 n s) = true.
Proof.
  revert s. induction n as [|n IH]; intros [|c s]; simpl; auto.
  intros H. apply andb_prop in H as [Hc Hs]. rewrite Hc. simpl. auto.
Qed.

Lemma substring_0_short n s :
  (String.length s <= n)%nat -> String.substring 0 n s = s.
Proof.
  revert s. induction n as [|n IH]; intros [|c s]; simpl; auto; try lia.
  intros H. f_equal. apply IH. lia.
Qed.

Lemma filter_chars_all p s : Js.all_chars p (Js.filter_chars p s) = true.
Proof.
  induction s as [|c s IH]; simpl; auto.
  destruct (p c) eqn:Hc; simpl; [by rewrite Hc|done].
Qed.

Lemma filter_chars_id p s : Js.all_chars p s = true -> Js.filter_chars p s = s.
Proof.
  induction s as [|c s IH]; simpl; auto.
  intros H. apply andb_prop in H as [Hc Hs]. rewrite Hc. f_equal. auto.
Qed.

Lemma map_chars_id (p : ascii -> bool) f s :
  (forall c, p c = true -> f c = c) -> Js.all_chars p s = true -> Js.map_chars f s = s.
Proof.
  intros Hf. induction s as [|c s IH]; simpl; auto.
  intros H. apply andb_prop in H as [Hc Hs]. rewrite (Hf c Hc). f_equal. auto.
Qed.

Lemma upper_char_code c : code_char c = true -> Js.upper_char c = c.
Proof. destruct c as [[] [] [] [] [] [] [] []]; vm_compute; intros; congruence. Qed.

(** X2. [sanitizeRoomCode] (utils.ts): the result has at most six characters,
    all of them capital letters or digits, and sanitizing it again changes
    nothing. *)
Theorem sanitizeRoomCode_shape input :
  (String.length (sanitizeRoomCode input) <= 6)%nat
  /\ Js.all_chars code_char (sanitizeRoomCode input) = true
  /\ sanitizeRoomCode (sanitizeRoomCode input) = sanitizeRoomCode input.
Proof.
  assert (Hlen : (String.length (sanitizeRoomCode input) <= 6)%nat).
  { unfold sanitizeRoomCode, Js.slice_to. rewrite substring_0_length. lia. }
  assert (Hall : Js.all_chars code_char (sanitizeRoomCode input) = true).
  { unfold sanitizeRoomCode, Js.slice_to. apply substring_0_all, filter_chars_all. }
  split; [exact Hlen|]. split; [exact Hall|].
  set (code := sanitizeRoomCode input) in *.
  unfold sanitizeRoomCode at 1. unfold Js.toUpperCase, Js.slice_to.
  rewrite (map_chars_id code_char) by (auto using upper_char_code).
  change (fun c => Js.is_upper c || Js.is_digit c) with code_char.
  rewrite filter_chars_id by exact Hall.
  by apply substring_0_short.
Qed.

(** X3. [sanitizePlayerName] (utils.ts): the result has at most twenty
    characters, all of them letters, digits, blanks, underscores or
    hyphens. *)
Theorem sanitizePlayerName_shape input :
  (String.length (sanitizePlayerName input) <= 20)%nat
  /\ Js.all_chars name_char (sanitizePlayerName input) = true.
Proof.
  unfold sanitizePlayerName, Js.slice_to. split.
  - rewrite substring_0_length. lia.
  - apply substring_0_all, filter_chars_all.
Qed.

Lemma round_inject n : Js.round (inject_Z n) = n.
Proof.
  unfold Js.round, Qfloor, Qplus, inject_Z. simpl.
  rewrite Z.mul_1_r. replace (n * 2 + 1) with (1 + n * 2) by lia.
  rewrite Z.div_add by lia. reflexivity.
Qed.

(** X1. [clampInt] (utils.ts), for bounds [lo <= hi]: the result is always
    within the bounds; an integer within the bounds is returned as it is, one
    below gives the lower and one above the upper bound; and a value that is
    not finite, [NaN] or an infinity, gives the lower bound. *)
Theorem clampInt_clamps (lo hi : Z) :
  lo <= hi ->
  (forall v, lo <= clampInt v lo hi <= hi)
  /\ (forall n, lo <= n <= hi -> clampInt (Js.Finite (inject_Z n)) lo hi = n)
  /\ (forall n, n <= lo -> clampInt (Js.Finite (inject_Z n)) lo hi = lo)
  /\ (forall n, hi <= n -> clampInt (Js.Finite (inject_Z n)) lo hi = hi)
  /\ clampInt Js.NaN lo hi = lo
  /\ clampInt Js.PosInfinity lo hi = lo
  /\ clampInt Js.NegInfinity lo hi = lo.
Proof.
  intros H. split; [intros v; unfold clampInt; destruct v; lia|].
  repeat split; try reflexivity; intros n Hn; unfold clampInt; rewrite round_inject; lia.
Qed.

(** Turn lengths: 12.4 seconds become 12, 99 become 20, and a value that is
    not a number becomes 5. *)
Lemma clampInt_clamps_witness :
  clampInt (Js.Finite (62 # 5)) 5 20 = 12
  /\ clampInt (Js.Finite (inject_Z 99)) 5 20 = 20
  /\ clampInt Js.NaN 5 20 = 5.
Proof.
  assert (Hle : 5 <= 20) by lia.
  destruct (clampInt_clamps 5 20 Hle) as (_ & _ & _ & Hhigh & Hnan & _).
  split; [reflexivity|]. split; [apply Hhigh; lia|exact Hnan].
Defined.

(** ** utils.ts: room codes *)

Lemma room_char_code c : room_char c = true -> code_char c = true.
Proof. destruct c as [[] [] [] [] [] [] [] []]; vm_compute; intros; congruence. Qed.

Lemma all_chars_impl (p q : ascii -> bool) s :
  (forall c, p c = true -> q c = true) -> Js.all_chars p s = true -> Js.all_chars q s = true.
Proof.
  intros Hpq. induction s as [|c s IH]; simpl; auto.
  intros H. apply andb_prop in H as [Hc Hs]. rewrite (Hpq c Hc). simpl. auto.
Qed.

Lemma all_chars_app p s t :
  Js.all_chars p (s +:+ t) = Js.all_chars p s && Js.all_chars p t.
Proof.
  induction s as [|c s IH]; [reflexivity|].
  change (String c s +:+ t) with (String c (s +:+ t)). simpl. rewrite IH.
  by rewrite andb_assoc.
Qed.

Lemma length_app_string s t :
  String.length (s +:+ t) = (String.length s + String.length t)%nat.
Proof.
  induction s as [|c s IH]; [reflexivity|].
  change (String c s +:+ t) with (String c (s +:+ t)). simpl. by rewrite IH.
Qed.

Lemma string_app_cons a s t : String a s +:+ t = String a (s +:+ t).
Proof. reflexivity. Qed.

Lemma string_app_nil_r s : s +:+ "" = s.
Proof. induction s as [|a s IH]; [reflexivity|]. by rewrite string_app_cons, IH. Qed.

Lemma string_app_assoc s t u : (s +:+ t) +:+ u = s +:+ (t +:+ u).
Proof.
  induction s as [|a s IH]; [reflexivity|]. by rewrite !string_app_cons, IH.
Qed.

Lemma ROOM_CHARS_get i :
  0 <= i < 32 -> exists c, js_char_at ROOM_CHARS i = Some c /\ room_char c = true.
Proof.
  intros Hi. unfold js_char_at. destruct (i <? 0) eqn:Hneg; [lia|].
  assert (Hn : (Z.to_nat i < 32)%nat) by lia.
  revert Hn. generalize (Z.to_nat i). intros n Hn.
  do 32 (destruct n as [|n]; [eexists; split; [reflexivity|vm_compute; reflexivity]|]).
  lia.
Qed.

Lemma randomCode_shape n next h :
  exists suffix,
    fst (randomCode n next h) = next +:+ suffix
    /\ String.length suffix = n
    /\ Js.all_chars room_char suffix = true.
Proof.
  revert next h. induction n as [|n IH]; intros next h.
  - exists "". split; [|done]. simpl. by rewrite string_app_nil_r.
  - cbn [randomCode]. unfold mbind, M_bind.
    pose proof (random_index_range (String.length ROOM_CHARS) h ltac:(simpl; lia)) as Hr.
    destruct (random_index (String.length ROOM_CHARS) h) as [i h1]. cbn [fst] in Hr.
    destruct (ROOM_CHARS_get i Hr) as (c & -> & Hc).
    destruct (IH (next +:+ String c "") h1) as (suffix & Heq & Hlen & Hall).
    exists (String c suffix). rewrite Heq. split; [|split].
    + by rewrite string_app_assoc.
    + simpl. by rewrite Hlen.
    + simpl. by rewrite Hc, Hall.
Qed.

Lemma createRoomCode_attempts_shape attempts existing h c h' :
  createRoomCode_attempts attempts existing h = (Some c, h') ->
  (c ∉ existing) /\ String.length c = 6%nat /\ Js.all_chars room_char c = true.
Proof.
  revert h. induction attempts as [|n IH]; intros h; cbn [createRoomCode_attempts].
  - intros [=].
  - unfold mbind, M_bind.
    destruct (randomCode_shape 6 "" h) as (suffix & Heq & Hlen & Hall).
    destruct (randomCode 6 "" h) as [next h1]. cbn [fst] in Heq.
    case_bool_decide as Hin.
    + apply IH.
    + intros [= <- <-]. subst next. split; [exact Hin|]. split; assumption.
Qed.

Lemma createRoomCode_fresh_code existing h c h' :
  createRoomCode existing h = (Some c, h') ->
  (c ∉ existing)
  /\ String.length c = 6%nat
  /\ Js.all_chars room_char c = true
  /\ sanitizeRoomCode c = c
  /\ sanitizeRoomCode (Js.toLowerCase c) = c.
Proof.
  intros H. apply createRoomCode_attempts_shape in H as (Hfresh & Hlen & Hall).
  split; [exact Hfresh|]. split; [exact Hlen|]. split; [exact Hall|].
  assert (Hcode : Js.all_chars code_char c = true).
  { eapply all_chars_impl; [apply room_char_code|exact Hall]. }
  assert (Hfix : sanitizeRoomCode c = c).
  { unfold sanitizeRoomCode, Js.toUpperCase, Js.slice_to.
    rewrite (map_chars_id code_char) by (auto using upper_char_code).
    change (fun c => Js.is_upper c || Js.is_digit c) with code_char.
    rewrite filter_chars_id by exact Hcode.
    apply substring_0_short. lia. }
  split; [exact Hfix|].
  rewrite <- Hfix at 2. unfold sanitizeRoomCode. f_equal. f_equal.
  unfold Js.toUpperCase, Js.toLowerCase.
  clear -Hcode. induction c as [|a c IH]; [reflexivity|].
  simpl in *. apply andb_prop in Hcode as [Ha Hc]. rewrite IH by exact Hc.
  f_equal. revert Ha. clear.
  destruct a as [[] [] [] [] [] [] [] []]; vm_compute; intros; congruence.
Qed.

Lemma createRoomCode_first existing h :
  fst (randomCode 6 "" h) ∉ existing ->
  fst (createRoomCode existing h) = Some (fst (randomCode 6 "" h)).
Proof.
  intros Hfresh. unfold createRoomCode.
  replace (N.to_nat 10000) with (S (N.to_nat 9999))
    by (rewrite <- N2Nat.inj_succ; reflexivity).
  cbn [createRoomCode_attempts]. unfold mbind, M_bind.
  destruct (randomCode 6 "" h) as [next h1]. cbn [fst] in *.
  by rewrite bool_decide_false.
Qed.

(** X4. [createRoomCode]: a code that is returned is not among the existing
    ones, has six characters of the code alphabet, and is what
    [sanitizeRoomCode] makes of itself and of its lowercase spelling, so that
    a player who types it in either case finds the room.  The first draw is
    returned when it is free, which it always is on a server without
    rooms. *)
Theorem createRoomCode_returns_fresh_code (existing : gset string) (h : Host) :
  (forall c h',
      createRoomCode existing h = (Some c, h') ->
      (c ∉ existing)
      /\ String.length c = 6%nat
      /\ Js.all_chars (fun a => Js.includes ROOM_CHARS (String a EmptyString)) c = true
      /\ sanitizeRoomCode c = c
      /\ sanitizeRoomCode (Js.toLowerCase c) = c)
  /\ (fst (randomCode 6 "" h) ∉ existing ->
      fst (createRoomCode existing h) = Some (fst (randomCode 6 "" h)))
  /\ (existing = ∅ -> is_Some (fst (createRoomCode existing h))).
Proof.
  split; [intros c h'; apply createRoomCode_fresh_code|].
  split; [apply createRoomCode_first|].
  intros ->. rewrite createRoomCode_first by apply not_elem_of_empty. by eexists.
Qed.

(** On a server without rooms and with the sample host the first code is
    ["DEEFFG"]. *)
Lemma createRoomCode_returns_fresh_code_witness :
  fst (createRoomCode ∅ (sampleHost 1000 7)) = Some SAMPLE_CODE
  /\ sanitizeRoomCode "deeffg" = SAMPLE_CODE.
Proof.
  destruct (createRoomCode_returns_fresh_code ∅ (sampleHost 1000 7))
    as (Hshape & Hfirst & _).
  assert (Hcode : fst (createRoomCode ∅ (sampleHost 1000 7)) = Some SAMPLE_CODE).
  { rewrite Hfirst by apply not_elem_of_empty. vm_compute. reflexivity. }
  split; [exact Hcode|].
  destruct (createRoomCode ∅ (sampleHost 1000 7)) as [c h'] eqn:E.
  cbn [fst] in Hcode. subst c.
  by destruct (Hshape _ _ eq_refl) as (_ & _ & _ & _ & Hlower).
Defined.

(** ** dictionary.ts *)

Lemma parseWords_elem raw w :
  w ∈ parseWords raw -> Js.test_lower_3 w = true.
Proof.
  unfold parseWords. rewrite elem_of_list_to_set, list_elem_of_In.
  intros H. by apply filter_In in H as [_ H].
Qed.

Lemma test_lower_3_shape w :
  Js.test_lower_3 w = true <->
  Js.all_chars Js.is_lower w = true /\ (3 <= String.length w)%nat.
Proof.
  unfold Js.test_lower_3. rewrite andb_true_iff, Nat.leb_le. reflexivity.
Qed.

Lemma lower_fixed w : Js.all_chars Js.is_lower w = true -> Js.toLowerCase w = w.
Proof.
  intros H. apply (map_chars_id Js.is_lower); [|exact H].
  intros c. destruct c as [[] [] [] [] [] [] [] []]; vm_compute; congruence.
Qed.

(** X6. [createDictionary] (dictionary.ts).  A disabled dictionary has size 0,
    knows every word and has a word for every chunk.  The dictionary is
    enabled only when both word files were read and give at least one word;
    then its size is the number of distinct words of the two files, it knows
    a word exactly when the lowercased word is one of them, whatever the
    case of the query, every word it knows is made of at least three letters
    a-z, and it has a word for a chunk exactly when one of its words contains
    the lowercased chunk and is not among the used words. *)
Theorem createDictionary_contract env localFile packageFile :
  let d := createDictionary env localFile packageFile in
  (dict_enabled d = false ->
     dict_size d = 0%nat
     /\ (forall word, dict_has d word = true)
     /\ (forall chunk used, dict_hasAnyForChunk d chunk used = true))
  /\ (dict_enabled d = true ->
       exists localRaw packageRaw,
         localFile = Some localRaw /\ packageFile = Some packageRaw
         /\ let words := parseWords packageRaw ∪ parseWords localRaw in
            dict_size d = size words
            /\ (0 < dict_size d)%nat
            /\ (forall word, dict_has d word = true <-> Js.toLowerCase word ∈ words)
            /\ (forall word, dict_has d word = true ->
                  Js.test_lower_3 (Js.toLowerCase word) = true)
            /\ (forall word, word ∈ words -> dict_has d (Js.toUpperCase word) = true)
            /\ (forall chunk used,
                  dict_hasAnyForChunk d chunk used = true <->
                  exists word, word ∈ words
                               /\ Js.includes word (Js.toLowerCase chunk) = true
                               /\ word ∉ used)).
Proof.
  cbv zeta. unfold createDictionary.
  destruct (bool_decide (env = Some "false")); cbn [negb].
  { split; [intros _|discriminate]. repeat split. }
  destruct localFile as [localRaw|], packageFile as [packageRaw|];
    try (split; [intros _; repeat split|discriminate]).
  set (words := parseWords packageRaw ∪ parseWords localRaw).
  case_bool_decide as Hsize.
  { split; [intros _; repeat split|discriminate]. }
  split; [discriminate|]. intros _. exists localRaw, packageRaw.
  do 2 (split; [reflexivity|]). cbn [dict_size dict_has dict_hasAnyForChunk].
  assert (Hwf : forall w, w ∈ words -> Js.test_lower_3 w = true).
  { intros w Hw. apply elem_of_union in Hw as [Hw|Hw]; by eapply parseWords_elem. }
  split; [reflexivity|]. split; [lia|].
  split; [intros word; apply bool_decide_eq_true|].
  split; [intros word Hw; apply bool_decide_eq_true in Hw; by apply Hwf|].
  split.
  - intros word Hw. apply bool_decide_eq_true.
    unfold Js.toLowerCase, Js.toUpperCase. rewrite map_chars_compose.
    rewrite (map_chars_ext _ Js.lower_char) by apply lower_upper_char.
    pose proof (Hwf _ Hw) as Hshape. apply test_lower_3_shape in Hshape as [Hlow _].
    change (Js.map_chars Js.lower_char word) with (Js.toLowerCase word).
    by rewrite lower_fixed.
  - intros chunk used.
    set (candidates := List.filter _ (elements words)).
    assert (Hcand : forall w, In w candidates <->
              w ∈ words /\ Js.includes w (Js.toLowerCase chunk) = true).
    { intros w. unfold candidates. rewrite filter_In, <- list_elem_of_In, elem_of_elements.
      reflexivity. }
    case_bool_decide as Hnone.
    { split; [discriminate|]. intros (w & Hw & Hinc & _).
      apply length_zero_iff_nil in Hnone.
      assert (Hin : In w candidates) by (apply Hcand; auto).
      rewrite Hnone in Hin. destruct Hin. }
    case_bool_decide as Hused.
    { split; [intros _|done].
      destruct candidates as [|w rest]; [done|].
      exists w. destruct (proj1 (Hcand w) ltac:(by left)) as [Hw Hinc].
      split; [done|]. split; [done|].
      apply size_empty_inv in Hused. intros Hmem. apply Hused in Hmem. set_solver. }
    rewrite existsb_exists. split.
    + intros (w & Hin & Hnot). apply Hcand in Hin as [Hw Hinc].
      exists w. split; [done|]. split; [done|].
      apply negb_true_iff, bool_decide_eq_false in Hnot. exact Hnot.
    + intros (w & Hw & Hinc & Hnot). exists w. split; [apply Hcand; auto|].
      apply negb_true_iff, bool_decide_eq_false. exact Hnot.
Qed.

(** A server with two word files: ["TEACH"] is found whatever its case,
    ["ok"] is too short to be a word. *)
Lemma createDictionary_contract_witness :
  dict_has (createDictionary None (Some "teach") (Some "ok")) "TEACH" = true.
Proof.
  assert (Hen : dict_enabled (createDictionary None (Some "teach") (Some "ok")) = true)
    by (vm_compute; reflexivity).
  destruct (proj2 (createDictionary_contract None (Some "teach") (Some "ok")) Hen)
    as (localRaw & packageRaw & [= <-] & [= <-] & _ & _ & _ & _ & Hupper & _).
  apply (Hupper "teach"). vm_compute. reflexivity.
Defined.

(** ** The public methods, one event at a time *)

Lemma rooms_step_refl d m : rooms_step d m m.
Proof. intros c r' H. left. exists r'. split; [done|constructor]. Qed.

Lemma rooms_step_set d m k r r' :
  Registry.get k m = Some r -> room_step d r r' ->
  rooms_step d m (Registry.set k r' m).
Proof.
  intros Hget Hstep c r2. rewrite Registry_get_set. case_decide as Hk.
  - intros [= <-]. subst. left. eauto.
  - intros H. left. exists r2. split; [done|constructor].
Qed.

Lemma rooms_step_new d m k r' :
  Registry.get k m = None -> room_born d k r' ->
  rooms_step d m (Registry.set k r' m).
Proof.
  intros Hget Hborn c r2. rewrite Registry_get_set. case_decide as Hk.
  - intros [= <-]. subst. right. auto.
  - intros H. left. exists r2. split; [done|constructor].
Qed.

Lemma touched_rooms_step s s' key :
  touched s s' key -> rooms_step (dictionary s) (rooms s) (rooms s').
Proof.
  intros (room & room' & Hget & Hstep & ->). by eapply rooms_step_set.
Qed.

Lemma sanitizePlayerName_well_named input :
  sanitizePlayerName input ≠ "" -> well_named (sanitizePlayerName input).
Proof.
  intros H. split; [exact H|]. unfold sanitizePlayerName, Js.slice_to. split.
  - rewrite substring_0_length. lia.
  - apply substring_0_all, filter_chars_all.
Qed.

Lemma matchReset_eligible room :
  length (getEligiblePlayers (matchReset room)) = connectedCount room.
Proof.
  unfold getEligiblePlayers, matchReset, connectedCount. cbn [players set_players].
  apply eligible_reset_count.
Qed.

Lemma joinRoom_run socket roomCodeInput nameInput s h res s' h' :
  joinRoom socket roomCodeInput nameInput s h = (res, s', h') ->
  (res_ok res = false /\ s' = s /\ h' = h)
  \/ (res_ok res = true
      /\ touched s s' (sanitizeRoomCode roomCodeInput)
      /\ dictionary s' = dictionary s
      /\ lastSubmitAtBySocket s' = lastSubmitAtBySocket s
      /\ exists room room' playerId joined,
          Registry.get (sanitizeRoomCode roomCodeInput) (rooms s) = Some room
          /\ Registry.get (sanitizeRoomCode roomCodeInput) (rooms s') = Some room'
          /\ res_roomCode res = Some (code room')
          /\ res_playerId res = Some playerId
          /\ players room'
             = players room
               ++ [newcomer playerId (sanitizePlayerName nameInput) socket joined
                     (startingLives (config room))]
          /\ socketSessions s'
             = <[socket:=mkSession (code room') playerId]> (socketSessions s)
          /\ phase room = lobby /\ phase room' = lobby
          /\ (length (players room) < MAX_PLAYERS_PER_ROOM)%nat
          /\ existsb (fun p => sameName (pl_name p) (sanitizePlayerName nameInput))
               (players room) = false
          /\ sanitizePlayerName nameInput ≠ ""
          /\ emptySince room' = None
          /\ config room' = config room /\ hostId room' = hostId room
          /\ code room' = code room).
Proof.
  unfold joinRoom, mret, M_ret.
  case_bool_decide as Hcode; [intros [= <- <- <-]; left; auto|].
  case_bool_decide as Hname; [intros [= <- <- <-]; left; auto|].
  destruct (Registry.get _ (rooms s)) as [room|] eqn:Hget;
    [|intros [= <- <- <-]; left; auto].
  case_bool_decide as Hph; [intros [= <- <- <-]; left; auto|].
  case_bool_decide as Hfull; [intros [= <- <- <-]; left; auto|].
  destruct (existsb _ _) eqn:Hdup; [intros [= <- <- <-]; left; auto|].
  assert (Hlobby : phase room = lobby) by (destruct (phase room); congruence).
  unfold mbind at 1. unfold M_bind at 1.
  pose proof (createPlayerId_nonempty h) as Hid.
  destruct (createPlayerId h) as [playerId h2]. cbn [fst] in Hid.
  run_m. intros [= <- <- <-]. right. split; [reflexivity|].
  split.
  { eexists room, _. split; [exact Hget|]. split; [|reflexivity].
    apply step_join; auto using sanitizePlayerName_well_named. lia. }
  do 2 (split; [reflexivity|]).
  eexists room, _, playerId, _. split; [reflexivity|].
  cbn [rooms set_rooms set_socketSessions bindSocketSession].
  split; [rewrite Registry_get_set, decide_True by reflexivity; reflexivity|].
  do 4 (split; [reflexivity|]). split; [exact Hlobby|]. split; [exact Hlobby|].
  split; [lia|]. split; [exact Hdup|]. split; [exact Hname|]. repeat split.
Qed.

Lemma updateSettings_run socket payload s h res s' h' :
  updateSettings socket payload s h = (res, s', h') ->
  (res_ok res = false /\ s' = s /\ h' = h)
  \/ (res_ok res = true
      /\ touched s s' (sanitizeRoomCode (us_roomCode payload))
      /\ dictionary s' = dictionary s
      /\ lastSubmitAtBySocket s' = lastSubmitAtBySocket s
      /\ socketSessions s' = socketSessions s
      /\ socketOwnsPlayer s socket (sanitizeRoomCode (us_roomCode payload))
           (us_playerId payload) = true
      /\ exists room room',
          Registry.get (sanitizeRoomCode (us_roomCode payload)) (rooms s) = Some room
          /\ Registry.get (sanitizeRoomCode (us_roomCode payload)) (rooms s') = Some room'
          /\ hostId room = us_playerId payload
          /\ turnSeconds (config room')
             = match us_turnSeconds payload with
               | Some v => clampInt v MIN_TURN_SECONDS MAX_TURN_SECONDS
               | None => turnSeconds (config room)
               end
          /\ startingLives (config room')
             = match us_startingLives payload with
               | Some v => clampInt v MIN_STARTING_LIVES MAX_STARTING_LIVES
               | None => startingLives (config room)
               end
          /\ dictionaryEnabled (config room')
             = match us_dictionaryEnabled payload with
               | Some v => v && dict_enabled (dictionary s)
               | None => dictionaryEnabled (config room)
               end
          /\ players room' = players room).
Proof.
  unfold updateSettings, mret, M_ret.
  destruct (Registry.get _ (rooms s)) as [room|] eqn:Hget;
    [|intros [= <- <- <-]; left; auto].
  destruct (socketOwnsPlayer s socket _ _) eqn:Hown; cbn [negb];
    [|intros [= <- <- <-]; left; auto].
  case_bool_decide as Hph; [intros [= <- <- <-]; left; auto|].
  case_bool_decide as Hhost; [intros [= <- <- <-]; left; auto|].
  assert (Hlobby : phase room = lobby) by (destruct (phase room); congruence).
  assert (Hh : hostId room = us_playerId payload).
  { destruct (decide (hostId room = us_playerId payload)); [done|]. by destruct Hhost. }
  run_m. intros [= <- <- <-]. right. split; [reflexivity|].
  split.
  { eexists room, _. split; [exact Hget|]. split; [|reflexivity].
    by apply (step_settings _ room payload). }
  do 4 (split; [reflexivity|]).
  eexists room, _. split; [reflexivity|].
  cbn [rooms set_rooms]. split; [rewrite Registry_get_set; by rewrite decide_True|].
  split; [exact Hh|].
  destruct (us_turnSeconds payload), (us_startingLives payload),
    (us_dictionaryEnabled payload); repeat split.
Qed.

Lemma eligible_reset_head room (ps : list PlayerState) first :
  head (filter (fun p => isEligible p) (map (resetPlayer room) ps)) = Some first ->
  exists p, head (filter (fun p => connected p = true) ps) = Some p
            /\ first = resetPlayer room p.
Proof.
  induction ps as [|p ps IH]; [discriminate|].
  simpl map. rewrite !filter_cons.
  pose proof (resetPlayer_eligible room p) as He.
  destruct (connected p) eqn:Hc.
  - rewrite decide_True by (by apply Is_true_true).
    rewrite decide_True by done. simpl. intros [= <-]. eauto.
  - rewrite decide_False by (rewrite He; auto).
    rewrite decide_False by done. exact IH.
Qed.

Lemma startGame_run socket payload s h res s' h' :
  startGame socket payload s h = (res, s', h') ->
  (res_ok res = false /\ s' = s /\ h' = h)
  \/ (res_ok res = true
      /\ touched s s' (sanitizeRoomCode (pa_roomCode payload))
      /\ dictionary s' = dictionary s
      /\ lastSubmitAtBySocket s' = lastSubmitAtBySocket s
      /\ socketSessions s' = socketSessions s
      /\ socketOwnsPlayer s socket (sanitizeRoomCode (pa_roomCode payload))
           (pa_playerId payload) = true
      /\ exists room room' first,
          Registry.get (sanitizeRoomCode (pa_roomCode payload)) (rooms s) = Some room
          /\ Registry.get (sanitizeRoomCode (pa_roomCode payload)) (rooms s') = Some room'
          /\ hostId room = pa_playerId payload
          /\ phase room = lobby /\ phase room' = in_game
          /\ (MIN_PLAYERS_TO_START <= connectedCount room)%nat
          /\ players room' = map (resetPlayer room) (players room)
          /\ head (filter (fun p => connected p = true) (players room)) = Some first
          /\ activePlayerId room' = Some (pl_id first)
          /\ (exists chunk, currentChunk room' = Some chunk /\ chunk ∈ CHUNKS)
          /\ timerEndsAt room' = Some (fst (Date_now (snd (chooseChunk None h)))
                                       + turnSeconds (config room) * 1000)
          /\ usedWords room' = ∅ /\ usedWordsOrdered room' = []
          /\ winnerId room' = None
          /\ config room' = config room).
Proof.
  unfold startGame, mret, M_ret.
  destruct (Registry.get _ (rooms s)) as [room|] eqn:Hget;
    [|intros [= <- <- <-]; left; auto].
  destruct (socketOwnsPlayer s socket _ _) eqn:Hown; cbn [negb];
    [|intros [= <- <- <-]; left; auto].
  case_bool_decide as Hhost; [intros [= <- <- <-]; left; auto|].
  case_bool_decide as Hph; [intros [= <- <- <-]; left; auto|].
  case_bool_decide as Hcount; [intros [= <- <- <-]; left; auto|].
  assert (Hlobby : phase room = lobby) by (destruct (phase room); congruence).
  assert (Hh : hostId room = pa_playerId payload).
  { destruct (decide (hostId room = pa_playerId payload)); [done|]. by destruct Hhost. }
  change (set_players _ (set_previousChunk None _)) with (matchReset room).
  pose proof (matchReset_eligible room) as Hel.
  destruct (getNextEligiblePlayer (matchReset room) None) as [firstActive|] eqn:Hnext.
  2:{ apply getNextEligiblePlayer_None in Hnext. rewrite Hnext in Hel. simpl in Hel.
      unfold MIN_PLAYERS_TO_START in Hcount. lia. }
  unfold mbind at 1. unfold M_bind at 1.
  destruct (chooseChunk_fresh None h) as (chunk & Hc & _ & Hin).
  destruct (chooseChunk None h) as [c h1]. cbn [fst snd] in *. subst c.
  run_m. intros [= <- <- <-]. right. split; [reflexivity|].
  split.
  { eexists room, _. split; [exact Hget|]. split; [|reflexivity].
    apply (step_start _ room firstActive chunk); auto.
    unfold MIN_PLAYERS_TO_START in *. lia. }
  do 4 (split; [reflexivity|]).
  assert (Hfirst : exists p,
    head (filter (fun p => connected p = true) (players room)) = Some p
    /\ firstActive = resetPlayer
         (set_previousChunk None
            (set_winnerId None (set_usedWordsOrdered []
               (set_usedWords ∅ (set_phase in_game room))))) p).
  { unfold getNextEligiblePlayer in Hnext. case_bool_decide; [discriminate|].
    by apply eligible_reset_head. }
  destruct Hfirst as (first & Hhead & ->).
  eexists room, _, first. split; [reflexivity|].
  cbn [rooms set_rooms]. split; [rewrite Registry_get_set; by rewrite decide_True|].
  split; [exact Hh|]. split; [exact Hlobby|]. split; [reflexivity|].
  split; [unfold MIN_PLAYERS_TO_START in *; lia|].
  split; [reflexivity|]. split; [exact Hhead|]. split; [reflexivity|].
  split; [by exists chunk|]. repeat split.
Qed.

Lemma playAgain_run socket payload s h res s' h' :
  playAgain socket payload s h = (res, s', h') ->
  (res_ok res = false /\ s' = s /\ h' = h)
  \/ (res_ok res = true
      /\ touched s s' (sanitizeRoomCode (pa_roomCode payload))
      /\ dictionary s' = dictionary s
      /\ lastSubmitAtBySocket s' = lastSubmitAtBySocket s
      /\ socketSessions s' = socketSessions s
      /\ socketOwnsPlayer s socket (sanitizeRoomCode (pa_roomCode payload))
           (pa_playerId payload) = true
      /\ exists room room',
          Registry.get (sanitizeRoomCode (pa_roomCode payload)) (rooms s) = Some room
          /\ Registry.get (sanitizeRoomCode (pa_roomCode payload)) (rooms s') = Some room'
          /\ hostId room = pa_playerId payload
          /\ phase room = results /\ phase room' = lobby
          /\ players room' = map (resetPlayer room) (players room)
          /\ activePlayerId room' = None /\ currentChunk room' = None
          /\ previousChunk room' = None /\ timerEndsAt room' = None
          /\ winnerId room' = None
          /\ usedWords room' = ∅ /\ usedWordsOrdered room' = []
          /\ config room' = config room /\ hostId room' = hostId room).
Proof.
  unfold playAgain, mret, M_ret.
  destruct (Registry.get _ (rooms s)) as [room|] eqn:Hget;
    [|intros [= <- <- <-]; left; auto].
  destruct (socketOwnsPlayer s socket _ _) eqn:Hown; cbn [negb];
    [|intros [= <- <- <-]; left; auto].
  case_bool_decide as Hhost; [intros [= <- <- <-]; left; auto|].
  case_bool_decide as Hph; [intros [= <- <- <-]; left; auto|].
  assert (Hres : phase room = results) by (destruct (phase room); congruence).
  assert (Hh : hostId room = pa_playerId payload).
  { destruct (decide (hostId room = pa_playerId payload)); [done|]. by destruct Hhost. }
  change (set_players _ (set_usedWordsOrdered [] _)) with (lobbyAgain room).
  run_m. intros [= <- <- <-]. right. split; [reflexivity|].
  split.
  { eexists room, _. split; [exact Hget|]. split; [|reflexivity].
    by apply (step_again _ room). }
  do 4 (split; [reflexivity|]).
  eexists room, _. split; [reflexivity|].
  cbn [rooms set_rooms]. split; [rewrite Registry_get_set; by rewrite decide_True|].
  split; [exact Hh|]. split; [exact Hres|]. repeat split.
Qed.

Lemma submitWord_run socket payload s h res s' h' :
  submitWord socket payload s h = (res, s', h') ->
  let now := dates h 0%nat in
  let key := sanitizeRoomCode (sw_roomCode payload) in
  dictionary s' = dictionary s
  /\ socketSessions s' = socketSessions s
  /\ ((res_ok res = false /\ rooms s' = rooms s
       /\ (lastSubmitAtBySocket s' = lastSubmitAtBySocket s
           \/ lastSubmitAtBySocket s' = <[socket:=now]> (lastSubmitAtBySocket s)))
      \/ (res_ok res = true
          /\ lastSubmitAtBySocket s' = <[socket:=now]> (lastSubmitAtBySocket s)
          /\ touched s s' key
          /\ exists room i player adv fromHost toHost updated,
              Registry.get key (rooms s) = Some room
              /\ accepted_word s socket payload now room i player
              /\ advanceTurn (wordPlayed room i player (sanitizeWord (sw_word payload)))
                   (Some (pl_id player)) fromHost = (adv, toHost)
              /\ Registry.get key (rooms s') = Some (set_updatedAt updated adv))).
Proof.
  intros Hrun now key. revert Hrun.
  unfold submitWord. unfold mbind at 1. unfold M_bind at 1. unfold Date_now at 1.
  cbn [fst snd]. fold now.
  destruct (_ <? _) eqn:Hrate; unfold mret, M_ret.
  { intros [= <- <- <-]. do 2 (split; [reflexivity|]). left. auto. }
  apply Z.ltb_ge in Hrate.
  cbn [rooms set_lastSubmitAtBySocket].
  destruct (Registry.get _ (rooms s)) as [room|] eqn:Hget;
    [|intros [= <- <- <-]; do 2 (split; [reflexivity|]); left; auto].
  rewrite socketOwnsPlayer_stamp.
  destruct (socketOwnsPlayer s socket _ _) eqn:Hown; cbn [negb];
    [|intros [= <- <- <-]; do 2 (split; [reflexivity|]); left; auto].
  case_bool_decide as Hph;
    [intros [= <- <- <-]; do 2 (split; [reflexivity|]); left; auto|].
  assert (Hphase : phase room = in_game) by (destruct (phase room); congruence).
  destruct (findPlayer room _) as [[i player]|] eqn:Hf;
    [|intros [= <- <- <-]; do 2 (split; [reflexivity|]); left; auto].
  destruct (negb (connected player) || eliminated player) eqn:Hel;
    [intros [= <- <- <-]; do 2 (split; [reflexivity|]); left; auto|].
  case_bool_decide as Hact;
    [intros [= <- <- <-]; do 2 (split; [reflexivity|]); left; auto|].
  assert (Hactive : activePlayerId room = Some (pl_id player)).
  { destruct (decide (activePlayerId room = Some (pl_id player))); [done|].
    by destruct Hact. }
  destruct (Js.test_lower_plus _) eqn:Hshape; cbn [negb];
    [|intros [= <- <- <-]; do 2 (split; [reflexivity|]); left; auto].
  case_bool_decide as Hlen;
    [intros [= <- <- <-]; do 2 (split; [reflexivity|]); left; auto|].
  destruct (match Js.toLowerCase <$> currentChunk room with
            | Some chunk => _
            | None => true
            end) eqn:Hchunk;
    [intros [= <- <- <-]; do 2 (split; [reflexivity|]); left; auto|].
  case_bool_decide as Hused;
    [intros [= <- <- <-]; do 2 (split; [reflexivity|]); left; auto|].
  destruct (dictionaryEnabled (config room) && _) eqn:Hdict;
    [intros [= <- <- <-]; do 2 (split; [reflexivity|]); left; auto|].
  change (set_lastEvent _ (set_players _ (set_usedWordsOrdered _ (set_usedWords _ room))))
    with (wordPlayed room i player (sanitizeWord (sw_word payload))).
  change (pl_id (set_score (score player + 1) player)) with (pl_id player).
  unfold mbind at 1. unfold M_bind at 1.
  destruct (advanceTurn _ _ _) as [adv h1] eqn:Hadv.
  run_m. intros [= <- <- <-]. do 2 (split; [reflexivity|]). right.
  split; [reflexivity|]. split; [reflexivity|].
  assert (Hchunk' : exists chunk,
    currentChunk room = Some chunk /\ Js.toLowerCase chunk ≠ ""
    /\ Js.includes (sanitizeWord (sw_word payload)) (Js.toLowerCase chunk) = true).
  { destruct (currentChunk room) as [chunk|]; [|discriminate]. exists chunk.
    cbn [fmap option_fmap option_map] in Hchunk.
    apply orb_false_iff in Hchunk as [Hne Hinc].
    apply bool_decide_eq_false in Hne. apply negb_false_iff in Hinc. auto. }
  assert (Helig : isEligible player = true).
  { unfold isEligible. apply orb_false_iff in Hel as [Hc He].
    apply negb_false_iff in Hc. by rewrite Hc, He. }
  assert (Hd : dictionaryEnabled (config room) = true ->
               dict_has (dictionary s) (sanitizeWord (sw_word payload)) = true).
  { intros Hen. rewrite Hen in Hdict. cbn in Hdict. by apply negb_false_iff in Hdict. }
  split.
  { eexists room, _. split; [first [exact Hget|reflexivity]|]. split; [|reflexivity].
    pose proof (findPlayer_Some _ _ _ _ Hf) as (Hi & Hid & _).
    destruct Hchunk' as (chunk & Hcur & _ & Hinc).
    eapply (step_submit _ room i player (sanitizeWord (sw_word payload)));
      eauto; try lia.
    by rewrite Hid. }
  exists room, i, player, adv. eexists _, _, _. split; [first [exact Hget|reflexivity]|].
  split; [repeat split; auto; lia|]. split; [exact Hadv|].
  cbn [rooms set_rooms]. rewrite Registry_get_set. by rewrite decide_True.
Qed.

Lemma reconnectName_returned socket room player nameInput :
  returned socket player (reconnectName room player nameInput).
Proof.
  unfold reconnectName, returned. cbv zeta.
  case_bool_decide as Hempty; cbn [negb andb]; [by left|].
  case_bool_decide as Hsame; cbn [negb andb]; [by left|].
  destruct (existsb _ _); [by left|]. right.
  eexists. split; [|reflexivity]. destruct nameInput as [n|]; [|done].
  by apply sanitizePlayerName_well_named.
Qed.

Lemma reconnectPlayer_run socket roomCodeInput playerId nameInput s h res s' h' :
  reconnectPlayer socket roomCodeInput playerId nameInput s h = (res, s', h') ->
  let key := sanitizeRoomCode roomCodeInput in
  dictionary s' = dictionary s
  /\ lastSubmitAtBySocket s' = lastSubmitAtBySocket s
  /\ ((res_ok res = false /\ s' = s /\ h' = h
       /\ (Registry.get key (rooms s) = None
           \/ exists room, Registry.get key (rooms s) = Some room
                           /\ findPlayer room playerId = None))
      \/ (res_ok res = true
          /\ touched s s' key
          /\ exists room i player room' back,
              Registry.get key (rooms s) = Some room
              /\ findPlayer room playerId = Some (i, player)
              /\ Registry.get key (rooms s') = Some room'
              /\ players room' !! i = Some back
              /\ back = set_connected true
                          (set_socketId (Some socket)
                             (reconnectName room player nameInput))
              /\ players room' = <[i:=back]> (players room)
              /\ emptySince room' = None
              /\ socketSessions s'
                 = <[socket := mkSession (code room) playerId]> (socketSessions s)
              /\ res_playerId res = Some playerId)).
Proof.
  intros Hrun key. revert Hrun. unfold reconnectPlayer, mret, M_ret. fold key.
  destruct (Registry.get key (rooms s)) as [room|] eqn:Hget;
    [|intros [= <- <- <-]; do 2 (split; [reflexivity|]); left; auto].
  destruct (findPlayer room playerId) as [[i player]|] eqn:Hf;
    [|intros [= <- <- <-]; do 2 (split; [reflexivity|]); left;
      do 3 (split; [reflexivity|]); right; eauto].
  pose proof (findPlayer_Some _ _ _ _ Hf) as (Hi & Hid & _).
  match goal with
  | |- context [set_socketId (Some socket) ?p] =>
      change p with (reconnectName room player nameInput)
  end.
  set (renamed := reconnectName room player nameInput).
  assert (Hrid : pl_id renamed = pl_id player).
  { unfold renamed, reconnectName. cbv zeta.
    destruct (_ && _); [|done]. by destruct (existsb _ _). }
  set (back := set_connected true (set_socketId (Some socket) renamed)).
  change (pl_id back) with (pl_id renamed). rewrite Hrid, Hid.
  set (hosted := ensureHostIsConnected
        (set_emptySince None (set_players (<[i:=back]> (players room)) room))).
  assert (Hhosted : players hosted = <[i:=back]> (players room)
                    /\ emptySince hosted = None /\ code hosted = code room).
  { unfold hosted, ensureHostIsConnected.
    destruct (getPlayer _ _) as [host|];
      [destruct (connected host); [done|]|];
      by destruct (list_find _ _) as [[? ?]|]. }
  destruct Hhosted as (Hpl & Hem & Hcode).
  unfold mbind at 1. unfold M_bind at 1.
  match goal with
  | |- context [let (_, _) := ?c h in _] =>
      assert (Hre : forall restarted h1, c h = (restarted, h1) ->
        (restarted = hosted
         \/ (phase hosted = in_game /\ activePlayerId hosted = None
             /\ exists next chunk ends,
                 getNextEligiblePlayer hosted None = Some next
                 /\ chunk ∈ CHUNKS
                 /\ restarted
                    = set_timerEndsAt (Some ends)
                        (set_currentChunk (Some chunk)
                           (set_activePlayerId (Some (pl_id next)) hosted)))));
        [|destruct (c h) as [restarted h1] eqn:E1]
  end.
  { intros restarted h1.
    destruct (bool_decide (phase hosted = in_game)
              && bool_decide (activePlayerId hosted = None)) eqn:Hcond;
      [|intros [= <- <-]; by left].
    apply andb_true_iff in Hcond as [Hph Hact].
    apply bool_decide_eq_true in Hph. apply bool_decide_eq_true in Hact.
    destruct (getNextEligiblePlayer hosted None) as [next|] eqn:Hnext;
      [|intros [= <- <-]; by left].
    unfold mbind at 1. unfold M_bind at 1.
    cbn [currentChunk set_activePlayerId].
    destruct (chooseChunk_fresh (currentChunk hosted) h) as (chunk & Hc & _ & Hin).
    destruct (chooseChunk (currentChunk hosted) h) as [c h0]. cbn [fst] in Hc. subst c.
    unfold mbind, M_bind, Date_now. cbn [fst snd]. intros [= <- <-].
    right. do 2 (split; [done|]). exists next, chunk. eexists. split; [done|].
    split; [done|]. reflexivity. }
  specialize (Hre _ _ eq_refl).
  assert (Hrest : players restarted = <[i:=back]> (players room)
                  /\ emptySince restarted = None /\ code restarted = code room).
  { destruct Hre as [->|(_ & _ & next & chunk & ends & _ & _ & ->)]; auto. }
  destruct Hrest as (Hpl' & Hem' & Hcode').
  run_m. intros [= <- <- <-]. do 2 (split; [reflexivity|]). right.
  split; [reflexivity|]. split.
  { eexists room, _. split; [first [exact Hget|reflexivity]|]. split; [|reflexivity].
    eapply (step_reconnect _ room i player renamed socket restarted); eauto.
    apply reconnectName_returned. }
  eexists room, i, player, _, back. split; [first [exact Hget|reflexivity]|].
  split; [first [exact Hf|reflexivity]|].
  cbn [rooms set_rooms]. split; [rewrite Registry_get_set; by rewrite decide_True|].
  cbn [players set_updatedAt emptySince]. rewrite Hpl'.
  split; [apply list_lookup_insert_eq; by eapply lookup_lt_Some|].
  repeat split; auto.
Qed.

Lemma createRoom_run socket nameInput s h res s' h' :
  createRoom socket nameInput s h = (res, s', h') ->
  dictionary s' = dictionary s
  /\ lastSubmitAtBySocket s' = lastSubmitAtBySocket s
  /\ ((s' = s
       /\ ((res = None /\ sanitizePlayerName nameInput ≠ "")
           \/ (sanitizePlayerName nameInput = "" /\ h' = h
               /\ exists r, res = Some r /\ res_ok r = false)))
      \/ exists r roomCode playerId room,
          res = Some r /\ res_ok r = true
          /\ sanitizePlayerName nameInput ≠ ""
          /\ res_roomCode r = Some roomCode /\ res_playerId r = Some playerId
          /\ Registry.get roomCode (rooms s) = None
          /\ room_born (dictionary s) roomCode room
          /\ hostId room = playerId
          /\ (exists joined,
                players room
                = [newcomer playerId (sanitizePlayerName nameInput) socket joined
                     DEFAULT_STARTING_LIVES])
          /\ rooms s' = Registry.set roomCode room (rooms s)
          /\ socketSessions s'
             = <[socket := mkSession roomCode playerId]> (socketSessions s)).
Proof.
  unfold createRoom. case_bool_decide as Hname.
  { unfold mret, M_ret. intros [= <- <- <-]. do 2 (split; [reflexivity|]).
    left. split; [reflexivity|]. right. eauto. }
  unfold mbind at 1. unfold M_bind at 1.
  destruct (createRoomCode _ h) as [[c|] h1] eqn:Ecode.
  2:{ unfold mret, M_ret. intros [= <- <- <-]. do 2 (split; [reflexivity|]).
      left. auto. }
  apply createRoomCode_attempts_shape in Ecode as (Hfresh & Hlen & Hchars).
  unfold mbind at 1. unfold M_bind at 1.
  pose proof (createPlayerId_nonempty h1) as Hid.
  destruct (createPlayerId h1) as [playerId h2]. cbn [fst] in Hid.
  run_m. intros [= <- <- <-]. do 2 (split; [reflexivity|]). right.
  eexists _, c, playerId, _. do 2 (split; [reflexivity|]). split; [exact Hname|].
  do 2 (split; [reflexivity|]).
  split.
  { apply Registry_get_None. intros Hin. apply Hfresh.
    by apply elem_of_list_to_set. }
  split.
  { exists playerId, (sanitizePlayerName nameInput), socket. eexists _, _, _.
    split; [done|]. split; [by apply sanitizePlayerName_well_named|].
    do 2 (split; [done|]). reflexivity. }
  split; [reflexivity|]. split; [by eexists|]. split; reflexivity.
Qed.

Lemma handleDisconnect_step socket s h s' h' :
  handleDisconnect socket s h = (s', h') ->
  (rooms s' = rooms s /\ h' = h
   /\ forall session room i player, ~ live_session s socket session room i player)
  \/ exists session room i player,
      live_session s socket session room i player
      /\ touched s s' (sess_roomCode session)
      /\ exists room',
          Registry.get (sess_roomCode session) (rooms s') = Some room'
          /\ players room' = <[i:=leftPlayer player]> (players room)
          /\ config room' = config room
          /\ (emptySince room' = None <-> connectedCount room' ≠ 0%nat).
Proof.
  unfold handleDisconnect, live_session.
  cbn [rooms set_socketSessions set_lastSubmitAtBySocket].
  destruct (socketSessions s !! socket) as [session|] eqn:Hs;
    [|intros [= <- <-]; left; repeat (split; [reflexivity|]);
      intros ???? (? & _); congruence].
  destruct (Registry.get _ (rooms s)) as [room|] eqn:Hget;
    [|intros [= <- <-]; left; repeat (split; [reflexivity|]);
      intros ???? (? & ? & _); congruence].
  destruct (findPlayer room _) as [[i player]|] eqn:Hf;
    [|intros [= <- <-]; left; repeat (split; [reflexivity|]);
      intros ???? (? & ? & ? & _); congruence].
  case_bool_decide as Hsock;
    [intros [= <- <-]; left; repeat (split; [reflexivity|]);
     intros ???? (? & ? & ? & ?); congruence|].
  assert (Hsocket : socketId player = Some socket).
  { destruct (decide (socketId player = Some socket)); [done|]. by destruct Hsock. }
  pose proof (findPlayer_Some _ _ _ _ Hf) as (Hi & Hid & _).
  change (set_connected false (set_socketId None player)) with (leftPlayer player).
  change (pl_id (leftPlayer player)) with (pl_id player).
  change (pl_name (leftPlayer player)) with (pl_name player).
  match goal with
  | |- context [if bool_decide (phase ?r = in_game) then _ else _] =>
      change r with (afterLeaving room i player)
  end.
  set (hosted := afterLeaving room i player).
  assert (Hhosted : players hosted = <[i:=leftPlayer player]> (players room)).
  { unfold hosted. by destruct (afterLeaving_same room i player) as (-> & _). }
  unfold mbind at 1. unfold M_bind at 1.
  match goal with
  | |- context [let (_, _) := ?c h in _] => destruct (c h) as [mid h1] eqn:E1
  end.
  assert (Hmid :
    (mid = hosted
      /\ (phase hosted ≠ in_game
          \/ (activePlayerId hosted ≠ Some (pl_id player)
              /\ (2 <= length (getEligiblePlayers hosted))%nat)))
     \/ (phase hosted = in_game
         /\ activePlayerId hosted = Some (pl_id player)
         /\ advanceTurn
              (set_lastEvent
                 (pl_name player +:+ " disconnected. Bomb moved to next player.")
                 hosted)
              (Some (pl_id player)) h
            = (mid, h1))
     \/ (phase hosted = in_game
         /\ activePlayerId hosted ≠ Some (pl_id player)
         /\ (length (getEligiblePlayers hosted) <= 1)%nat
         /\ finishGame hosted (head (getEligiblePlayers hosted)) h = (mid, h1))).
  { revert E1. case_bool_decide as Hph.
    - case_bool_decide as Hact.
      + intros Hadv. right. left. auto.
      + case_bool_decide as Hlen.
        * intros Hfin. right. right. auto.
        * intros [= <- <-]. left. split; [done|]. right. split; [done|]. lia.
    - intros [= <- <-]. left. auto. }
  assert (Hplayers : players mid = players hosted).
  { destruct Hmid as [[-> _]|[(_ & _ & Hadv)|(_ & _ & _ & Hfin)]]; [done| |].
    - apply advanceTurn_advanced in Hadv. by rewrite (adv_players _ _ _ Hadv).
    - rewrite finishGame_run in Hfin. by injection Hfin as <- _. }
  assert (Hconfig : config mid = config hosted).
  { destruct Hmid as [[-> _]|[(_ & _ & Hadv)|(_ & _ & _ & Hfin)]]; [done| |].
    - apply advanceTurn_advanced in Hadv. by rewrite (adv_config _ _ _ Hadv).
    - rewrite finishGame_run in Hfin. by injection Hfin as <- _. }
  unfold mbind at 1. unfold M_bind at 1.
  match goal with
  | |- context [let (_, _) := ?c h1 in _] =>
      assert (Hem : fst (c h1) = None <-> connectedCount mid ≠ 0%nat);
        [|destruct (c h1) as [emptied h2]; cbn [fst] in Hem]
  end.
  { destruct (bool_decide_reflect (connectedCount mid = 0%nat)) as [Hzero|Hzero].
    - unfold mbind, M_bind, mret, M_ret, Date_now. cbn [fst snd].
      split; [discriminate|]. intros Hne. by destruct Hne.
    - unfold mret, M_ret. cbn [fst]. done. }
  run_m. intros [= <- <-]. right. exists session, room, i, player.
  split; [done|]. split.
  { eexists room, _. split; [exact Hget|]. split; [|reflexivity].
    eapply (step_leave _ room i player mid); eauto. }
  eexists. cbn [rooms set_rooms].
  split; [rewrite Registry_get_set; by rewrite decide_True|].
  split; [cbn [players set_updatedAt set_emptySince]; by rewrite Hplayers, Hhosted|].
  split; [|exact Hem].
  cbn [config set_updatedAt set_emptySince]. rewrite Hconfig.
  unfold hosted. by destruct (afterLeaving_same room i player) as (_ & -> & _).
Qed.

Lemma tickRooms_step d m h m' h' :
  tickRooms m h = (m', h') -> rooms_step d m m'.
Proof.
  revert h m' h'. induction m as [|[k room] m IH]; intros h m' h'; simpl.
  - intros [= <- <-]. apply rooms_step_refl.
  - unfold mbind, M_bind, mret, M_ret.
    destruct (tickRoom room h) as [room1 h1] eqn:E1.
    destruct (tickRooms m h1) as [m1 h2] eqn:E2. intros [= <- <-].
    intros c r'. simpl. case_decide as Hk.
    + intros [= <-]. left. exists room. split; [done|].
      apply tickRoom_run in E1 as [->|(h3 & h4 & H)]; [constructor|].
      by eapply step_expire.
    + intros Hget. by eapply IH.
Qed.

Lemma after_rooms_step e s h :
  rooms_step (dictionary s) (rooms s) (rooms (after e s h))
  /\ dictionary (after e s h) = dictionary s.
Proof.
  unfold after, dispatch, acked, silent.
  destruct e; unfold mbind, M_bind, mret, M_ret.
  - destruct (createRoom socket name s h) as [[res s'] h'] eqn:E. cbn [fst snd].
    apply createRoom_run in E as (Hd & _ & [[-> _]|Hnew]).
    + split; [apply rooms_step_refl|done].
    + destruct Hnew as (r & c & p & room & _ & _ & _ & _ & _ & Hnone & Hborn & _ & _ & -> & _).
      split; [by apply rooms_step_new|done].
  - destruct (joinRoom socket roomCode name s h) as [[res s'] h'] eqn:E. cbn [fst snd].
    apply joinRoom_run in E as [(_ & -> & _)|(_ & Ht & Hd & _)].
    + split; [apply rooms_step_refl|done].
    + split; [by eapply touched_rooms_step|done].
  - destruct (reconnectPlayer socket roomCode playerId name s h) as [[res s'] h'] eqn:E.
    cbn [fst snd].
    apply reconnectPlayer_run in E as (Hd & _ & [(_ & -> & _)|(_ & Ht & _)]).
    + split; [apply rooms_step_refl|done].
    + split; [by eapply touched_rooms_step|done].
  - destruct (updateSettings socket payload s h) as [[res s'] h'] eqn:E. cbn [fst snd].
    apply updateSettings_run in E as [(_ & -> & _)|(_ & Ht & Hd & _)].
    + split; [apply rooms_step_refl|done].
    + split; [by eapply touched_rooms_step|done].
  - destruct (startGame socket payload s h) as [[res s'] h'] eqn:E. cbn [fst snd].
    apply startGame_run in E as [(_ & -> & _)|(_ & Ht & Hd & _)].
    + split; [apply rooms_step_refl|done].
    + split; [by eapply touched_rooms_step|done].
  - destruct (submitWord socket payload s h) as [[res s'] h'] eqn:E. cbn [fst snd].
    apply submitWord_run in E as (Hd & _ & [(_ & -> & _)|(_ & _ & Ht & _)]).
    + split; [apply rooms_step_refl|done].
    + split; [by eapply touched_rooms_step|done].
  - destruct (playAgain socket payload s h) as [[res s'] h'] eqn:E. cbn [fst snd].
    apply playAgain_run in E as [(_ & -> & _)|(_ & Ht & Hd & _)].
    + split; [apply rooms_step_refl|done].
    + split; [by eapply touched_rooms_step|done].
  - destruct (handleDisconnect socket s h) as [s' h'] eqn:E. cbn [fst snd].
    pose proof (handleDisconnect_run _ _ _ _ _ E) as (Hd & _).
    apply handleDisconnect_step in E as [(-> & _)|(? & ? & ? & ? & _ & Ht & _)].
    + split; [apply rooms_step_refl|done].
    + split; [by eapply touched_rooms_step|done].
  - unfold tick. unfold mbind, M_bind, mret, M_ret.
    destruct (tickRooms (rooms s) h) as [m h1] eqn:E. cbn.
    split; [by eapply tickRooms_step|done].
  - unfold cleanupRooms. run_m. split; [|done].
    intros c r' H. apply cleanup_fold_get in H. left. exists r'.
    split; [done|constructor].
Qed.

(** ** The turn engine and what it keeps *)

Lemma kept_refl r : kept r r.
Proof. repeat split. Qed.

Lemma ensureHostIsConnected_kept room : kept room (ensureHostIsConnected room).
Proof.
  unfold ensureHostIsConnected.
  destruct (getPlayer room (hostId room)) as [host|];
    [destruct (connected host); [apply kept_refl|]|];
    destruct (list_find _ _) as [[? ?]|]; repeat split.
Qed.

Lemma afterLeaving_kept room i player :
  kept (set_players (<[i:=leftPlayer player]> (players room)) room)
    (afterLeaving room i player).
Proof.
  unfold afterLeaving. cbv zeta. case_bool_decide.
  - apply ensureHostIsConnected_kept.
  - apply kept_refl.
Qed.

(** A turn advance: the chunk, when there is one, comes from [CHUNKS]. *)
Lemma advanceTurn_chunk room fromId h room' h' c :
  advanceTurn room fromId h = (room', h') ->
  currentChunk room' = Some c -> c ∈ CHUNKS.
Proof.
  unfold advanceTurn. case_bool_decide as Hlen.
  - rewrite finishGame_run. by intros [= <- <-].
  - destruct (getNextEligiblePlayer room fromId) as [next|];
      [|rewrite finishGame_run; by intros [= <- <-]].
    unfold mbind at 1. unfold M_bind at 1.
    cbn [previousChunk set_previousChunk set_activePlayerId currentChunk].
    destruct (chooseChunk_fresh (currentChunk room) h) as (chunk & Hc & _ & Hin).
    destruct (chooseChunk (currentChunk room) h) as [c0 h0]. cbn [fst] in Hc. subst c0.
    unfold mbind, M_bind, mret, M_ret, Date_now. cbn [fst snd].
    intros [= <- <-]. cbn. by intros [= <-].
Qed.

(** The three ways a timer expiry goes: nothing happens; the bomb moves on
    from an unavailable holder; the holder loses a life and the bomb moves
    on. *)
Lemma handleTimerExpiry_shape room h room' h' :
  handleTimerExpiry room h = (room', h') ->
  room' = room
  \/ (phase room = in_game
      /\ exists a adv h1 h2 t,
          activePlayerId room = Some a
          /\ ((advanceTurn room (Some a) h1 = (adv, h2)
               /\ room' = set_updatedAt t (set_lastEvent UNAVAILABLE_EVENT adv))
              \/ exists i active,
                  players room !! i = Some active
                  /\ pl_id active = a
                  /\ isEligible active = true
                  /\ advanceTurn
                       (set_lastEvent (explosionEvent active)
                          (set_players (<[i:=exploded active]> (players room)) room))
                       (Some a) h1 = (adv, h2)
                  /\ room' = set_updatedAt t adv)).
Proof.
  unfold handleTimerExpiry.
  case_bool_decide as Hph; [intros [= <- <-]; by left|].
  destruct (activePlayerId room) as [a|] eqn:Ha; [|intros [= <- <-]; by left].
  case_bool_decide as Hempty; [intros [= <- <-]; by left|].
  assert (Hphase : phase room = in_game) by (destruct (phase room); congruence).
  intros Hrun. right. split; [done|]. exists a.
  assert (Hun : forall room' h',
    (let (room1, h1) := advanceTurn room (Some a) h in
     (set_updatedAt (dates h1 0%nat) (set_lastEvent UNAVAILABLE_EVENT room1),
      mkHost (fun n => dates h1 (S n)) (randoms h1) (toString36 h1) (outbox h1)))
    = (room', h') ->
    exists adv h1 h2 t,
      Some a = Some a
      /\ ((advanceTurn room (Some a) h1 = (adv, h2)
           /\ room' = set_updatedAt t (set_lastEvent UNAVAILABLE_EVENT adv))
          \/ exists i active,
              players room !! i = Some active
              /\ pl_id active = a
              /\ isEligible active = true
              /\ advanceTurn
                   (set_lastEvent (explosionEvent active)
                      (set_players (<[i:=exploded active]> (players room)) room))
                   (Some a) h1 = (adv, h2)
              /\ room' = set_updatedAt t adv)).
  { intros r1 h1. destruct (advanceTurn room (Some a) h) as [adv h2] eqn:E.
    intros [= <- <-]. exists adv, h, h2. eexists. split; [done|]. left. eauto. }
  destruct (findPlayer room a) as [[i active]|] eqn:Hf.
  2:{ revert Hrun. unfold_m. cbn [fst snd]. apply Hun. }
  destruct (negb (connected active) || eliminated active) eqn:Hel.
  { revert Hrun. unfold_m. cbn [fst snd]. apply Hun. }
  pose proof (findPlayer_Some _ _ _ _ Hf) as (Hi & Hid & _).
  revert Hrun.
  change (if bool_decide (lives (set_lives (Z.max 0 (lives active - 1)) active) = 0)
          then set_eliminated true (set_lives (Z.max 0 (lives active - 1)) active)
          else set_lives (Z.max 0 (lives active - 1)) active)
    with (exploded active).
  rewrite exploded_id.
  change (if bool_decide (lives (exploded active) = 0)
          then pl_name (exploded active) +:+ " exploded and was eliminated."
          else pl_name (exploded active) +:+ " exploded and lost a life.")
    with (explosionEvent active).
  unfold_m.
  destruct (advanceTurn _ (Some (pl_id active)) h) as [adv h2] eqn:E.
  cbn [fst snd]. intros [= <- <-].
  exists adv, h, h2. eexists. split; [done|]. right. exists i, active.
  split; [done|]. split; [done|]. split.
  { unfold isEligible. apply orb_false_iff in Hel as [Hc He].
    apply negb_false_iff in Hc. by rewrite Hc, He. }
  rewrite <- Hid. split; [exact E|reflexivity].
Qed.

Lemma advanced_same_frame room room' fromId :
  advanced room room' fromId -> same_frame room room'.
Proof. intros [? ? ? ? ? ? ? _]. repeat split; assumption. Qed.

Lemma same_frame_wf d c r r' :
  same_frame r r' ->
  (code r = c -> code r' = c)
  /\ (config_wf d (config r) -> config_wf d (config r'))
  /\ (roster_wf r -> roster_wf r')
  /\ (log_wf r -> log_wf r')
  /\ (host_wf r -> host_wf r')
  /\ (empty_wf r -> empty_wf r').
Proof.
  intros (Hc & Hp & Hcfg & Hh & Hu & Ho & He).
  unfold roster_wf, log_wf, host_wf, empty_wf, connectedCount.
  rewrite Hc, Hp, Hcfg, Hh, Hu, Ho, He. tauto.
Qed.

Lemma totalScore_app ps qs : totalScore (ps ++ qs) = totalScore ps + totalScore qs.
Proof. induction ps as [|p ps IH]; simpl; [reflexivity|]. rewrite IH. lia. Qed.

Lemma totalScore_insert ps i p p' :
  ps !! i = Some p ->
  totalScore (<[i:=p']> ps) = totalScore ps - score p + score p'.
Proof.
  revert i. induction ps as [|q ps IH]; intros [|i]; simpl; try discriminate.
  - intros [= ->]. lia.
  - intros H. rewrite (IH i H). lia.
Qed.

Lemma totalScore_reset room ps : totalScore (map (resetPlayer room) ps) = 0.
Proof. induction ps as [|p ps IH]; simpl; [reflexivity|]. by rewrite IH. Qed.

Lemma connected_insert_count (ps : list PlayerState) i p p' :
  ps !! i = Some p -> connected p' = connected p ->
  length (filter (fun q => connected q = true) (<[i:=p']> ps))
  = length (filter (fun q => connected q = true) ps).
Proof.
  revert i. induction ps as [|q ps IH]; intros [|i]; simpl; try discriminate.
  - intros [= ->] Hc. rewrite !filter_cons. rewrite Hc.
    destruct (connected p); by repeat case_decide.
  - intros H Hc. rewrite !filter_cons. specialize (IH i H Hc).
    case_decide; simpl; by rewrite IH.
Qed.

Lemma connected_reset_count room (ps : list PlayerState) :
  length (filter (fun q => connected q = true) (map (resetPlayer room) ps))
  = length (filter (fun q => connected q = true) ps).
Proof.
  induction ps as [|p ps IH]; [reflexivity|].
  simpl map. rewrite !filter_cons.
  change (connected (resetPlayer room p)) with (connected p).
  case_decide; simpl; by rewrite IH.
Qed.

Lemma connected_insert_positive (ps : list PlayerState) i p p' :
  ps !! i = Some p -> connected p' = true ->
  length (filter (fun q => connected q = true) (<[i:=p']> ps)) ≠ 0%nat.
Proof.
  intros Hi Hc Hlen. apply length_zero_iff_nil in Hlen.
  rewrite filter_eq_nil in Hlen. apply (Hlen p'); [|exact Hc].
  by eapply elem_of_insert_self.
Qed.

Lemma eligible_insert_lose (ps : list PlayerState) i p p' :
  ps !! i = Some p ->
  (length (filter (fun q => isEligible q) ps)
   <= S (length (filter (fun q => isEligible q) (<[i:=p']> ps))))%nat.
Proof.
  revert i. induction ps as [|q ps IH]; intros [|i]; simpl; try discriminate.
  - intros [= ->]. rewrite !filter_cons. repeat case_decide; simpl; lia.
  - intros H. rewrite !filter_cons. specialize (IH i H).
    case_decide; simpl; lia.
Qed.

Lemma id_insert (ps : list PlayerState) i q x a :
  ps !! i = Some q -> pl_id x = pl_id q ->
  (exists w, w ∈ ps /\ pl_id w = a) ->
  exists w, w ∈ <[i:=x]> ps /\ pl_id w = a.
Proof.
  intros Hi Hid (w & Hw & Ha).
  destruct (decide (w = q)) as [->|Hne].
  - exists x. split; [by eapply elem_of_insert_self|congruence].
  - exists w. split; [by eapply elem_of_insert_other|done].
Qed.

Lemma Forall_insert_same {P : PlayerState -> Prop} (ps : list PlayerState) i x :
  Forall P ps -> P x -> Forall P (<[i:=x]> ps).
Proof.
  intros Hall Hx. apply Forall_forall. intros y Hy.
  apply list_elem_of_lookup in Hy as [j Hj].
  destruct (decide (i = j)) as [->|Hne].
  - destruct (decide (j < length ps)%nat).
    + rewrite list_lookup_insert_eq in Hj by done. congruence.
    + rewrite list_insert_ge in Hj by lia.
      rewrite Forall_lookup in Hall. by eapply Hall.
  - rewrite list_lookup_insert_ne in Hj by done.
    rewrite Forall_lookup in Hall. by eapply Hall.
Qed.

(** The fields of a room under the assignments that end [startGame] and
    [playAgain]. *)
Lemma started_fields r a c e m t :
  let r' :=
    set_updatedAt t
      (set_lastEvent m
         (set_timerEndsAt e (set_currentChunk c (set_activePlayerId a r)))) in
  code r' = code r /\ players r' = players r /\ config r' = config r
  /\ hostId r' = hostId r /\ phase r' = phase r /\ activePlayerId r' = a
  /\ currentChunk r' = c /\ previousChunk r' = previousChunk r
  /\ timerEndsAt r' = e /\ winnerId r' = winnerId r
  /\ usedWords r' = usedWords r /\ usedWordsOrdered r' = usedWordsOrdered r
  /\ emptySince r' = emptySince r.
Proof. destruct r. repeat split. Qed.

Lemma stamped_fields r m t :
  let r' := set_updatedAt t (set_lastEvent m r) in
  code r' = code r /\ players r' = players r /\ config r' = config r
  /\ hostId r' = hostId r /\ phase r' = phase r
  /\ activePlayerId r' = activePlayerId r
  /\ currentChunk r' = currentChunk r /\ previousChunk r' = previousChunk r
  /\ timerEndsAt r' = timerEndsAt r /\ winnerId r' = winnerId r
  /\ usedWords r' = usedWords r /\ usedWordsOrdered r' = usedWordsOrdered r
  /\ emptySince r' = emptySince r.
Proof. destruct r. repeat split. Qed.

Lemma matchReset_fields room :
  code (matchReset room) = code room
  /\ players (matchReset room) = map (resetPlayer room) (players room)
  /\ config (matchReset room) = config room
  /\ hostId (matchReset room) = hostId room
  /\ phase (matchReset room) = in_game
  /\ previousChunk (matchReset room) = None
  /\ winnerId (matchReset room) = None
  /\ usedWords (matchReset room) = ∅
  /\ usedWordsOrdered (matchReset room) = []
  /\ emptySince (matchReset room) = emptySince room.
Proof. destruct room. repeat split. Qed.

Lemma lobbyAgain_fields room :
  code (lobbyAgain room) = code room
  /\ players (lobbyAgain room) = map (resetPlayer room) (players room)
  /\ config (lobbyAgain room) = config room
  /\ hostId (lobbyAgain room) = hostId room
  /\ phase (lobbyAgain room) = lobby
  /\ activePlayerId (lobbyAgain room) = None
  /\ currentChunk (lobbyAgain room) = None
  /\ previousChunk (lobbyAgain room) = None
  /\ timerEndsAt (lobbyAgain room) = None
  /\ winnerId (lobbyAgain room) = None
  /\ usedWords (lobbyAgain room) = ∅
  /\ usedWordsOrdered (lobbyAgain room) = []
  /\ emptySince (lobbyAgain room) = emptySince room.
Proof. destruct room. repeat split. Qed.

(** ** What an event keeps of a room *)

Lemma settingsApplied_frame d payload room :
  code (settingsApplied d payload room) = code room
  /\ players (settingsApplied d payload room) = players room
  /\ hostId (settingsApplied d payload room) = hostId room
  /\ phase (settingsApplied d payload room) = phase room
  /\ activePlayerId (settingsApplied d payload room) = activePlayerId room
  /\ currentChunk (settingsApplied d payload room) = currentChunk room
  /\ previousChunk (settingsApplied d payload room) = previousChunk room
  /\ timerEndsAt (settingsApplied d payload room) = timerEndsAt room
  /\ winnerId (settingsApplied d payload room) = winnerId room
  /\ usedWords (settingsApplied d payload room) = usedWords room
  /\ usedWordsOrdered (settingsApplied d payload room) = usedWordsOrdered room
  /\ emptySince (settingsApplied d payload room) = emptySince room.
Proof.
  unfold settingsApplied.
  destruct (us_turnSeconds payload), (us_startingLives payload),
    (us_dictionaryEnabled payload); repeat split.
Qed.

Lemma settingsApplied_config d payload room :
  config_wf d (config room) -> config_wf d (config (settingsApplied d payload room)).
Proof.
  intros (Ht & Hl & Hd). unfold settingsApplied, config_wf.
  pose proof (fun v => clampInt_bounds v MIN_TURN_SECONDS MAX_TURN_SECONDS) as Hct.
  pose proof (fun v => clampInt_bounds v MIN_STARTING_LIVES MAX_STARTING_LIVES) as Hcl.
  unfold MIN_TURN_SECONDS, MAX_TURN_SECONDS, MIN_STARTING_LIVES, MAX_STARTING_LIVES in *.
  destruct (us_turnSeconds payload) as [t|], (us_startingLives payload) as [l|],
    (us_dictionaryEnabled payload) as [b|];
    cbn [config set_config turnSeconds startingLives dictionaryEnabled
         set_turnSeconds set_startingLives set_dictionaryEnabled];
    repeat split; try apply Hct; try apply Hcl; try lia; try tauto;
    try (intros Hb; apply andb_true_iff in Hb; tauto).
Qed.

(** The room [mid] in which [handleDisconnect] has run the turn engine on
    [hosted]. *)
Lemma leave_frame hosted player mid fromHost toHost :
  (mid = hosted
   /\ (phase hosted ≠ in_game
       \/ (activePlayerId hosted ≠ Some (pl_id player)
           /\ (2 <= length (getEligiblePlayers hosted))%nat)))
  \/ (phase hosted = in_game
      /\ activePlayerId hosted = Some (pl_id player)
      /\ advanceTurn
           (set_lastEvent
              (pl_name player +:+ " disconnected. Bomb moved to next player.")
              hosted)
           (Some (pl_id player)) fromHost
         = (mid, toHost))
  \/ (phase hosted = in_game
      /\ activePlayerId hosted ≠ Some (pl_id player)
      /\ (length (getEligiblePlayers hosted) <= 1)%nat
      /\ finishGame hosted (head (getEligiblePlayers hosted)) fromHost
         = (mid, toHost)) ->
  same_frame hosted mid
  /\ (mid = hosted
      \/ (phase hosted = in_game
          /\ exists message fromId,
              advanceTurn (set_lastEvent message hosted) fromId fromHost
              = (mid, toHost))).
Proof.
  intros [[-> _]|[(Hph & _ & Hadv)|(Hph & _ & Hlen & Hfin)]].
  - split; [repeat split|by left].
  - split; [|right; eauto].
    apply advanceTurn_advanced in Hadv. by apply advanced_same_frame in Hadv.
  - assert (Hadv : advanceTurn (set_lastEvent (lastEvent hosted) hosted) None fromHost
                   = (mid, toHost)).
    { unfold advanceTurn.
      change (getEligiblePlayers (set_lastEvent (lastEvent hosted) hosted))
        with (getEligiblePlayers hosted).
      rewrite bool_decide_true by exact Hlen.
      rewrite finishGame_run in *. injection Hfin as <- <-. by destruct hosted. }
    split; [|right; eauto].
    apply advanceTurn_advanced in Hadv. by apply advanced_same_frame in Hadv.
Qed.

Lemma afterLeaving_frame room i player :
  code (afterLeaving room i player) = code room
  /\ players (afterLeaving room i player) = <[i:=leftPlayer player]> (players room)
  /\ config (afterLeaving room i player) = config room
  /\ phase (afterLeaving room i player) = phase room
  /\ activePlayerId (afterLeaving room i player) = activePlayerId room
  /\ currentChunk (afterLeaving room i player) = currentChunk room
  /\ previousChunk (afterLeaving room i player) = previousChunk room
  /\ timerEndsAt (afterLeaving room i player) = timerEndsAt room
  /\ winnerId (afterLeaving room i player) = winnerId room
  /\ usedWords (afterLeaving room i player) = usedWords room
  /\ usedWordsOrdered (afterLeaving room i player) = usedWordsOrdered room
  /\ emptySince (afterLeaving room i player) = emptySince room.
Proof. apply (afterLeaving_kept room i player). Qed.

Lemma room_step_code d r r' : room_step d r r' -> code r' = code r.
Proof.
  destruct 1 as [room
    | room playerId name socket joined updated Hph Hlen Hid Hname Hdup
    | room i player renamed socket restarted updated Hi Hret back hosted Hre
    | room payload updated Hph
    | room firstActive chunk ends updated Hph Hcount Hnext Hin
    | room i player word adv fromHost toHost updated Hph Hf He Ha Hw Hl Hc Hu Hd Hadv
    | room updated Hph
    | room i player mid fromHost toHost emptied updated Hi Hs hosted Hmid Hem
    | room fromHost room' toHost Hexp]; try reflexivity.
  - cbn [code set_updatedAt].
    assert (Hh : code hosted = code room)
      by (unfold hosted; by rewrite (proj1 (ensureHostIsConnected_kept _))).
    by destruct Hre as [->|(_ & _ & ? & ? & ? & _ & _ & ->)].
  - cbn [code set_updatedAt set_lastEvent]. apply settingsApplied_frame.
  - apply advanceTurn_advanced in Hadv. cbn [code set_updatedAt].
    by rewrite (adv_code _ _ _ Hadv).
  - apply leave_frame in Hmid as [(Hc & _) _]. cbn [code set_updatedAt set_emptySince].
    rewrite Hc. apply afterLeaving_frame.
  - apply handleTimerExpiry_shape in Hexp
      as [->|(_ & a & adv & h1 & h2 & t & _ & [(Hadv & ->)|(i & p & _ & _ & _ & Hadv & ->)])];
      [done| |]; apply advanceTurn_advanced in Hadv; cbn [code set_updatedAt set_lastEvent];
      by rewrite (adv_code _ _ _ Hadv).
Qed.

Lemma room_step_config d r r' :
  room_step d r r' ->
  (config_wf d (config r) -> config_wf d (config r'))
  /\ (phase r ≠ lobby -> config r' = config r).
Proof.
  destruct 1 as [room
    | room playerId name socket joined updated Hph Hlen Hid Hname Hdup
    | room i player renamed socket restarted updated Hi Hret back hosted Hre
    | room payload updated Hph
    | room firstActive chunk ends updated Hph Hcount Hnext Hin
    | room i player word adv fromHost toHost updated Hph Hf He Ha Hw Hl Hc Hu Hd Hadv
    | room updated Hph
    | room i player mid fromHost toHost emptied updated Hi Hs hosted Hmid Hem
    | room fromHost room' toHost Hexp]; try (split; [tauto|reflexivity]).
  - cbn [config set_updatedAt].
    assert (Hh : config hosted = config room).
    { unfold hosted. by destruct (ensureHostIsConnected_kept
        (set_emptySince None (set_players (<[i:=back]> (players room)) room)))
        as (_ & _ & -> & _). }
    assert (Hc : config restarted = config room)
      by (by destruct Hre as [->|(_ & _ & ? & ? & ? & _ & _ & ->)]).
    rewrite Hc. tauto.
  - cbn [config set_updatedAt set_lastEvent].
    split; [apply settingsApplied_config|congruence].
  - apply advanceTurn_advanced in Hadv. cbn [config set_updatedAt].
    rewrite (adv_config _ _ _ Hadv). split; [tauto|reflexivity].
  - apply leave_frame in Hmid as [(_ & _ & Hc & _) _].
    cbn [config set_updatedAt set_emptySince]. rewrite Hc. subst hosted.
    destruct (afterLeaving_frame room i player) as (_ & _ & -> & _). tauto.
  - apply handleTimerExpiry_shape in Hexp
      as [->|(_ & a & adv & h1 & h2 & t & _ & [(Hadv & ->)|(i & p & _ & _ & _ & Hadv & ->)])];
      [tauto| |]; apply advanceTurn_advanced in Hadv;
      cbn [config set_updatedAt set_lastEvent];
      rewrite (adv_config _ _ _ Hadv); tauto.
Qed.

Lemma room_step_match_step d r r' : room_step d r r' -> match_step r r'.
Proof.
  destruct 1 as [room
    | room playerId name socket joined updated Hph Hlen Hid Hname Hdup
    | room i player renamed socket restarted updated Hi Hret back hosted Hre
    | room payload updated Hph
    | room firstActive chunk ends updated Hph Hcount Hnext Hin
    | room i player word adv fromHost toHost updated Hph Hf He Ha Hw Hl Hc Hu Hd Hadv
    | room updated Hph
    | room i player mid fromHost toHost emptied updated Hi Hs hosted Hmid Hem
    | room fromHost room' toHost Hexp].
  - by apply match_same.
  - by eapply match_join.
  - destruct (ensureHostIsConnected_kept
        (set_emptySince None (set_players (<[i:=back]> (players room)) room)))
      as (_ & Hp & _ & _ & _ & _ & _ & _ & _ & Hu & Ho & _).
    fold hosted in Hp, Hu, Ho.
    cbn [players usedWordsOrdered usedWords set_emptySince set_players] in Hp, Hu, Ho.
    assert (Hr : players restarted = players hosted
                 /\ usedWordsOrdered restarted = usedWordsOrdered hosted
                 /\ usedWords restarted = usedWords hosted)
      by (by destruct Hre as [->|(_ & _ & ? & ? & ? & _ & _ & ->)]).
    destruct Hr as (Hp' & Ho' & Hu').
    apply (match_change _ _ i player back); [done|by eapply player_back| | |];
      cbn [players usedWordsOrdered usedWords set_updatedAt]; congruence.
  - destruct (settingsApplied_frame d payload room)
      as (_ & Hp & _ & _ & _ & _ & _ & _ & _ & Hu & Ho & _).
    by apply match_same.
  - apply match_reset; [congruence|reflexivity..].
  - apply advanceTurn_advanced in Hadv.
    pose proof (findPlayer_Some _ _ _ _ Hf) as (Hi & _ & _).
    apply (match_word _ _ i player word); auto; [by split|..];
      cbn [players usedWordsOrdered usedWords set_updatedAt].
    + by rewrite (adv_players _ _ _ Hadv).
    + by rewrite (adv_usedWordsOrdered _ _ _ Hadv).
    + by rewrite (adv_usedWords _ _ _ Hadv).
  - apply match_reset; [congruence|reflexivity..].
  - apply leave_frame in Hmid as [(_ & Hp & _ & _ & Hu & Ho & _) _].
    destruct (afterLeaving_frame room i player)
      as (_ & Hp' & _ & _ & _ & _ & _ & _ & _ & Hu' & Ho' & _).
    fold hosted in Hp', Hu', Ho'.
    cbn [players usedWordsOrdered usedWords set_emptySince set_players] in Hp', Hu', Ho'.
    apply (match_change _ _ i player (leftPlayer player)); [done|by apply player_left|..];
      cbn [players usedWordsOrdered usedWords set_updatedAt set_emptySince]; congruence.
  - apply handleTimerExpiry_shape in Hexp
      as [->|(_ & a & adv & h1 & h2 & t & _
              & [(Hadv & ->)|(i & p & Hi & _ & He & Hadv & ->)])].
    + by apply match_same.
    + apply advanceTurn_advanced in Hadv. destruct Hadv.
      by apply match_same.
    + apply advanceTurn_advanced in Hadv. destruct Hadv.
      by apply (match_change _ _ i p (exploded p)); [|apply player_exploded|..].
Qed.

Lemma player_step_frame p p' :
  player_step p p' -> 0 <= lives p ->
  pl_id p' = pl_id p /\ joinedAt p' = joinedAt p /\ score p' = score p
  /\ lives p - 1 <= lives p' <= lives p
  /\ (eliminated p = true -> eliminated p' = true).
Proof.
  intros Hstep Hpos.
  destruct Hstep as [p renamed socket [->|(name & _ & ->)]|p _|p He].
  - repeat split; simpl; auto; lia.
  - repeat split; simpl; auto; lia.
  - repeat split; simpl; auto; lia.
  - unfold isEligible in He. apply andb_true_iff in He as [_ He].
    apply negb_true_iff in He.
    unfold exploded. cbv zeta. case_bool_decide; simpl in *;
      repeat split; auto; try lia; intros; congruence.
Qed.

Lemma player_step_wf p p' : player_step p p' -> player_wf p -> player_wf p'.
Proof.
  intros Hstep (Hid & Hname & Hl & He & Hc & Hs).
  destruct Hstep as [p renamed socket [->|(name & Hn & ->)]|p _|p Hel];
    unfold player_wf; simpl.
  - split; [done|]. split; [done|]. split; [done|]. split; [done|].
    split; [|done]. split; [by eexists|done].
  - split; [done|]. split; [done|]. split; [done|]. split; [done|].
    split; [|done]. split; [by eexists|done].
  - split; [done|]. split; [done|]. split; [done|]. split; [done|].
    split; [|done]. split; [discriminate|]. by intros [? ?].
  - unfold isEligible in Hel. apply andb_true_iff in Hel as [_ Hel].
    apply negb_true_iff in Hel.
    assert (Hpos : 1 <= lives p).
    { destruct (decide (lives p = 0)) as [Hz|Hz]; [|lia].
      apply He in Hz. congruence. }
    unfold exploded. cbv zeta. case_bool_decide as Hz; simpl in *.
    + split; [done|]. split; [done|]. split; [lia|]. split; [done|]. done.
    + split; [done|]. split; [done|]. split; [lia|]. split; [|done].
      rewrite Hel. split; [discriminate|]. intros Hz'. by destruct Hz.
Qed.

Lemma resetPlayer_wf d room p :
  config_wf d (config room) -> player_wf p -> player_wf (resetPlayer room p).
Proof.
  intros (_ & Hl & _) (Hid & Hname & _ & _ & Hc & _).
  unfold MIN_STARTING_LIVES, MAX_STARTING_LIVES in Hl.
  unfold player_wf, MAX_STARTING_LIVES. simpl.
  repeat split; auto; try lia; try tauto; try apply Hname; try discriminate.
Qed.

Lemma match_step_roster d r r' :
  match_step r r' -> config_wf d (config r) -> roster_wf r -> roster_wf r'.
Proof.
  intros Hstep Hcfg [Hlen Hall].
  destruct Hstep as [Hp _ _
    | playerId name socket joined Hph Hroom Hid Hname Hp _ _
    | i p p' Hi Hstep Hp _ _
    | i p word Hph Hi He Hw Hnew Hp _ _
    | Hph Hp _ _]; unfold roster_wf; rewrite Hp.
  - done.
  - rewrite length_app. simpl. split; [lia|].
    apply Forall_app. split; [done|]. apply Forall_singleton.
    destruct Hcfg as (_ & Hl & _).
    unfold MIN_STARTING_LIVES, MAX_STARTING_LIVES in Hl.
    unfold player_wf, newcomer, MAX_STARTING_LIVES. simpl.
    repeat split; auto; try lia; try apply Hname; try discriminate; try by eexists.
  - rewrite length_insert. split; [done|].
    apply Forall_insert_same; [done|]. eapply player_step_wf; [done|].
    rewrite Forall_lookup in Hall. by eapply Hall.
  - rewrite length_insert. split; [done|].
    apply Forall_insert_same; [done|].
    rewrite Forall_lookup in Hall.
    destruct (Hall i p Hi) as (Hid' & Hname' & Hl' & Hel' & Hc' & Hs').
    unfold player_wf. simpl. do 5 (split; [done|]). lia.
  - rewrite length_map. split; [done|].
    apply Forall_fmap. eapply Forall_impl; [exact Hall|].
    intros p Hp'. by eapply resetPlayer_wf.
Qed.

Lemma match_step_log r r' : match_step r r' -> log_wf r -> log_wf r'.
Proof.
  intros Hstep (Hset & Hnd & Hwords & Htotal).
  destruct Hstep as [Hp Ho Hu
    | playerId name socket joined Hph Hroom Hid Hname Hp Ho Hu
    | i p p' Hi Hstep Hp Ho Hu
    | i p word Hph Hi He Hw Hnew Hp Ho Hu
    | Hph Hp Ho Hu]; unfold log_wf; rewrite Hp, Ho, Hu.
  - done.
  - do 3 (split; [done|]). rewrite totalScore_app. simpl. lia.
  - do 3 (split; [done|]). rewrite (totalScore_insert _ _ _ _ Hi).
    assert (Hs : score p' = score p)
      by (destruct Hstep as [? ? ? [->|(? & _ & ->)]|? _|? _]; try reflexivity;
          unfold exploded; cbv zeta; by case_bool_decide).
    rewrite Hs. lia.
  - split; [|split; [|split]].
    + rewrite list_to_set_app_L, Hset. simpl.
      rewrite (right_id_L ∅ (∪)). apply (comm_L (∪)).
    + apply NoDup_app. split; [done|]. split; [|apply NoDup_singleton].
      intros x Hx Hx'. apply list_elem_of_singleton in Hx'. subst x.
      apply Hnew. rewrite Hset. by apply elem_of_list_to_set.
    + apply Forall_app. split; [done|]. by apply Forall_singleton.
    + rewrite (totalScore_insert _ _ _ _ Hi), length_app. simpl. lia.
  - split; [done|]. split; [apply NoDup_nil_2|]. split; [done|].
    by rewrite totalScore_reset.
Qed.

Lemma returned_id socket p renamed : returned socket p renamed -> pl_id renamed = pl_id p.
Proof. by intros [->|(name & _ & ->)]. Qed.

Lemma match_step_ids r r' a :
  match_step r r' ->
  (exists p, p ∈ players r /\ pl_id p = a) ->
  exists p, p ∈ players r' /\ pl_id p = a.
Proof.
  intros Hstep Hex.
  destruct Hstep as [Hp _ _
    | playerId name socket joined Hph Hroom Hid Hname Hp _ _
    | i p p' Hi Hstep Hp _ _
    | i p word Hph Hi He Hw Hnew Hp _ _
    | Hph Hp _ _]; rewrite Hp.
  - done.
  - destruct Hex as (p & Hin & Ha). exists p. split; [|done].
    apply elem_of_app. by left.
  - eapply id_insert; [done| |done].
    destruct Hstep as [? ? ? Hret|? _|? _]; simpl;
      [by eapply returned_id|done|apply exploded_id].
  - by eapply id_insert.
  - destruct Hex as (p & Hin & Ha). exists (resetPlayer r p). split; [|done].
    by apply list_elem_of_fmap_2.
Qed.

Lemma ensureHostIsConnected_hostId room :
  hostId (ensureHostIsConnected room) = hostId room
  \/ exists p, p ∈ players room /\ pl_id p = hostId (ensureHostIsConnected room).
Proof.
  unfold ensureHostIsConnected.
  assert (Hre :
    hostId match list_find (fun p => connected p = true) (players room) with
           | Some (_, nextHost) =>
               set_lastEvent (pl_name nextHost +:+ " is now host.")
                 (set_hostId (pl_id nextHost) room)
           | None => room
           end = hostId room
    \/ exists p, p ∈ players room
         /\ pl_id p
            = hostId match list_find (fun p => connected p = true) (players room) with
                     | Some (_, nextHost) =>
                         set_lastEvent (pl_name nextHost +:+ " is now host.")
                           (set_hostId (pl_id nextHost) room)
                     | None => room
                     end).
  { destruct (list_find _ _) as [[k next]|] eqn:Hfind; [|by left].
    right. exists next. split; [|reflexivity].
    apply list_find_Some in Hfind as (Hk & _). by eapply list_elem_of_lookup_2. }
  destruct (getPlayer room (hostId room)) as [host|]; [|exact Hre].
  destruct (connected host); [by left|exact Hre].
Qed.

Lemma room_step_hostId d r r' :
  room_step d r r' ->
  hostId r' = hostId r \/ exists p, p ∈ players r' /\ pl_id p = hostId r'.
Proof.
  destruct 1 as [room
    | room playerId name socket joined updated Hph Hlen Hid Hname Hdup
    | room i player renamed socket restarted updated Hi Hret back hosted Hre
    | room payload updated Hph
    | room firstActive chunk ends updated Hph Hcount Hnext Hin
    | room i player word adv fromHost toHost updated Hph Hf He Ha Hw Hl Hc Hu Hd Hadv
    | room updated Hph
    | room i player mid fromHost toHost emptied updated Hi Hs hosted Hmid Hem
    | room fromHost room' toHost Hexp]; try (by left).
  - assert (Hr : players restarted = players hosted /\ hostId restarted = hostId hosted)
      by (by destruct Hre as [->|(_ & _ & ? & ? & ? & _ & _ & ->)]).
    destruct Hr as (Hp & Hh). cbn [players hostId set_updatedAt]. rewrite Hp, Hh.
    destruct (ensureHostIsConnected_kept
        (set_emptySince None (set_players (<[i:=back]> (players room)) room)))
      as (_ & Hp' & _). fold hosted in Hp'.
    destruct (ensureHostIsConnected_hostId
        (set_emptySince None (set_players (<[i:=back]> (players room)) room)))
      as [Hsame|Hnew]; fold hosted in Hsame || fold hosted in Hnew.
    + left. exact Hsame.
    + right. by rewrite Hp'.
  - left. cbn [hostId set_updatedAt set_lastEvent]. apply settingsApplied_frame.
  - apply advanceTurn_advanced in Hadv. left. cbn [hostId set_updatedAt].
    by rewrite (adv_hostId _ _ _ Hadv).
  - apply leave_frame in Hmid as [(_ & Hp & _ & Hh & _) _].
    cbn [players hostId set_updatedAt set_emptySince]. rewrite Hp, Hh.
    subst hosted. unfold afterLeaving. cbv zeta. case_bool_decide; [|by left].
    destruct (ensureHostIsConnected_hostId
        (set_players (<[i:=leftPlayer player]> (players room)) room)) as [Hsame|Hnew].
    + by left.
    + right. by rewrite (proj1 (proj2 (ensureHostIsConnected_kept _))).
  - apply handleTimerExpiry_shape in Hexp
      as [->|(_ & a & adv & h1 & h2 & t & _
              & [(Hadv & ->)|(i & p & Hi & _ & He & Hadv & ->)])];
      [by left| |]; apply advanceTurn_advanced in Hadv; left;
      cbn [hostId set_updatedAt set_lastEvent]; by rewrite (adv_hostId _ _ _ Hadv).
Qed.

Lemma room_step_host d r r' : room_step d r r' -> host_wf r -> host_wf r'.
Proof.
  intros Hstep Hhost. destruct (room_step_hostId d r r' Hstep) as [Hsame|Hnew].
  - unfold host_wf. rewrite Hsame. eapply match_step_ids; [|exact Hhost].
    by eapply room_step_match_step.
  - exact Hnew.
Qed.

Lemma connectedCount_app room new :
  connected new = true ->
  length (filter (fun p => connected p = true) (players room ++ [new])) ≠ 0%nat.
Proof.
  intros Hc. rewrite filter_app, length_app, filter_cons.
  rewrite decide_True by done. simpl. lia.
Qed.

Lemma exploded_connected p : connected (exploded p) = connected p.
Proof. unfold exploded. cbv zeta. by case_bool_decide. Qed.

Lemma room_step_empty d r r' : room_step d r r' -> empty_wf r -> empty_wf r'.
Proof.
  unfold empty_wf, connectedCount.
  destruct 1 as [room
    | room playerId name socket joined updated Hph Hlen Hid Hname Hdup
    | room i player renamed socket restarted updated Hi Hret back hosted Hre
    | room payload updated Hph
    | room firstActive chunk ends updated Hph Hcount Hnext Hin
    | room i player word adv fromHost toHost updated Hph Hf He Ha Hw Hl Hc Hu Hd Hadv
    | room updated Hph
    | room i player mid fromHost toHost emptied updated Hi Hs hosted Hmid Hem
    | room fromHost room' toHost Hexp]; intros Hwf.
  - done.
  - cbn [emptySince players set_lastEvent set_updatedAt set_emptySince set_players].
    split; [intros _|done]. by apply connectedCount_app.
  - destruct (ensureHostIsConnected_kept
        (set_emptySince None (set_players (<[i:=back]> (players room)) room)))
      as (_ & Hp & _ & _ & _ & _ & _ & _ & _ & _ & _ & Hem). fold hosted in Hp, Hem.
    cbn [players emptySince set_emptySince set_players] in Hp, Hem.
    assert (Hr : players restarted = players hosted
                 /\ emptySince restarted = emptySince hosted)
      by (by destruct Hre as [->|(_ & _ & ? & ? & ? & _ & _ & ->)]).
    destruct Hr as (Hp' & He').
    cbn [emptySince players set_updatedAt]. rewrite Hp', He', Hp, Hem.
    split; [intros _|done]. by eapply connected_insert_positive.
  - destruct (settingsApplied_frame d payload room)
      as (_ & Hp & _ & _ & _ & _ & _ & _ & _ & _ & _ & Hem).
    cbn [emptySince players set_updatedAt set_lastEvent]. by rewrite Hp, Hem.
  - destruct (started_fields (matchReset room) (Some (pl_id firstActive)) (Some chunk)
                (Some ends) (pl_name firstActive +:+ " starts with the bomb.") updated)
      as (_ & Hp & _ & _ & _ & _ & _ & _ & _ & _ & _ & _ & He).
    cbv zeta in Hp, He. rewrite Hp, He.
    destruct (matchReset_fields room) as (_ & -> & _ & _ & _ & _ & _ & _ & _ & ->).
    by rewrite connected_reset_count.
  - apply advanceTurn_advanced in Hadv.
    pose proof (findPlayer_Some _ _ _ _ Hf) as (Hi & _ & _).
    cbn [emptySince players set_updatedAt].
    rewrite (adv_players _ _ _ Hadv), (adv_emptySince _ _ _ Hadv).
    unfold wordPlayed. cbn [players emptySince set_lastEvent set_players].
    by rewrite (connected_insert_count _ _ _ _ Hi).
  - destruct (stamped_fields (lobbyAgain room)
                "Match reset. Host can start a new game." updated)
      as (_ & Hp & _ & _ & _ & _ & _ & _ & _ & _ & _ & _ & He).
    cbv zeta in Hp, He. rewrite Hp, He.
    destruct (lobbyAgain_fields room)
      as (_ & -> & _ & _ & _ & _ & _ & _ & _ & _ & _ & _ & ->).
    by rewrite connected_reset_count.
  - exact Hem.
  - apply handleTimerExpiry_shape in Hexp
      as [->|(_ & a & adv & h1 & h2 & t & _
              & [(Hadv & ->)|(i & p & Hi & _ & He & Hadv & ->)])];
      [done| |]; apply advanceTurn_advanced in Hadv;
      cbn [emptySince players set_updatedAt set_lastEvent];
      rewrite (adv_players _ _ _ Hadv), (adv_emptySince _ _ _ Hadv); [done|].
    cbn [players emptySince set_lastEvent set_players].
    by rewrite (connected_insert_count _ _ _ _ Hi) by apply exploded_connected.
Qed.

Lemma head_filter_elem {A} (P : A -> Prop) `{!forall x, Decision (P x)} (l : list A) x :
  head (filter P l) = Some x -> x ∈ l.
Proof.
  intros Hhead. apply head_Some_elem_of in Hhead.
  by apply list_elem_of_filter in Hhead as [_ ?].
Qed.

Lemma advanceTurn_phase_wf base fromId h adv h' :
  advanceTurn base fromId h = (adv, h') ->
  phase base = in_game -> phase_wf base ->
  (1 <= length (getEligiblePlayers base))%nat ->
  phase_wf adv.
Proof.
  intros Hrun Hph Hwf Hlen.
  pose proof (fun c => advanceTurn_chunk _ _ _ _ _ c Hrun) as Hchunk.
  apply advanceTurn_advanced in Hrun as [Hp Hcfg _ _ _ _ _ Hout].
  unfold phase_wf in *. rewrite Hph in Hwf.
  destruct Hwf as (_ & _ & _ & Hwin & Hlives).
  destruct Hout as [(_ & -> & Hw & Ha & Hc & Ht)
                   |(_ & -> & Hw & Hprev & next & chunk & ends & _ & _ & Hc & Hne & Ht)].
  - do 3 (split; [done|]). rewrite Hp, Hcfg. split; [|done].
    destruct (getEligiblePlayers base) as [|w ws] eqn:Hel; [simpl in Hlen; lia|].
    exists w. split; [|by rewrite Hw].
    apply (head_filter_elem (fun p => isEligible p)).
    unfold getEligiblePlayers in Hel. by rewrite Hel.
  - rewrite Hph, Hp, Hcfg. split; [exists chunk; split; [done|by apply Hchunk]|].
    split; [rewrite Hc, Hprev; exact Hne|]. split; [by rewrite Ht|].
    split; [congruence|done].
Qed.

(** A change of one player that keeps the identifier and adds no life. *)
Lemma phase_wf_insert r r' i p p' :
  players r !! i = Some p ->
  players r' = <[i:=p']> (players r) ->
  pl_id p' = pl_id p -> lives p' <= lives p ->
  (phase r = lobby -> eliminated p' = false) ->
  config r' = config r -> phase r' = phase r ->
  activePlayerId r' = activePlayerId r -> currentChunk r' = currentChunk r ->
  previousChunk r' = previousChunk r -> timerEndsAt r' = timerEndsAt r ->
  winnerId r' = winnerId r ->
  (phase r = lobby -> usedWordsOrdered r' = usedWordsOrdered r) ->
  phase_wf r -> phase_wf r'.
Proof.
  intros Hi Hp Hid Hl He Hcfg Hph Ha Hc Hpc Ht Hw Ho.
  unfold phase_wf. rewrite Hp, Hcfg, Hph, Ha, Hc, Hpc, Ht, Hw.
  destruct (phase r).
  - rewrite Ho by done.
    intros (? & ? & ? & ? & ? & ? & Hall). do 6 (split; [done|]).
    apply Forall_insert_same; auto.
  - intros (? & ? & ? & ? & Hall). do 4 (split; [done|]).
    apply Forall_insert_same; [done|].
    rewrite Forall_lookup in Hall. specialize (Hall i p Hi). simpl in Hall. lia.
  - intros (? & ? & ? & Hwin & Hall). do 3 (split; [done|]). split.
    + destruct Hwin as (w & Hin & Hwid).
      destruct (id_insert (players r) i p p' (pl_id w) Hi Hid) as (w' & Hin' & Hid');
        [by exists w|].
      exists w'. split; [done|congruence].
    + apply Forall_insert_same; [done|].
      rewrite Forall_lookup in Hall. specialize (Hall i p Hi). simpl in Hall. lia.
Qed.

Lemma room_step_phase d r r' :
  room_step d r r' -> room_ok r -> phase_wf r -> phase_wf r'.
Proof.
  intros Hstep [Hplayers Hturn].
  destruct Hstep as [room
    | room playerId name socket joined updated Hph Hlen Hid Hname Hdup
    | room i player renamed socket restarted updated Hi Hret back hosted Hre
    | room payload updated Hph
    | room firstActive chunk ends updated Hph Hcount Hnext Hin
    | room i player word adv fromHost toHost updated Hph Hf He Ha Hw Hl Hc Hu Hd Hadv
    | room updated Hph
    | room i player mid fromHost toHost emptied updated Hi Hs hosted Hmid Hem
    | room fromHost room' toHost Hexp]; intros Hwf.
  - done.
  - unfold phase_wf in *. rewrite Hph in Hwf.
    cbn [phase activePlayerId currentChunk previousChunk timerEndsAt winnerId
         usedWordsOrdered players set_lastEvent set_updatedAt set_emptySince
         set_players]. rewrite Hph.
    destruct Hwf as (? & ? & ? & ? & ? & ? & Hall). do 6 (split; [done|]).
    apply Forall_app. split; [done|]. by apply Forall_singleton.
  - destruct (ensureHostIsConnected_kept
        (set_emptySince None (set_players (<[i:=back]> (players room)) room)))
      as (_ & Hp & Hcfg & Hph & Ha & Hc & Hpc & Ht & Hw & _ & Ho & _).
    fold hosted in Hp, Hcfg, Hph, Ha, Hc, Hpc, Ht, Hw, Ho.
    cbn [players config phase activePlayerId currentChunk previousChunk timerEndsAt
         winnerId usedWordsOrdered set_emptySince set_players]
      in Hp, Hcfg, Hph, Ha, Hc, Hpc, Ht, Hw, Ho.
    assert (Hsame : restarted = hosted).
    { destruct Hre as [->|(Hin & Hnone & _)]; [done|].
      rewrite Hph in Hin. rewrite Ha in Hnone.
      destruct (Hturn Hin) as (_ & p & _ & Hact & _). congruence. }
    subst restarted.
    apply (phase_wf_insert room _ i player back); auto.
    + simpl. by eapply returned_id.
    + destruct Hret as [->|(? & _ & ->)]; simpl; lia.
    + intros Hlobby. unfold phase_wf in Hwf. rewrite Hlobby in Hwf.
      destruct Hwf as (_ & _ & _ & _ & _ & _ & Hall).
      rewrite Forall_lookup in Hall. specialize (Hall i player Hi). simpl in Hall.
      by destruct Hret as [->|(? & _ & ->)].
  - destruct (settingsApplied_frame d payload room)
      as (_ & Hp & _ & Hph' & Ha & Hc & Hpc & Ht & Hw & _ & Ho & _).
    unfold phase_wf in *. rewrite Hph in Hwf.
    cbn [phase activePlayerId currentChunk previousChunk timerEndsAt winnerId
         usedWordsOrdered players set_lastEvent set_updatedAt].
    by rewrite Hph', Hph, Hp, Ha, Hc, Hpc, Ht, Hw, Ho.
  - destruct (started_fields (matchReset room) (Some (pl_id firstActive)) (Some chunk)
                (Some ends) (pl_name firstActive +:+ " starts with the bomb.") updated)
      as (_ & Hp & Hcfg & _ & Hph' & _ & Hc & Hpc & Ht & Hw & _).
    cbv zeta in Hp, Hcfg, Hph', Hc, Hpc, Ht, Hw.
    unfold phase_wf. rewrite Hp, Hcfg, Hph', Hc, Hpc, Ht, Hw.
    destruct (matchReset_fields room)
      as (_ & -> & -> & _ & -> & -> & -> & _).
    split; [by exists chunk|]. split; [done|]. split; [by eexists|]. split; [done|].
    apply Forall_fmap, Forall_forall. intros p _. simpl. lia.
  - pose proof (findPlayer_Some _ _ _ _ Hf) as (Hi & _ & _).
    change (phase_wf adv).
    eapply advanceTurn_phase_wf; [exact Hadv|exact Hph| |].
    + apply (phase_wf_insert room _ i player (set_score (score player + 1) player));
        auto; try reflexivity; try (simpl; lia); intros Hlobby; congruence.
    + destruct (Hturn Hph) as (Hlen & _).
      unfold getEligiblePlayers in *.
      change (players (wordPlayed room i player word))
        with (<[i:=set_score (score player + 1) player]> (players room)).
      pose proof (eligible_insert_count (players room) i player
                    (set_score (score player + 1) player) Hi) as Hcount.
      specialize (Hcount (fun H => H)). lia.
  - destruct (stamped_fields (lobbyAgain room)
                "Match reset. Host can start a new game." updated)
      as (_ & Hp & _ & _ & Hph' & Ha & Hc & Hpc & Ht & Hw & _ & Ho & _).
    cbv zeta in Hp, Hph', Ha, Hc, Hpc, Ht, Hw, Ho.
    unfold phase_wf. rewrite Hp, Hph', Ha, Hc, Hpc, Ht, Hw, Ho.
    destruct (lobbyAgain_fields room)
      as (_ & -> & _ & _ & -> & -> & -> & -> & -> & -> & _ & -> & _).
    do 6 (split; [done|]). apply Forall_fmap, Forall_forall. by intros p _.
  - destruct (afterLeaving_frame room i player)
      as (_ & Hp & Hcfg & Hph & Ha & Hc & Hpc & Ht & Hw & _ & Ho & _).
    fold hosted in Hp, Hcfg, Hph, Ha, Hc, Hpc, Ht, Hw, Ho.
    assert (Hhosted : phase_wf hosted).
    { apply (phase_wf_insert room _ i player (leftPlayer player)); auto.
      - simpl. lia.
      - intros Hlobby. unfold phase_wf in Hwf. rewrite Hlobby in Hwf.
        destruct Hwf as (_ & _ & _ & _ & _ & _ & Hall).
        rewrite Forall_lookup in Hall. by specialize (Hall i player Hi). }
    change (phase_wf mid).
    apply leave_frame in Hmid as [_ [->|(Hin & message & fromId & Hadv)]]; [done|].
    eapply advanceTurn_phase_wf; [exact Hadv|exact Hin|exact Hhosted|].
    rewrite Hph in Hin. destruct (Hturn Hin) as (Hlen & _).
    unfold getEligiblePlayers in *. cbn [players set_lastEvent]. rewrite Hp.
    pose proof (eligible_insert_lose (players room) i player (leftPlayer player) Hi).
    lia.
  - apply handleTimerExpiry_shape in Hexp
      as [->|(Hin & a & adv & h1 & h2 & t & _
              & [(Hadv & ->)|(i & p & Hi & _ & He & Hadv & ->)])]; [done| |].
    + change (phase_wf adv).
      eapply advanceTurn_phase_wf; [exact Hadv|exact Hin|exact Hwf|].
      destruct (Hturn Hin) as (Hlen & _). lia.
    + change (phase_wf adv).
      eapply advanceTurn_phase_wf; [exact Hadv|exact Hin| |].
      * apply (phase_wf_insert room _ i p (exploded p)); auto; try reflexivity.
        -- apply exploded_id.
        -- destruct Hplayers as [Hall _]. rewrite Forall_lookup in Hall.
           destruct (Hall i p Hi) as [_ Hpos].
           unfold isEligible in He. apply andb_true_iff in He as [_ He].
           apply negb_true_iff in He. specialize (Hpos He).
           unfold exploded. cbv zeta. case_bool_decide; simpl; lia.
        -- intros Hlobby. congruence.
      * destruct (Hturn Hin) as (Hlen & _).
        unfold getEligiblePlayers in *. cbn [players set_lastEvent set_players].
        pose proof (eligible_insert_lose (players room) i p (exploded p) Hi). lia.
Qed.

Lemma room_step_wf d c r r' :
  room_step d r r' -> room_ok r -> room_wf d c r -> room_wf d c r'.
Proof.
  intros Hstep Hok [Hcode Hshape Hcfg Hroster Hlog Hphase Hhost Hempty].
  pose proof (room_step_match_step d r r' Hstep) as Hmatch.
  split.
  - by rewrite (room_step_code d r r' Hstep).
  - exact Hshape.
  - by apply (room_step_config d r r' Hstep).
  - by eapply match_step_roster.
  - by eapply match_step_log.
  - by eapply room_step_phase.
  - by eapply room_step_host.
  - by eapply room_step_empty.
Qed.

Lemma room_born_wf d c r : room_born d c r -> room_wf d c r.
Proof.
  intros (playerId & name & socket & joined & created & updated
          & Hid & Hname & Hlen & Hchars & ->).
  split.
  - reflexivity.
  - by split.
  - unfold config_wf. simpl.
    unfold MIN_TURN_SECONDS, MAX_TURN_SECONDS, DEFAULT_TURN_SECONDS,
      MIN_STARTING_LIVES, MAX_STARTING_LIVES, DEFAULT_STARTING_LIVES.
    split; [lia|]. split; [lia|]. auto.
  - split; simpl; [unfold MAX_PLAYERS_PER_ROOM; lia|].
    apply Forall_singleton. unfold player_wf, newcomer. simpl.
    unfold MAX_STARTING_LIVES, DEFAULT_STARTING_LIVES.
    split; [done|]. split; [done|]. split; [lia|]. split; [done|].
    split; [|done]. split; [by eexists|done].
  - split; [done|]. split; [apply NoDup_nil_2|]. split; [done|]. reflexivity.
  - unfold phase_wf. simpl. do 6 (split; [done|]). by apply Forall_singleton.
  - eexists. split; [apply list_elem_of_singleton; reflexivity|reflexivity].
  - unfold empty_wf, connectedCount. simpl. split; [intros _; discriminate|done].
Qed.

Lemma reachable_room_wf s c r :
  reachable s -> Registry.get c (rooms s) = Some r -> room_wf (dictionary s) c r.
Proof.
  intros Hreach. revert c r.
  induction Hreach as [d|s e h Hreach IH]; intros c r'.
  - discriminate.
  - destruct (after_rooms_step e s h) as [Hstep ->]. intros Hget.
    destruct (Hstep c r' Hget) as [(r & Hr & Hrs)|(_ & Hborn)].
    + eapply room_step_wf; [exact Hrs| |by apply IH].
      by eapply (reachable_service_ok s Hreach c).
    + by apply room_born_wf.
Qed.

(** ** Identifiers, the host and the sessions *)

Lemma substring_length_le from n s :
  (String.length (String.substring from n s) <= n)%nat.
Proof.
  revert from n. induction s as [|c s IH]; intros [|from] [|n]; simpl; auto; try lia.
  specialize (IH 0%nat n). lia.
Qed.

Lemma length_app_str a b :
  String.length (a +:+ b) = (String.length a + String.length b)%nat.
Proof. induction a as [|c a IH]; [reflexivity|]. simpl. f_equal. exact IH. Qed.

(** X5. [createPlayerId] (utils.ts): the identifier is ["p_"] followed by at
    most twelve characters, whatever the random draw, the clock and the
    base-36 printer give. *)
Theorem createPlayerId_shape (h : Host) :
  exists rest,
    fst (createPlayerId h) = "p_" +:+ rest /\ (String.length rest <= 12)%nat.
Proof.
  unfold createPlayerId, Math_random. unfold_m. cbn [fst].
  eexists. split; [reflexivity|].
  rewrite length_app_str. unfold Js.slice, Js.slice_last.
  etrans; [apply Nat.add_le_mono; apply substring_length_le|]. simpl. lia.
Qed.

(** X7. [ensureHostIsConnected]: afterwards, if anybody in the room is
    connected, the host is a connected player of the roster; nothing but the
    host and the event line changes; and running it a second time changes
    nothing more. *)
Theorem ensureHostIsConnected_connected_host (room : RoomState) :
  (connectedCount room ≠ 0%nat ->
   exists p, p ∈ players room
             /\ pl_id p = hostId (ensureHostIsConnected room)
             /\ connected p = true)
  /\ kept room (ensureHostIsConnected room)
  /\ ensureHostIsConnected (ensureHostIsConnected room) = ensureHostIsConnected room.
Proof.
  split; [|split; [apply ensureHostIsConnected_kept|]].
  - intros Hsome. unfold ensureHostIsConnected.
    assert (Hre : exists p, p ∈ players room
      /\ pl_id p
         = hostId match list_find (fun p => connected p = true) (players room) with
                  | Some (_, nextHost) =>
                      set_lastEvent (pl_name nextHost +:+ " is now host.")
                        (set_hostId (pl_id nextHost) room)
                  | None => room
                  end
      /\ connected p = true).
    { destruct (list_find _ _) as [[k next]|] eqn:Hfind.
      - apply list_find_Some in Hfind as (Hk & Hc & _).
        exists next. split; [by eapply list_elem_of_lookup_2|by split].
      - destruct Hsome. unfold connectedCount. apply length_zero_iff_nil.
        apply filter_eq_nil. intros x Hx Hc.
        apply list_find_None in Hfind. rewrite Forall_forall in Hfind.
        by apply (Hfind x). }
    destruct (getPlayer room (hostId room)) as [host|] eqn:Hhost; [|exact Hre].
    destruct (connected host) eqn:Hc; [|exact Hre].
    unfold getPlayer, findPlayer in Hhost.
    destruct (list_find (fun p => pl_id p = hostId room) (players room))
      as [[k p]|] eqn:Hfind; [|discriminate].
    simpl in Hhost. injection Hhost as ->.
    apply list_find_Some in Hfind as (Hk & Hid & _).
    exists host. split; [by eapply list_elem_of_lookup_2|by split].
  - assert (Hcases :
      ensureHostIsConnected room = room
      \/ exists k next,
          list_find (fun p => connected p = true) (players room) = Some (k, next)
          /\ ensureHostIsConnected room
             = set_lastEvent (pl_name next +:+ " is now host.")
                 (set_hostId (pl_id next) room)).
    { unfold ensureHostIsConnected.
      destruct (getPlayer room (hostId room)) as [host|];
        [destruct (connected host); [by left|]|];
        destruct (list_find (fun p => connected p = true) (players room))
          as [[k next]|]; eauto. }
    destruct Hcases as [Hsame|(k & next & Hfind & Heq)].
    + rewrite Hsame. exact Hsame.
    + rewrite Heq. unfold ensureHostIsConnected, getPlayer, findPlayer.
      cbn [players hostId set_lastEvent set_hostId]. rewrite Hfind.
      destruct (snd <$> list_find _ _) as [p'|]; [destruct (connected p')|];
        try reflexivity; by destruct room.
Qed.

(** In the trio, whose host is connected, the host stays. *)
Lemma ensureHostIsConnected_connected_host_witness :
  exists p, p ∈ players sampleTrio
            /\ pl_id p = hostId (ensureHostIsConnected sampleTrio)
            /\ connected p = true.
Proof.
  apply (proj1 (ensureHostIsConnected_connected_host sampleTrio)).
  vm_compute. discriminate.
Defined.

(** X8. A connection speaks for at most one player at a time: binding it to a
    player replaces what it was bound to, so that it no longer speaks for the
    earlier player, and leaves the other connections alone. *)
Theorem socket_speaks_for_one_player (s : GameService) (socket : string) :
  (forall roomCode playerId roomCode' playerId',
      socketOwnsPlayer s socket roomCode playerId = true ->
      socketOwnsPlayer s socket roomCode' playerId' = true ->
      roomCode' = roomCode /\ playerId' = playerId)
  /\ (forall roomCode playerId roomCode' playerId',
        socketOwnsPlayer (bindSocketSession socket roomCode playerId s) socket
          roomCode' playerId' = true
        <-> roomCode' = roomCode /\ playerId' = playerId)
  /\ (forall other roomCode playerId roomCode' playerId',
        other ≠ socket ->
        socketOwnsPlayer (bindSocketSession other roomCode playerId s) socket
          roomCode' playerId'
        = socketOwnsPlayer s socket roomCode' playerId').
Proof.
  split; [|split].
  - intros roomCode playerId roomCode' playerId'. unfold socketOwnsPlayer.
    destruct (socketSessions s !! socket) as [session|]; [|discriminate].
    rewrite !andb_true_iff, !bool_decide_eq_true.
    intros [<- <-] [<- <-]. by split.
  - intros roomCode playerId roomCode' playerId'.
    unfold socketOwnsPlayer, bindSocketSession. cbn [socketSessions set_socketSessions].
    rewrite lookup_insert_eq. cbn [sess_roomCode sess_playerId].
    rewrite andb_true_iff, !bool_decide_eq_true.
    split; intros [-> ->]; by split.
  - intros other roomCode playerId roomCode' playerId' Hne.
    unfold socketOwnsPlayer, bindSocketSession. cbn [socketSessions set_socketSessions].
    by rewrite lookup_insert_ne.
Qed.

(** In the sample lobby the first connection speaks for Ava, hence not for
    Bo. *)
Lemma socket_speaks_for_one_player_witness :
  socketOwnsPlayer sampleLobby "sockA" SAMPLE_CODE BO = false.
Proof.
  destruct (socketOwnsPlayer sampleLobby "sockA" SAMPLE_CODE BO) eqn:Hown;
    [|reflexivity].
  assert (Hava : socketOwnsPlayer sampleLobby "sockA" SAMPLE_CODE AVA = true)
    by (vm_compute; reflexivity).
  destruct (proj1 (socket_speaks_for_one_player sampleLobby "sockA") _ _ _ _ Hava Hown)
    as [_ Hid].
  discriminate Hid.
Defined.

(** ** The public methods: refusal and effect *)

Lemma triple_eta {A B C : Type} (x : A * B * C) : x = (fst (fst x), snd (fst x), snd x).
Proof. by destruct x as [[? ?] ?]. Qed.

Lemma touched_elsewhere s s' key c :
  touched s s' key -> c ≠ key ->
  Registry.get c (rooms s') = Registry.get c (rooms s).
Proof.
  intros (room & room' & _ & _ & ->) Hne. rewrite Registry_get_set.
  by rewrite decide_False by congruence.
Qed.

(** X9. The public methods that answer with a result.  A refused [joinRoom],
    [reconnectPlayer], [updateSettings], [startGame] or [playAgain] leaves the
    service as it was and does not touch the host: no clock reading, no
    random draw, no message.  A refused [submitWord] leaves the rooms, the
    sessions and the dictionary as they were. *)
Theorem refused_action_changes_nothing (socket : string) (s : GameService) (h : Host) :
  (forall roomCode name res s' h',
      joinRoom socket roomCode name s h = (res, s', h') ->
      res_ok res = false -> s' = s /\ h' = h)
  /\ (forall roomCode playerId name res s' h',
        reconnectPlayer socket roomCode playerId name s h = (res, s', h') ->
        res_ok res = false -> s' = s /\ h' = h)
  /\ (forall payload res s' h',
        updateSettings socket payload s h = (res, s', h') ->
        res_ok res = false -> s' = s /\ h' = h)
  /\ (forall payload res s' h',
        startGame socket payload s h = (res, s', h') ->
        res_ok res = false -> s' = s /\ h' = h)
  /\ (forall payload res s' h',
        playAgain socket payload s h = (res, s', h') ->
        res_ok res = false -> s' = s /\ h' = h)
  /\ (forall payload res s' h',
        submitWord socket payload s h = (res, s', h') ->
        res_ok res = false ->
        rooms s' = rooms s /\ socketSessions s' = socketSessions s
        /\ dictionary s' = dictionary s).
Proof.
  split; [|split; [|split; [|split; [|split]]]].
  - intros roomCode name res s' h' Hrun Hfail.
    apply joinRoom_run in Hrun as [(_ & -> & ->)|(Hok & _)]; [done|congruence].
  - intros roomCode playerId name res s' h' Hrun Hfail.
    apply reconnectPlayer_run in Hrun as (_ & _ & [(_ & -> & -> & _)|(Hok & _)]);
      [done|congruence].
  - intros payload res s' h' Hrun Hfail.
    apply updateSettings_run in Hrun as [(_ & -> & ->)|(Hok & _)]; [done|congruence].
  - intros payload res s' h' Hrun Hfail.
    apply startGame_run in Hrun as [(_ & -> & ->)|(Hok & _)]; [done|congruence].
  - intros payload res s' h' Hrun Hfail.
    apply playAgain_run in Hrun as [(_ & -> & ->)|(Hok & _)]; [done|congruence].
  - intros payload res s' h' Hrun Hfail.
    apply submitWord_run in Hrun as (Hd & Hs & [(_ & Hr & _)|(Hok & _)]);
      [done|congruence].
Qed.

(** Bo, who is not the host, asks to start the sample game: nothing
    changes. *)
Lemma refused_action_changes_nothing_witness :
  snd (fst (startGame "sockB" (mkPlayerAction SAMPLE_CODE BO) sampleLobby
              (sampleHost 2500 0))) = sampleLobby.
Proof.
  assert (Hfail : res_ok (fst (fst (startGame "sockB" (mkPlayerAction SAMPLE_CODE BO)
                                     sampleLobby (sampleHost 2500 0)))) = false)
    by (vm_compute; reflexivity).
  exact (proj1 (proj1 (proj2 (proj2 (proj2
           (refused_action_changes_nothing "sockB" sampleLobby (sampleHost 2500 0)))))
           _ _ _ _ (triple_eta _) Hfail)).
Defined.

(** X10. [joinRoom], accepted: the room was in the lobby with fewer than twelve
    players, none of them under the same name up to case; the newcomer is
    appended to the roster, connected on the calling socket, with no score,
    the configured number of lives and not eliminated; the room is no longer
    marked empty; the socket is bound to the new player; settings, host and
    every other room stay as they were. *)
Theorem joinRoom_adds_newcomer socket roomCodeInput nameInput s h res s' h' :
  joinRoom socket roomCodeInput nameInput s h = (res, s', h') ->
  res_ok res = true ->
  exists room room' playerId joined,
    Registry.get (sanitizeRoomCode roomCodeInput) (rooms s) = Some room
    /\ phase room = lobby
    /\ (length (players room) < MAX_PLAYERS_PER_ROOM)%nat
    /\ Forall (fun p => Js.toLowerCase (pl_name p)
                        ≠ Js.toLowerCase (sanitizePlayerName nameInput))
         (players room)
    /\ sanitizePlayerName nameInput ≠ ""
    /\ Registry.get (sanitizeRoomCode roomCodeInput) (rooms s') = Some room'
    /\ players room'
       = players room
         ++ [mkPlayer playerId (sanitizePlayerName nameInput) joined (Some socket)
               true 0 (startingLives (config room)) false]
    /\ playerId ≠ ""
    /\ phase room' = lobby /\ emptySince room' = None
    /\ config room' = config room /\ hostId room' = hostId room
    /\ res_playerId res = Some playerId
    /\ socketSessions s' = <[socket:=mkSession (code room) playerId]> (socketSessions s)
    /\ (forall c, c ≠ sanitizeRoomCode roomCodeInput ->
                  Registry.get c (rooms s') = Registry.get c (rooms s))
    /\ dictionary s' = dictionary s.
Proof.
  intros Hrun Hok.
  pose proof (createPlayerId_nonempty h) as Hid.
  assert (Hpid : forall playerId, res_playerId res = Some playerId -> playerId ≠ "").
  { revert Hrun. unfold joinRoom, mret, M_ret.
    repeat (case_bool_decide; [intros [= <- <- <-]; discriminate|]).
    destruct (Registry.get _ (rooms s)); [|intros [= <- <- <-]; discriminate].
    repeat (case_bool_decide; [intros [= <- <- <-]; discriminate|]).
    destruct (existsb _ _); [intros [= <- <- <-]; discriminate|].
    unfold mbind at 1. unfold M_bind at 1.
    destruct (createPlayerId h) as [pid h2]. cbn [fst] in Hid.
    run_m. intros [= <- <- <-] pid' [= <-]. exact Hid. }
  apply joinRoom_run in Hrun as [(Hfail & _)|(_ & Ht & Hd & _ & Hrest)]; [congruence|].
  destruct Hrest as (room & room' & playerId & joined & Hget & Hget' & _ & Hres & Hp
                     & Hs & Hph & Hph' & Hlen & Hdup & Hname & Hem & Hcfg & Hh & Hcode).
  exists room, room', playerId, joined.
  split; [exact Hget|]. split; [exact Hph|]. split; [exact Hlen|].
  split.
  { apply Forall_forall. intros p Hin Heq.
    assert (Hex : existsb (fun p => sameName (pl_name p) (sanitizePlayerName nameInput))
                    (players room) = true).
    { apply existsb_exists. exists p. split; [by apply list_elem_of_In|].
      unfold sameName. by apply bool_decide_eq_true. }
    congruence. }
  split; [exact Hname|]. split; [exact Hget'|]. split; [exact Hp|].
  split; [by apply Hpid|]. split; [exact Hph'|]. split; [exact Hem|].
  split; [exact Hcfg|]. split; [exact Hh|]. split; [exact Hres|].
  split; [by rewrite <- Hcode|].
  split; [intros c Hne; by eapply touched_elsewhere|exact Hd].
Qed.

(** Cy joins the sample lobby as third player. *)
Lemma joinRoom_adds_newcomer_witness :
  exists room',
    Registry.get SAMPLE_CODE
      (rooms (snd (fst (joinRoom "sockC" "deeffg" " Cy " sampleLobby
                          (sampleHost 2600 0))))) = Some room'
    /\ (pl_name <$> players room') = ["Ava"; "Bo"; "Cy"].
Proof.
  assert (Hok : res_ok (fst (fst (joinRoom "sockC" "deeffg" " Cy " sampleLobby
                                    (sampleHost 2600 0)))) = true)
    by (vm_compute; reflexivity).
  destruct (joinRoom_adds_newcomer _ _ _ _ _ _ _ _ (triple_eta _) Hok)
    as (room & room' & playerId & joined & Hget & _ & _ & _ & _ & Hget' & Hp & _).
  exists room'. split; [exact Hget'|]. rewrite Hp.
  assert (Hroom : Registry.get SAMPLE_CODE (rooms sampleLobby) = Some _)
    by (vm_compute; reflexivity).
  change (sanitizeRoomCode "deeffg") with SAMPLE_CODE in Hget.
  rewrite Hroom in Hget. injection Hget as <-. reflexivity.
Defined.

(** X11. [reconnectPlayer] asks for nothing but the room code and the player
    identifier: it is accepted exactly when the room exists and has a player
    with that identifier, whoever calls and whether or not that player is
    connected.  Then the player is connected on the calling socket, under a
    new name only if one is given that is not empty, differs from the old one
    and is not taken by a player with another identifier; the room is no
    longer marked empty and the calling socket speaks for the player. *)
Theorem reconnectPlayer_needs_only_the_id
    socket roomCodeInput playerId nameInput s h res s' h' :
  reconnectPlayer socket roomCodeInput playerId nameInput s h = (res, s', h') ->
  (res_ok res = true <->
   exists room, Registry.get (sanitizeRoomCode roomCodeInput) (rooms s) = Some room
                /\ is_Some (findPlayer room playerId))
  /\ (res_ok res = true ->
      exists room i player room',
        Registry.get (sanitizeRoomCode roomCodeInput) (rooms s) = Some room
        /\ findPlayer room playerId = Some (i, player)
        /\ Registry.get (sanitizeRoomCode roomCodeInput) (rooms s') = Some room'
        /\ players room'
           = <[i:=set_connected true
                    (set_socketId (Some socket) (reconnectName room player nameInput))]>
               (players room)
        /\ emptySince room' = None
        /\ socketOwnsPlayer s' socket (code room) playerId = true
        /\ res_playerId res = Some playerId).
Proof.
  intros Hrun.
  apply reconnectPlayer_run in Hrun as (_ & _ & [(Hfail & _ & _ & Hwhy)|(Hok & _ & Hrest)]).
  - split; [|congruence]. split; [congruence|].
    intros (room & Hget & Hsome).
    destruct Hwhy as [Hnone|(room0 & Hget0 & Hnone)]; [congruence|].
    rewrite Hget in Hget0. injection Hget0 as <-. rewrite Hnone in Hsome.
    by destruct Hsome.
  - destruct Hrest as (room & i & player & room' & back & Hget & Hf & Hget' & _ & ->
                       & Hp & Hem & Hs & Hres).
    split.
    + split; [intros _|done]. exists room. split; [done|]. by rewrite Hf.
    + intros _. exists room, i, player, room'. do 5 (split; [done|]).
      split; [|done]. unfold socketOwnsPlayer. rewrite Hs, lookup_insert_eq.
      cbn [sess_roomCode sess_playerId]. by rewrite !bool_decide_true.
Qed.

(** Bo comes back to the sample lobby on a third socket, which then speaks
    for Bo. *)
Lemma reconnectPlayer_needs_only_the_id_witness :
  res_ok (fst (fst (reconnectPlayer "sockC" SAMPLE_CODE BO None sampleLobby
                      (sampleHost 2600 0)))) = true.
Proof.
  assert (Hget : Registry.get SAMPLE_CODE (rooms sampleLobby) = Some _)
    by (vm_compute; reflexivity).
  match type of Hget with
  | _ = Some ?r =>
      assert (Hfind : is_Some (findPlayer r BO)) by (vm_compute; eexists; reflexivity)
  end.
  apply (proj1 (reconnectPlayer_needs_only_the_id "sockC" SAMPLE_CODE BO None
                  sampleLobby (sampleHost 2600 0) _ _ _ (triple_eta _))).
  eexists. split; [exact Hget|exact Hfind].
Defined.

(** X12. [updateSettings], accepted: the caller's socket speaks for the host of a
    room in the lobby; a turn length that is given is rounded and clamped
    into 5..20 seconds, a number of starting lives into 1..5, and a value
    that is not finite gives the lower bound; what is not given stays.  The
    lives the players already have are not touched, and no other room
    changes. *)
Theorem updateSettings_clamps socket payload s h res s' h' :
  updateSettings socket payload s h = (res, s', h') ->
  res_ok res = true ->
  socketOwnsPlayer s socket (sanitizeRoomCode (us_roomCode payload))
    (us_playerId payload) = true
  /\ exists room room',
      Registry.get (sanitizeRoomCode (us_roomCode payload)) (rooms s) = Some room
      /\ Registry.get (sanitizeRoomCode (us_roomCode payload)) (rooms s') = Some room'
      /\ hostId room = us_playerId payload
      /\ (forall v, us_turnSeconds payload = Some v ->
            turnSeconds (config room') = clampInt v MIN_TURN_SECONDS MAX_TURN_SECONDS
            /\ 5 <= turnSeconds (config room') <= 20)
      /\ (us_turnSeconds payload = None ->
            turnSeconds (config room') = turnSeconds (config room))
      /\ (forall v, us_startingLives payload = Some v ->
            startingLives (config room')
            = clampInt v MIN_STARTING_LIVES MAX_STARTING_LIVES
            /\ 1 <= startingLives (config room') <= 5)
      /\ (us_startingLives payload = None ->
            startingLives (config room') = startingLives (config room))
      /\ players room' = players room
      /\ (forall c, c ≠ sanitizeRoomCode (us_roomCode payload) ->
                    Registry.get c (rooms s') = Registry.get c (rooms s)).
Proof.
  intros Hrun Hok.
  apply updateSettings_run in Hrun as [(Hfail & _)|(_ & Ht & _ & _ & _ & Hown & Hrest)];
    [congruence|].
  destruct Hrest as (room & room' & Hget & Hget' & Hh & Hturn & Hlives & _ & Hp).
  split; [exact Hown|]. exists room, room'.
  do 3 (split; [done|]).
  split.
  { intros v Hv. rewrite Hv in Hturn. split; [exact Hturn|]. rewrite Hturn.
    apply (clampInt_bounds v MIN_TURN_SECONDS MAX_TURN_SECONDS).
    unfold MIN_TURN_SECONDS, MAX_TURN_SECONDS. lia. }
  split; [intros Hv; by rewrite Hv in Hturn|].
  split.
  { intros v Hv. rewrite Hv in Hlives. split; [exact Hlives|]. rewrite Hlives.
    apply (clampInt_bounds v MIN_STARTING_LIVES MAX_STARTING_LIVES).
    unfold MIN_STARTING_LIVES, MAX_STARTING_LIVES. lia. }
  split; [intros Hv; by rewrite Hv in Hlives|].
  split; [exact Hp|]. intros c Hne. by eapply touched_elsewhere.
Qed.

(** Ava asks for turns of 99 seconds in the sample lobby and gets 20. *)
Lemma updateSettings_clamps_witness :
  exists room',
    Registry.get SAMPLE_CODE
      (rooms (snd (fst (updateSettings "sockA"
                          (mkUpdateSettings SAMPLE_CODE AVA
                             (Some (Js.Finite (inject_Z 99))) None None)
                          sampleLobby (sampleHost 2600 0))))) = Some room'
    /\ turnSeconds (config room') = 20.
Proof.
  assert (Hok : res_ok (fst (fst (updateSettings "sockA"
                          (mkUpdateSettings SAMPLE_CODE AVA
                             (Some (Js.Finite (inject_Z 99))) None None)
                          sampleLobby (sampleHost 2600 0)))) = true)
    by (vm_compute; reflexivity).
  destruct (updateSettings_clamps _ _ _ _ _ _ _ (triple_eta _) Hok)
    as (_ & room & room' & _ & Hget' & _ & Hturn & _).
  exists room'. split; [exact Hget'|].
  destruct (Hturn _ eq_refl) as [-> _]. reflexivity.
Defined.

Lemma chooseChunk_dates previous h : dates (snd (chooseChunk previous h)) = dates h.
Proof. unfold chooseChunk, random_index, Math_random. unfold_m. reflexivity. Qed.

(** X13. [startGame], accepted: the caller's socket speaks for the host of a room
    in the lobby with at least two connected players.  Every player starts
    with no score, the configured lives and not eliminated; the word log is
    empty; the bomb goes to the first connected player in join order, with a
    chunk of the catalogue and a timer of the configured length from the
    current clock reading.  The settings and every other room stay. *)
Theorem startGame_first_turn socket payload s h res s' h' :
  startGame socket payload s h = (res, s', h') ->
  res_ok res = true ->
  socketOwnsPlayer s socket (sanitizeRoomCode (pa_roomCode payload))
    (pa_playerId payload) = true
  /\ exists room room' first,
      Registry.get (sanitizeRoomCode (pa_roomCode payload)) (rooms s) = Some room
      /\ Registry.get (sanitizeRoomCode (pa_roomCode payload)) (rooms s') = Some room'
      /\ hostId room = pa_playerId payload
      /\ phase room = lobby /\ (2 <= connectedCount room)%nat
      /\ phase room' = in_game
      /\ players room'
         = map (fun p => set_eliminated false
                           (set_lives (startingLives (config room)) (set_score 0 p)))
             (players room)
      /\ head (filter (fun p => connected p = true) (players room)) = Some first
      /\ activePlayerId room' = Some (pl_id first)
      /\ (exists chunk, currentChunk room' = Some chunk /\ chunk ∈ CHUNKS)
      /\ timerEndsAt room' = Some (dates h 0%nat + turnSeconds (config room) * 1000)
      /\ usedWords room' = ∅ /\ usedWordsOrdered room' = [] /\ winnerId room' = None
      /\ config room' = config room
      /\ (forall c, c ≠ sanitizeRoomCode (pa_roomCode payload) ->
                    Registry.get c (rooms s') = Registry.get c (rooms s)).
Proof.
  intros Hrun Hok.
  apply startGame_run in Hrun as [(Hfail & _)|(_ & Ht & _ & _ & _ & Hown & Hrest)];
    [congruence|].
  destruct Hrest as (room & room' & first & Hget & Hget' & Hh & Hph & Hph' & Hcount
                     & Hp & Hhead & Ha & Hc & Htimer & Hu & Ho & Hw & Hcfg).
  split; [exact Hown|]. exists room, room', first.
  do 3 (split; [done|]). split; [done|].
  split; [unfold MIN_PLAYERS_TO_START in Hcount; lia|].
  do 5 (split; [done|]).
  split.
  { rewrite Htimer. unfold Date_now. cbn [fst]. by rewrite chooseChunk_dates. }
  do 4 (split; [done|]). intros c Hne. by eapply touched_elsewhere.
Qed.

(** Ava starts the sample game and holds the bomb first. *)
Lemma startGame_first_turn_witness :
  exists room',
    Registry.get SAMPLE_CODE
      (rooms (snd (fst (startGame "sockA" (mkPlayerAction SAMPLE_CODE AVA) sampleLobby
                          (sampleHost 3000 9))))) = Some room'
    /\ activePlayerId room' = Some AVA
    /\ timerEndsAt room' = Some 13000.
Proof.
  assert (Hok : res_ok (fst (fst (startGame "sockA" (mkPlayerAction SAMPLE_CODE AVA)
                                    sampleLobby (sampleHost 3000 9)))) = true)
    by (vm_compute; reflexivity).
  destruct (startGame_first_turn _ _ _ _ _ _ _ (triple_eta _) Hok)
    as (_ & room & room' & first & Hget & Hget' & _ & _ & _ & _ & _ & Hhead & Ha
        & _ & Htimer & _).
  exists room'. split; [exact Hget'|].
  assert (Hroom : Registry.get SAMPLE_CODE (rooms sampleLobby) = Some _)
    by (vm_compute; reflexivity).
  change (sanitizeRoomCode (pa_roomCode (mkPlayerAction SAMPLE_CODE AVA)))
    with SAMPLE_CODE in Hget.
  rewrite Hroom in Hget. injection Hget as <-.
  vm_compute in Hhead. injection Hhead as <-.
  split; [exact Ha|exact Htimer].
Defined.

(** X14. [playAgain], accepted: the caller's socket speaks for the host of a room
    whose match is over.  The room is back in the lobby with no bomb holder,
    chunk, timer or winner and an empty word log; every player has no score,
    the configured lives and is not eliminated; roster order, connections,
    settings, host and every other room stay. *)
Theorem playAgain_resets socket payload s h res s' h' :
  playAgain socket payload s h = (res, s', h') ->
  res_ok res = true ->
  socketOwnsPlayer s socket (sanitizeRoomCode (pa_roomCode payload))
    (pa_playerId payload) = true
  /\ exists room room',
      Registry.get (sanitizeRoomCode (pa_roomCode payload)) (rooms s) = Some room
      /\ Registry.get (sanitizeRoomCode (pa_roomCode payload)) (rooms s') = Some room'
      /\ hostId room = pa_playerId payload
      /\ phase room = results /\ phase room' = lobby
      /\ players room'
         = map (fun p => set_eliminated false
                           (set_lives (startingLives (config room)) (set_score 0 p)))
             (players room)
      /\ activePlayerId room' = None /\ currentChunk room' = None
      /\ previousChunk room' = None /\ timerEndsAt room' = None
      /\ winnerId room' = None
      /\ usedWords room' = ∅ /\ usedWordsOrdered room' = []
      /\ config room' = config room /\ hostId room' = hostId room
      /\ (forall c, c ≠ sanitizeRoomCode (pa_roomCode payload) ->
                    Registry.get c (rooms s') = Registry.get c (rooms s)).
Proof.
  intros Hrun Hok.
  apply playAgain_run in Hrun as [(Hfail & _)|(_ & Ht & _ & _ & _ & Hown & Hrest)];
    [congruence|].
  destruct Hrest as (room & room' & Hget & Hget' & Hh & Hph & Hph' & Hp & Ha & Hc
                     & Hpc & Htimer & Hw & Hu & Ho & Hcfg & Hh').
  split; [exact Hown|]. exists room, room'.
  do 15 (split; [assumption|]). intros c Hne. by eapply touched_elsewhere.
Qed.

(** After Ava has won the sample match she sends everybody back to the
    lobby. *)
Lemma playAgain_resets_witness :
  exists room',
    Registry.get SAMPLE_CODE
      (rooms (snd (fst (playAgain "sockA" (mkPlayerAction SAMPLE_CODE AVA)
                          sampleResults (sampleHost 7000 0))))) = Some room'
    /\ phase room' = lobby /\ winnerId room' = None.
Proof.
  assert (Hok : res_ok (fst (fst (playAgain "sockA" (mkPlayerAction SAMPLE_CODE AVA)
                                    sampleResults (sampleHost 7000 0)))) = true)
    by (vm_compute; reflexivity).
  destruct (playAgain_resets _ _ _ _ _ _ _ (triple_eta _) Hok)
    as (_ & room & room' & _ & Hget' & _ & _ & Hph & _ & _ & _ & _ & _ & Hw & _).
  exists room'. split; [exact Hget'|]. by split.
Defined.

Lemma submitWord_accepts socket payload s h room i player :
  Registry.get (sanitizeRoomCode (sw_roomCode payload)) (rooms s) = Some room ->
  accepted_word s socket payload (dates h 0%nat) room i player ->
  res_ok (fst (fst (submitWord socket payload s h))) = true.
Proof.
  intros Hget (Hrate & Hown & Hph & Hf & He & Ha & Hshape & Hlen & Hchunk & Hnew & Hd).
  unfold submitWord. unfold mbind at 1. unfold M_bind at 1. unfold Date_now at 1.
  cbn [fst snd].
  rewrite (proj2 (Z.ltb_ge _ _) Hrate).
  cbn [rooms set_lastSubmitAtBySocket]. rewrite Hget, socketOwnsPlayer_stamp, Hown.
  cbn [negb]. rewrite bool_decide_false by congruence. rewrite Hf.
  unfold isEligible in He. apply andb_true_iff in He as [Hc Hel].
  apply negb_true_iff in Hel. rewrite Hc, Hel. cbn [negb orb].
  rewrite bool_decide_false by (intros Hne; by apply Hne).
  rewrite Hshape. cbn [negb].
  rewrite bool_decide_false by lia.
  destruct Hchunk as (chunk & Hcur & Hne & Hinc). rewrite Hcur.
  cbn [fmap option_fmap option_map]. rewrite bool_decide_false by exact Hne.
  rewrite Hinc. cbn [negb orb].
  rewrite bool_decide_false by exact Hnew.
  replace (dictionaryEnabled (config room)
           && negb (dict_has (dictionary
                (set_lastSubmitAtBySocket
                   (<[socket:=dates h 0%nat]> (lastSubmitAtBySocket s)) s))
                (sanitizeWord (sw_word payload)))) with false.
  2:{ cbn [dictionary set_lastSubmitAtBySocket].
      destruct (dictionaryEnabled (config room)); [|reflexivity].
      by rewrite Hd. }
  unfold mbind at 1. unfold M_bind at 1.
  destruct (advanceTurn _ _ _) as [adv h1].
  run_m. reflexivity.
Qed.

(** X15. [submitWord] accepts a word exactly when every check passes: at least
    300 ms since the connection's last stamped submission, the socket speaks
    for the player, the match is running, the player is connected, not
    eliminated and holds the bomb, the trimmed and lowercased word is made of
    letters a-z only, is at least three letters long, contains the lowercased
    chunk, which is not empty, has not been used in this match, and is in the
    dictionary when the room has the dictionary on.  The accepted word goes to
    the end of the log and into the used set, the player scores one point and
    nothing else of the roster changes. *)
Theorem submitWord_accepts_exactly socket payload s h res s' h' :
  submitWord socket payload s h = (res, s', h') ->
  (res_ok res = true <->
   exists room i player,
     Registry.get (sanitizeRoomCode (sw_roomCode payload)) (rooms s) = Some room
     /\ accepted_word s socket payload (dates h 0%nat) room i player)
  /\ (res_ok res = true ->
      exists room i player room',
        Registry.get (sanitizeRoomCode (sw_roomCode payload)) (rooms s) = Some room
        /\ findPlayer room (sw_playerId payload) = Some (i, player)
        /\ Registry.get (sanitizeRoomCode (sw_roomCode payload)) (rooms s') = Some room'
        /\ players room' = <[i:=set_score (score player + 1) player]> (players room)
        /\ usedWordsOrdered room'
           = usedWordsOrdered room ++ [sanitizeWord (sw_word payload)]
        /\ usedWords room' = {[sanitizeWord (sw_word payload)]} ∪ usedWords room
        /\ config room' = config room /\ hostId room' = hostId room).
Proof.
  intros Hrun.
  pose proof (f_equal (fun x => res_ok (fst (fst x))) Hrun) as Hres. cbn in Hres.
  apply submitWord_run in Hrun as (_ & _ & [(Hfail & _)|(Hok & _ & _ & Hrest)]).
  - split; [|congruence]. split; [congruence|].
    intros (room & i & player & Hget & Hacc).
    rewrite (submitWord_accepts _ _ _ _ _ _ _ Hget Hacc) in Hres. congruence.
  - destruct Hrest as (room & i & player & adv & fromHost & toHost & updated
                       & Hget & Hacc & Hadv & Hget').
    split.
    + split; [intros _|done]. by exists room, i, player.
    + intros _. exists room, i, player, (set_updatedAt updated adv).
      apply advanceTurn_advanced in Hadv as [Hp Hcfg Hh _ Hu Ho _ _].
      split; [done|]. split; [apply Hacc|]. split; [done|].
      cbn [players usedWordsOrdered usedWords config hostId set_updatedAt].
      rewrite Hp, Hcfg, Hh, Hu, Ho. repeat split.
Qed.

(** Ava's first word in the sample match, [" Teach "] for the chunk
    ["CH"], is accepted. *)
Lemma submitWord_accepts_exactly_witness :
  exists room',
    Registry.get SAMPLE_CODE
      (rooms (snd (fst (submitWord "sockA" (mkSubmitWord SAMPLE_CODE AVA " Teach ")
                          sampleMatch (sampleHost 4000 11))))) = Some room'
    /\ usedWordsOrdered room' = ["teach"].
Proof.
  assert (Hok : res_ok (fst (fst (submitWord "sockA"
                                    (mkSubmitWord SAMPLE_CODE AVA " Teach ")
                                    sampleMatch (sampleHost 4000 11)))) = true)
    by (vm_compute; reflexivity).
  destruct (proj2 (submitWord_accepts_exactly _ _ _ _ _ _ _ (triple_eta _)) Hok)
    as (room & i & player & room' & Hget & _ & Hget' & _ & Hlog & _).
  exists room'. split; [exact Hget'|]. rewrite Hlog.
  assert (Hroom : Registry.get SAMPLE_CODE (rooms sampleMatch) = Some _)
    by (vm_compute; reflexivity).
  change (sanitizeRoomCode (sw_roomCode (mkSubmitWord SAMPLE_CODE AVA " Teach ")))
    with SAMPLE_CODE in Hget.
  rewrite Hroom in Hget. injection Hget as <-. reflexivity.
Defined.

(** X16. [createRoom]: refused without touching anything when the sanitized name
    is empty; otherwise, unless no code can be allocated, a room is added
    under a code of six characters of the code alphabet that no room had: in
    the lobby, with the default settings (10 seconds, 3 lives, the dictionary
    on exactly when the server has one), the caller as host and only player,
    connected, and the calling socket bound to it.  The rooms that existed
    stay as they were. *)
Theorem createRoom_opens_fresh_room socket nameInput s h res s' h' :
  createRoom socket nameInput s h = (res, s', h') ->
  (sanitizePlayerName nameInput = "" ->
   s' = s /\ h' = h /\ exists r, res = Some r /\ res_ok r = false)
  /\ (res = None -> s' = s)
  /\ (forall r, res = Some r -> res_ok r = true ->
      exists roomCode playerId joined room,
        res_roomCode r = Some roomCode /\ res_playerId r = Some playerId
        /\ Registry.get roomCode (rooms s) = None
        /\ String.length roomCode = 6%nat
        /\ Js.all_chars room_char roomCode = true
        /\ Registry.get roomCode (rooms s') = Some room
        /\ code room = roomCode /\ hostId room = playerId /\ phase room = lobby
        /\ config room
           = mkRoomConfig DEFAULT_TURN_SECONDS DEFAULT_STARTING_LIVES
               (dict_enabled (dictionary s))
        /\ players room
           = [mkPlayer playerId (sanitizePlayerName nameInput) joined (Some socket)
                true 0 DEFAULT_STARTING_LIVES false]
        /\ playerId ≠ ""
        /\ usedWords room = ∅ /\ usedWordsOrdered room = []
        /\ activePlayerId room = None /\ emptySince room = None
        /\ socketSessions s' = <[socket := mkSession roomCode playerId]> (socketSessions s)
        /\ (forall c, c ≠ roomCode ->
                      Registry.get c (rooms s') = Registry.get c (rooms s))).
Proof.
  intros Hrun.
  apply createRoom_run in Hrun as (_ & _ & [(-> & Hwhy)|Hnew]).
  - split; [|split; [done|]].
    + intros Hname. destruct Hwhy as [[_ Hne]|(_ & -> & r & -> & Hfail)].
      * by destruct Hne.
      * eauto.
    + intros r -> Hok. destruct Hwhy as [[[=] _]|(_ & _ & r' & [= <-] & Hfail)].
      congruence.
  - destruct Hnew as (r & roomCode & playerId & room & -> & Hok & Hname & Hc & Hp
                      & Hnone & Hborn & Hh & (joined & Hplayers) & Hrooms & Hs).
    split; [intros Hempty; by destruct Hname|]. split; [discriminate|].
    intros r0 [= <-] _.
    destruct Hborn as (pid & name & sock & j & created & updated
                       & Hpid & _ & Hlen & Hchars & ->).
    cbn [hostId players] in Hh, Hplayers. subst pid.
    exists roomCode, playerId, joined. eexists.
    do 5 (split; [done|]).
    split; [rewrite Hrooms, Registry_get_set; by rewrite decide_True|].
    do 4 (split; [reflexivity|]). split; [exact Hplayers|]. split; [exact Hpid|].
    do 4 (split; [reflexivity|]). split; [exact Hs|].
    intros c Hne. rewrite Hrooms, Registry_get_set. by rewrite decide_False by congruence.
Qed.

(** Ava opens the first room of a fresh server; its code is ["DEEFFG"]. *)
Lemma createRoom_opens_fresh_room_witness :
  exists room,
    Registry.get SAMPLE_CODE
      (rooms (snd (fst (createRoom "sockA" "Ava" (newGameService disabledDictionary)
                          (sampleHost 1000 7))))) = Some room
    /\ (pl_name <$> players room) = ["Ava"] /\ phase room = lobby.
Proof.
  assert (Hres : fst (fst (createRoom "sockA" "Ava" (newGameService disabledDictionary)
                             (sampleHost 1000 7))) = Some _)
    by (vm_compute; reflexivity).
  destruct (proj2 (proj2 (createRoom_opens_fresh_room _ _ _ _ _ _ _ (triple_eta _)))
              _ Hres eq_refl)
    as (roomCode & playerId & joined & room & Hcode & _ & _ & _ & _ & Hget & _ & _
        & Hph & _ & Hp & _).
  injection Hcode as <-.
  exists room. split; [exact Hget|]. rewrite Hp. by split.
Defined.

(** X17. [handleDisconnect] of a connection that still speaks for a player:
    the player is marked disconnected and loses the socket, nothing else of
    the roster and nothing of the settings changes, the room is marked empty
    exactly when nobody in it is connected any more, and no other room
    changes.  In every case the session and the rate-limit entry of the
    connection are dropped. *)
Theorem handleDisconnect_marks_player socket s h s' h' :
  handleDisconnect socket s h = (s', h') ->
  socketSessions s' = delete socket (socketSessions s)
  /\ lastSubmitAtBySocket s' = delete socket (lastSubmitAtBySocket s)
  /\ dictionary s' = dictionary s
  /\ forall session room i player,
       live_session s socket session room i player ->
       exists room',
         Registry.get (sess_roomCode session) (rooms s') = Some room'
         /\ players room'
            = <[i:=set_connected false (set_socketId None player)]> (players room)
         /\ config room' = config room
         /\ (emptySince room' = None <-> connectedCount room' ≠ 0%nat)
         /\ (forall c, c ≠ sess_roomCode session ->
                       Registry.get c (rooms s') = Registry.get c (rooms s)).
Proof.
  intros Hrun.
  pose proof (handleDisconnect_run _ _ _ _ _ Hrun) as (Hd & Hs & Hl & _).
  do 3 (split; [done|]).
  intros session room i player Hlive.
  apply handleDisconnect_step in Hrun
    as [(_ & _ & Hnot)|(session' & room0 & i' & player' & Hlive' & Ht & Hrest)];
    [by destruct (Hnot _ _ _ _ Hlive)|].
  destruct Hlive as (Hsess & Hget & Hf & Hsock).
  destruct Hlive' as (Hsess' & Hget0 & Hf' & _).
  rewrite Hsess in Hsess'. injection Hsess' as <-.
  rewrite Hget in Hget0. injection Hget0 as <-.
  rewrite Hf in Hf'. injection Hf' as <- <-.
  destruct Hrest as (room' & Hget' & Hp & Hcfg & Hem).
  exists room'. do 4 (split; [done|]).
  intros c Hne. by eapply touched_elsewhere.
Qed.

(** Bo's connection closes in the sample lobby: Bo stays on the roster,
    disconnected. *)
Lemma handleDisconnect_marks_player_witness :
  exists room',
    Registry.get SAMPLE_CODE
      (rooms (fst (handleDisconnect "sockB" sampleLobby (sampleHost 2500 0))))
    = Some room'
    /\ (connected <$> players room') = [true; false].
Proof.
  assert (Hsess : socketSessions sampleLobby !! "sockB" = Some (mkSession SAMPLE_CODE BO))
    by (vm_compute; reflexivity).
  assert (Hget : Registry.get SAMPLE_CODE (rooms sampleLobby) = Some _)
    by (vm_compute; reflexivity).
  match type of Hget with
  | _ = Some ?r =>
      assert (Hf : findPlayer r BO = Some (1%nat, _)) by (vm_compute; reflexivity)
  end.
  match type of Hf with
  | _ = Some (_, ?p) =>
      assert (Hsock : socketId p = Some "sockB") by reflexivity
  end.
  destruct (proj2 (proj2 (proj2 (handleDisconnect_marks_player "sockB" sampleLobby
              (sampleHost 2500 0) _ _ (surjective_pairing _))))
              _ _ _ _ (conj Hsess (conj Hget (conj Hf Hsock))))
    as (room' & Hget' & Hp & _).
  exists room'. split; [exact Hget'|]. rewrite Hp. vm_compute. reflexivity.
Defined.

(** ** The timers and the snapshot *)

Lemma cleanup_fold_spec now entries acc c :
  Registry.get c
    (fold_left
       (fun m e => if isStale now (snd e) then Registry.delete (fst e) m else m)
       entries acc)
  = if existsb (fun e => bool_decide (fst e = c) && isStale now (snd e)) entries
    then None else Registry.get c acc.
Proof.
  revert acc. induction entries as [|[k v] entries IH]; intros acc; [reflexivity|].
  cbn [fold_left existsb fst snd]. rewrite IH.
  destruct (existsb _ entries); [by rewrite orb_true_r|]. rewrite orb_false_r.
  destruct (isStale now v); [|by rewrite andb_false_r].
  rewrite andb_true_r, Registry_get_delete.
  destruct (decide (k = c)) as [->|Hne].
  - by rewrite bool_decide_true.
  - by rewrite bool_decide_false.
Qed.

Lemma stale_entry_absent now (m : Registry.t) c :
  c ∉ Registry.keys m ->
  existsb (fun e => bool_decide (fst e = c) && isStale now (snd e)) m = false.
Proof.
  induction m as [|[k v] m IH]; [reflexivity|].
  cbn [Registry.keys map fst]. rewrite not_elem_of_cons. intros [Hne Hnot].
  cbn [existsb fst snd]. rewrite bool_decide_false by congruence.
  apply IH, Hnot.
Qed.

Lemma stale_entry_get now (m : Registry.t) c :
  NoDup (Registry.keys m) ->
  existsb (fun e => bool_decide (fst e = c) && isStale now (snd e)) m
  = match Registry.get c m with
    | Some room => isStale now room
    | None => false
    end.
Proof.
  induction m as [|[k v] m IH]; [reflexivity|].
  cbn [Registry.keys map fst]. rewrite NoDup_cons. intros [Hk Hnd].
  cbn [existsb fst snd Registry.get].
  destruct (decide (k = c)) as [->|Hne].
  - rewrite bool_decide_true by reflexivity.
    rewrite (stale_entry_absent now m c Hk). by rewrite orb_false_r.
  - rewrite bool_decide_false by exact Hne. by apply IH.
Qed.

(** X18. [cleanupRooms] in a reachable state: a room is dropped exactly when it
    has been marked empty for more than five minutes at the clock reading of
    the sweep; every other room stays as it is; a room in which somebody is
    connected is never dropped.  Sessions, rate-limit entries and the
    dictionary are not touched. *)
Theorem cleanupRooms_evicts_exactly_stale (s : GameService) (h : Host) (c : string) :
  reachable s ->
  Registry.get c (rooms (fst (cleanupRooms s h)))
  = match Registry.get c (rooms s) with
    | Some room =>
        match emptySince room with
        | Some since =>
            if (5 * 60 * 1000 <? dates h 0%nat - since) then None else Some room
        | None => Some room
        end
    | None => None
    end
  /\ (forall room,
        Registry.get c (rooms s) = Some room -> connectedCount room ≠ 0%nat ->
        Registry.get c (rooms (fst (cleanupRooms s h))) = Some room)
  /\ socketSessions (fst (cleanupRooms s h)) = socketSessions s
  /\ lastSubmitAtBySocket (fst (cleanupRooms s h)) = lastSubmitAtBySocket s
  /\ dictionary (fst (cleanupRooms s h)) = dictionary s.
Proof.
  intros Hreach.
  assert (Hget : Registry.get c (rooms (fst (cleanupRooms s h)))
                 = match Registry.get c (rooms s) with
                   | Some room => if isStale (dates h 0%nat) room then None else Some room
                   | None => None
                   end).
  { unfold cleanupRooms. run_m. rewrite cleanup_fold_spec.
    rewrite stale_entry_get by (by apply reachable_keys).
    by destruct (Registry.get c (rooms s)). }
  split; [|split].
  - rewrite Hget. destruct (Registry.get c (rooms s)) as [room|]; [|done].
    unfold isStale, EMPTY_ROOM_TTL_MS. by destruct (emptySince room).
  - intros room Hroom Hconn. rewrite Hget, Hroom.
    destruct (reachable_room_wf s c room Hreach Hroom) as [_ _ _ _ _ _ _ Hempty].
    apply Hempty in Hconn. unfold isStale. by rewrite Hconn.
  - unfold cleanupRooms. run_m. repeat split.
Qed.

(** The sample lobby, where both players are connected, survives a sweep
    however late it comes. *)
Lemma cleanupRooms_evicts_exactly_stale_witness :
  is_Some (Registry.get SAMPLE_CODE
             (rooms (fst (cleanupRooms sampleLobby (sampleHost 90000000 0))))).
Proof.
  assert (Hget : Registry.get SAMPLE_CODE (rooms sampleLobby) = Some _)
    by (vm_compute; reflexivity).
  eexists.
  apply (proj1 (proj2 (cleanupRooms_evicts_exactly_stale sampleLobby
                         (sampleHost 90000000 0) SAMPLE_CODE sampleLobby_reachable))
           _ Hget).
  vm_compute. discriminate.
Defined.

Lemma tickRoom_idle room h :
  phase room ≠ in_game \/ activePlayerId room = None \/ timerEndsAt room = None ->
  tickRoom room h = (room, h).
Proof.
  unfold tickRoom. intros [Hph|[Ha|Ht]].
  - by rewrite bool_decide_true.
  - case_bool_decide; [done|]. by rewrite Ha.
  - case_bool_decide; [done|]. rewrite Ht. by destruct (activePlayerId room).
Qed.

Lemma tickRooms_get_idle m h c room :
  Registry.get c m = Some room -> phase room ≠ in_game ->
  Registry.get c (fst (tickRooms m h)) = Some room.
Proof.
  revert h. induction m as [|[k v] m IH]; intros h; [discriminate|].
  cbn [Registry.get tickRooms]. unfold mbind, M_bind, mret, M_ret.
  destruct (tickRoom v h) as [v' h1] eqn:E1.
  destruct (tickRooms m h1) as [m' h2] eqn:E2. cbn [fst Registry.get].
  destruct (decide (k = c)) as [->|Hne].
  - intros [= ->] Hph. rewrite tickRoom_idle in E1 by auto. congruence.
  - intros Hget Hph. specialize (IH h1 Hget Hph). by rewrite E2 in IH.
Qed.

(** X19. [tick]: a room that is not in a match, or has no bomb holder or no
    timer, is passed over without a clock reading or a message; a room whose
    deadline is still ahead at its clock reading is left as it is.  The timer
    never adds or drops a room, and touches nothing but rooms. *)
Theorem tick_waits_for_the_deadline (s : GameService) (h : Host) :
  (forall room h0,
      phase room ≠ in_game \/ activePlayerId room = None \/ timerEndsAt room = None ->
      tickRoom room h0 = (room, h0))
  /\ (forall room h0 ends,
        timerEndsAt room = Some ends -> dates h0 0%nat < ends ->
        fst (tickRoom room h0) = room)
  /\ (forall c room,
        Registry.get c (rooms s) = Some room -> phase room ≠ in_game ->
        Registry.get c (rooms (fst (tick s h))) = Some room)
  /\ Registry.keys (rooms (fst (tick s h))) = Registry.keys (rooms s)
  /\ socketSessions (fst (tick s h)) = socketSessions s
  /\ lastSubmitAtBySocket (fst (tick s h)) = lastSubmitAtBySocket s
  /\ dictionary (fst (tick s h)) = dictionary s.
Proof.
  split; [intros room h0; apply tickRoom_idle|].
  split.
  { intros room h0 ends Ht Hlate. unfold tickRoom.
    case_bool_decide; [done|]. rewrite Ht.
    destruct (activePlayerId room) as [a|]; [|done].
    case_bool_decide; [done|].
    unfold mbind at 1. unfold M_bind at 1. unfold Date_now at 1. cbn [fst snd].
    rewrite (proj2 (Z.leb_gt _ _) Hlate). unfold_m.
    by destruct (broadcastRoom _ _). }
  unfold tick. unfold mbind, M_bind, mret, M_ret.
  destruct (tickRooms (rooms s) h) as [m h1] eqn:E. cbn [fst rooms set_rooms].
  split.
  { intros c room Hget Hph.
    pose proof (tickRooms_get_idle (rooms s) h c room Hget Hph) as Hidle.
    by rewrite E in Hidle. }
  split; [by eapply tickRooms_keys|]. repeat split.
Qed.

(** A tick over the sample lobby, where no match is running, changes
    nothing. *)
Lemma tick_waits_for_the_deadline_witness :
  exists room,
    Registry.get SAMPLE_CODE (rooms sampleLobby) = Some room
    /\ Registry.get SAMPLE_CODE (rooms (fst (tick sampleLobby (sampleHost 99999 0))))
       = Some room.
Proof.
  eexists.
  assert (Hget : Registry.get SAMPLE_CODE (rooms sampleLobby) = Some _)
    by (vm_compute; reflexivity).
  split; [exact Hget|].
  apply (proj1 (proj2 (proj2 (tick_waits_for_the_deadline sampleLobby
                                (sampleHost 99999 0)))) _ _ Hget).
  vm_compute. discriminate.
Defined.

Lemma serializeRoom_canStart room h :
  pub_canStart (fst (serializeRoom room h))
  = bool_decide (phase room = lobby) && bool_decide (2 <= connectedCount room)%nat.
Proof.
  unfold serializeRoom.
  destruct (timerEndsAt room) as [ends|];
    [destruct (bool_decide (phase room = in_game) && negb (ends =? 0))|];
    unfold_m; reflexivity.
Qed.

(** X20. The [canStart] flag of a snapshot agrees with [startGame]: a request of
    the host, sent on the socket that speaks for the host, is accepted
    exactly when the snapshot of the room says that the game can start.  In
    particular the refusal for want of an eligible player never happens. *)
Theorem canStart_agrees_with_startGame socket payload s h room h0 :
  Registry.get (sanitizeRoomCode (pa_roomCode payload)) (rooms s) = Some room ->
  socketOwnsPlayer s socket (sanitizeRoomCode (pa_roomCode payload))
    (pa_playerId payload) = true ->
  hostId room = pa_playerId payload ->
  res_ok (fst (fst (startGame socket payload s h)))
  = pub_canStart (fst (serializeRoom room h0)).
Proof.
  intros Hget Hown Hhost. rewrite serializeRoom_canStart.
  destruct (startGame socket payload s h) as [[res s'] h'] eqn:Hrun. cbn [fst].
  destruct (res_ok res) eqn:Hok.
  - apply startGame_run in Hrun as [(Hfail & _)|(_ & _ & _ & _ & _ & _ & Hrest)];
      [congruence|].
    destruct Hrest as (room0 & room' & first & Hget0 & _ & _ & Hph & _ & Hcount & _).
    rewrite Hget in Hget0. injection Hget0 as <-.
    rewrite bool_decide_true by exact Hph.
    rewrite bool_decide_true by exact Hcount. reflexivity.
  - symmetry. apply andb_false_iff.
    destruct (bool_decide_reflect (phase room = lobby)) as [Hph|Hph]; [|by left].
    destruct (bool_decide_reflect (2 <= connectedCount room)%nat) as [Hcount|Hcount];
      [|by right].
    exfalso. revert Hrun. unfold startGame, mret, M_ret.
    rewrite Hget, Hown. cbn [negb].
    rewrite bool_decide_false by (intros Hne; by apply Hne).
    rewrite bool_decide_false by (intros Hne; by apply Hne).
    rewrite bool_decide_false by (unfold MIN_PLAYERS_TO_START; lia).
    change (set_players _ (set_previousChunk None _)) with (matchReset room).
    pose proof (matchReset_eligible room) as Hel.
    destruct (getNextEligiblePlayer (matchReset room) None) as [firstActive|] eqn:Hnext.
    2:{ apply getNextEligiblePlayer_None in Hnext. rewrite Hnext in Hel.
        simpl in Hel. lia. }
    unfold mbind at 1. unfold M_bind at 1.
    destruct (chooseChunk None h) as [chunk h1].
    run_m. intros [= <- <- <-]. discriminate.
Qed.

(** In the sample lobby, with two connected players, the snapshot says that
    the game can start, and Ava's request is accepted. *)
Lemma canStart_agrees_with_startGame_witness :
  res_ok (fst (fst (startGame "sockA" (mkPlayerAction SAMPLE_CODE AVA) sampleLobby
                      (sampleHost 3000 9)))) = true.
Proof.
  assert (Hget : Registry.get SAMPLE_CODE (rooms sampleLobby) = Some _)
    by (vm_compute; reflexivity).
  match type of Hget with
  | _ = Some ?r =>
      assert (Hcan : pub_canStart (fst (serializeRoom r (sampleHost 0 0))) = true)
        by (vm_compute; reflexivity)
  end.
  rewrite <- Hcan.
  apply canStart_agrees_with_startGame; [exact Hget| |]; vm_compute; reflexivity.
Defined.

(** ** Every reachable state *)

(** X21. In every reachable state a room has between one and twelve players:
    [createRoom] puts the creator in, [joinRoom] refuses a thirteenth, and
    nothing ever takes a player off the roster. *)
Theorem room_has_one_to_twelve_players s c room :
  reachable s -> Registry.get c (rooms s) = Some room ->
  (1 <= length (players room) <= 12)%nat.
Proof.
  intros Hreach Hget.
  destruct (reachable_room_wf s c room Hreach Hget) as [_ _ _ [Hlen _] _ _ _ _].
  exact Hlen.
Qed.

Lemma room_has_one_to_twelve_players_witness :
  exists room,
    Registry.get SAMPLE_CODE (rooms sampleSecondTurn) = Some room
    /\ (1 <= length (players room) <= 12)%nat.
Proof.
  eexists.
  assert (Hget : Registry.get SAMPLE_CODE (rooms sampleSecondTurn) = Some _)
    by (vm_compute; reflexivity).
  split; [exact Hget|].
  exact (room_has_one_to_twelve_players _ _ _ sampleSecondTurn_reachable Hget).
Defined.

(** X22. In every reachable state the record of a player is consistent: the
    identifier and the name are not empty, the name has at most twenty
    characters, all letters, digits, blanks, underscores or hyphens; the
    lives are between 0 and 5 and the player is eliminated exactly when no
    life is left; the player is marked connected exactly when a socket is
    recorded; the score is not negative. *)
Theorem player_record_is_consistent s c room p :
  reachable s -> Registry.get c (rooms s) = Some room -> p ∈ players room ->
  pl_id p ≠ "" /\ pl_name p ≠ ""
  /\ (String.length (pl_name p) <= 20)%nat
  /\ Js.all_chars name_char (pl_name p) = true
  /\ 0 <= lives p <= 5
  /\ (eliminated p = true <-> lives p = 0)
  /\ (connected p = true <-> is_Some (socketId p))
  /\ 0 <= score p.
Proof.
  intros Hreach Hget Hin.
  destruct (reachable_room_wf s c room Hreach Hget) as [_ _ _ [_ Hall] _ _ _ _].
  rewrite Forall_forall in Hall.
  destruct (Hall p Hin) as (Hid & (Hname & Hlen & Hchars) & Hl & He & Hc & Hs).
  unfold MAX_STARTING_LIVES in Hl. do 7 (split; [done|]). done.
Qed.

Lemma player_record_is_consistent_witness :
  exists room p,
    Registry.get SAMPLE_CODE (rooms sampleSecondTurn) = Some room
    /\ p ∈ players room /\ pl_id p = AVA /\ 0 <= lives p <= 5.
Proof.
  eexists. eexists.
  assert (Hget : Registry.get SAMPLE_CODE (rooms sampleSecondTurn) = Some _)
    by (vm_compute; reflexivity).
  split; [exact Hget|].
  match type of Hget with
  | _ = Some ?r => assert (Hin : _ ∈ players r) by (vm_compute; left)
  end.
  split; [exact Hin|]. split; [reflexivity|].
  apply (player_record_is_consistent _ _ _ _ sampleSecondTurn_reachable Hget Hin).
Defined.

(** X23. In every reachable state the settings of a room are within bounds: 5
    to 20 seconds per turn, 1 to 5 starting lives, and the dictionary is on
    only if the server has loaded one. *)
Theorem settings_stay_in_bounds s c room :
  reachable s -> Registry.get c (rooms s) = Some room ->
  5 <= turnSeconds (config room) <= 20
  /\ 1 <= startingLives (config room) <= 5
  /\ (dictionaryEnabled (config room) = true -> dict_enabled (dictionary s) = true).
Proof.
  intros Hreach Hget.
  by destruct (reachable_room_wf s c room Hreach Hget) as [_ _ Hcfg _ _ _ _ _].
Qed.

Lemma settings_stay_in_bounds_witness :
  exists room,
    Registry.get SAMPLE_CODE (rooms sampleLobby) = Some room
    /\ 5 <= turnSeconds (config room) <= 20.
Proof.
  eexists.
  assert (Hget : Registry.get SAMPLE_CODE (rooms sampleLobby) = Some _)
    by (vm_compute; reflexivity).
  split; [exact Hget|].
  exact (proj1 (settings_stay_in_bounds _ _ _ sampleLobby_reachable Hget)).
Defined.

(** X24. In every reachable state the word log of a room and the scores agree:
    the used-word set holds exactly the words of the log, no word is twice
    in the log, every word is made of letters a-z and has at least three of
    them, and the scores of the players add up to the number of words. *)
Theorem word_log_matches_scores s c room :
  reachable s -> Registry.get c (rooms s) = Some room ->
  (forall w, w ∈ usedWords room <-> w ∈ usedWordsOrdered room)
  /\ NoDup (usedWordsOrdered room)
  /\ (forall w, w ∈ usedWordsOrdered room ->
        Js.test_lower_plus w = true /\ (3 <= String.length w)%nat)
  /\ foldr (fun p acc => score p + acc) 0 (players room)
     = Z.of_nat (length (usedWordsOrdered room)).
Proof.
  intros Hreach Hget.
  destruct (reachable_room_wf s c room Hreach Hget)
    as [_ _ _ _ (Hset & Hnd & Hwords & Htotal) _ _ _].
  split; [intros w; rewrite Hset; apply elem_of_list_to_set|].
  split; [exact Hnd|]. split; [|exact Htotal].
  intros w Hw. rewrite Forall_forall in Hwords. by apply Hwords.
Qed.

Lemma word_log_matches_scores_witness :
  exists room,
    Registry.get SAMPLE_CODE (rooms sampleSecondTurn) = Some room
    /\ foldr (fun p acc => score p + acc) 0 (players room) = 1.
Proof.
  eexists.
  assert (Hget : Registry.get SAMPLE_CODE (rooms sampleSecondTurn) = Some _)
    by (vm_compute; reflexivity).
  split; [exact Hget|].
  rewrite (proj2 (proj2 (proj2
             (word_log_matches_scores _ _ _ sampleSecondTurn_reachable Hget)))).
  reflexivity.
Defined.

(** X25. In every reachable state the phase of a room fixes the shape of the
    turn.  In the lobby there is no bomb holder, chunk, timer, winner or used
    word and nobody is eliminated.  During a match there are a chunk of the
    catalogue that differs from the previous one, a timer and no winner.
    After a match there is no bomb holder, chunk or timer and the winner is a
    player of the roster: a match never ends without a winner.  From the
    start of a match until the next lobby nobody has more lives than the
    settings give. *)
Theorem phase_fixes_turn_shape s c room :
  reachable s -> Registry.get c (rooms s) = Some room ->
  (phase room = lobby ->
   activePlayerId room = None /\ currentChunk room = None
   /\ previousChunk room = None /\ timerEndsAt room = None
   /\ winnerId room = None /\ usedWordsOrdered room = []
   /\ forall p, p ∈ players room -> eliminated p = false)
  /\ (phase room = in_game ->
      (exists chunk, currentChunk room = Some chunk /\ chunk ∈ CHUNKS)
      /\ currentChunk room ≠ previousChunk room
      /\ is_Some (timerEndsAt room) /\ winnerId room = None)
  /\ (phase room = results ->
      activePlayerId room = None /\ currentChunk room = None
      /\ timerEndsAt room = None
      /\ exists w, w ∈ players room /\ winnerId room = Some (pl_id w))
  /\ (phase room ≠ lobby ->
      forall p, p ∈ players room -> lives p <= startingLives (config room)).
Proof.
  intros Hreach Hget.
  destruct (reachable_room_wf s c room Hreach Hget) as [_ _ _ _ _ Hphase _ _].
  unfold phase_wf in Hphase. destruct (phase room).
  - destruct Hphase as (? & ? & ? & ? & ? & ? & Hall).
    split; [|split; [discriminate|split; [discriminate|done]]].
    intros _. do 6 (split; [done|]). by apply Forall_forall.
  - destruct Hphase as (? & ? & ? & ? & Hall).
    split; [discriminate|]. split; [done|]. split; [discriminate|].
    intros _. by apply Forall_forall.
  - destruct Hphase as (? & ? & ? & ? & Hall).
    split; [discriminate|]. split; [discriminate|]. split; [done|].
    intros _. by apply Forall_forall.
Qed.

Lemma phase_fixes_turn_shape_witness :
  exists room chunk,
    Registry.get SAMPLE_CODE (rooms sampleSecondTurn) = Some room
    /\ currentChunk room = Some chunk /\ chunk ∈ CHUNKS.
Proof.
  eexists.
  assert (Hget : Registry.get SAMPLE_CODE (rooms sampleSecondTurn) = Some _)
    by (vm_compute; reflexivity).
  destruct (proj1 (proj2 (phase_fixes_turn_shape _ _ _ sampleSecondTurn_reachable Hget))
              eq_refl) as ((chunk & Hc & Hin) & _).
  exists chunk. split; [exact Hget|]. by split.
Defined.

(** X26. In every reachable state a room is filed under its own code, six
    characters of the code alphabet, and its host is a player of the
    roster. *)
Theorem room_code_and_host_are_valid s c room :
  reachable s -> Registry.get c (rooms s) = Some room ->
  code room = c /\ String.length c = 6%nat
  /\ Js.all_chars (fun a => Js.includes ROOM_CHARS (String a EmptyString)) c = true
  /\ sanitizeRoomCode c = c
  /\ exists p, p ∈ players room /\ pl_id p = hostId room.
Proof.
  intros Hreach Hget.
  destruct (reachable_room_wf s c room Hreach Hget)
    as [Hcode [Hlen Hchars] _ _ _ _ Hhost _].
  split; [exact Hcode|]. split; [exact Hlen|]. split; [exact Hchars|].
  split; [|exact Hhost].
  assert (Hcc : Js.all_chars code_char c = true).
  { eapply all_chars_impl; [apply room_char_code|exact Hchars]. }
  unfold sanitizeRoomCode, Js.toUpperCase, Js.slice_to.
  rewrite (map_chars_id code_char) by (auto using upper_char_code).
  change (fun c => Js.is_upper c || Js.is_digit c) with code_char.
  rewrite filter_chars_id by exact Hcc.
  apply substring_0_short. lia.
Qed.

Lemma room_code_and_host_are_valid_witness :
  exists room p,
    Registry.get SAMPLE_CODE (rooms sampleLobby) = Some room
    /\ p ∈ players room /\ pl_id p = hostId room.
Proof.
  eexists.
  assert (Hget : Registry.get SAMPLE_CODE (rooms sampleLobby) = Some _)
    by (vm_compute; reflexivity).
  destruct (room_code_and_host_are_valid _ _ _ sampleLobby_reachable Hget)
    as (_ & _ & _ & _ & p & Hin & Hid).
  exists p. split; [exact Hget|]. by split.
Defined.

(** X27. In every reachable state a room is marked empty exactly when none of
    its players is connected. *)
Theorem emptySince_tracks_connections s c room :
  reachable s -> Registry.get c (rooms s) = Some room ->
  (emptySince room = None <-> connectedCount room ≠ 0%nat).
Proof.
  intros Hreach Hget.
  by destruct (reachable_room_wf s c room Hreach Hget) as [_ _ _ _ _ _ _ Hempty].
Qed.

Lemma emptySince_tracks_connections_witness :
  exists room,
    Registry.get SAMPLE_CODE (rooms sampleLobby) = Some room
    /\ connectedCount room ≠ 0%nat.
Proof.
  eexists.
  assert (Hget : Registry.get SAMPLE_CODE (rooms sampleLobby) = Some _)
    by (vm_compute; reflexivity).
  split; [exact Hget|].
  apply (emptySince_tracks_connections _ _ _ sampleLobby_reachable Hget).
  reflexivity.
Defined.

(** ** Every event *)

Lemma after_room_step e s h c room room' :
  Registry.get c (rooms s) = Some room ->
  Registry.get c (rooms (after e s h)) = Some room' ->
  room_step (dictionary s) room room'.
Proof.
  intros Hget Hget'. destruct (after_rooms_step e s h) as [Hstep _].
  destruct (Hstep c room' Hget') as [(r & Hr & Hrs)|(Hnone & _)]; [|congruence].
  rewrite Hget in Hr. by injection Hr as <-.
Qed.

Lemma player_step_identity p p' :
  player_step p p' -> pl_id p' = pl_id p /\ joinedAt p' = joinedAt p.
Proof.
  destruct 1 as [? ? ? [->|(? & _ & ->)]|? _|? _]; try (by split).
  unfold exploded. cbv zeta. by case_bool_decide.
Qed.

Lemma fmap_insert_same {B : Type} (f : PlayerState -> B) (ps : list PlayerState) i p p' :
  ps !! i = Some p -> f p' = f p -> f <$> <[i:=p']> ps = f <$> ps.
Proof.
  intros Hi Hf. rewrite list_fmap_insert, Hf. apply list_insert_id.
  by rewrite list_lookup_fmap, Hi.
Qed.

(** X28. The roster of a room is append-only under every event: the identifiers
    and the joining times of the players that were there stay in place, in
    the same order; at most one player is added, at the end.  Disconnection,
    elimination and the cleanup never take a player off the roster of a room
    that exists. *)
Theorem roster_is_append_only s e h c room room' :
  Registry.get c (rooms s) = Some room ->
  Registry.get c (rooms (after e s h)) = Some room' ->
  (pl_id <$> players room) `prefix_of` (pl_id <$> players room')
  /\ (joinedAt <$> players room) `prefix_of` (joinedAt <$> players room')
  /\ (length (players room') <= S (length (players room)))%nat.
Proof.
  intros Hget Hget'.
  pose proof (after_room_step e s h c room room' Hget Hget') as Hstep.
  apply room_step_match_step in Hstep.
  destruct Hstep as [Hp _ _
    | playerId name socket joined Hph Hroom Hid Hname Hp _ _
    | i p p' Hi Hstep Hp _ _
    | i p word Hph Hi He Hw Hnew Hp _ _
    | Hph Hp _ _]; rewrite Hp.
  - split; [done|]. split; [done|]. lia.
  - rewrite !fmap_app, length_app. simpl.
    split; [by eexists|]. split; [by eexists|]. lia.
  - destruct (player_step_identity _ _ Hstep) as [Hid Hj].
    rewrite (fmap_insert_same pl_id _ _ _ _ Hi Hid).
    rewrite (fmap_insert_same joinedAt _ _ _ _ Hi Hj).
    rewrite length_insert. split; [done|]. split; [done|]. lia.
  - rewrite (fmap_insert_same pl_id (players room) i p
               (set_score (score p + 1) p) Hi eq_refl).
    rewrite (fmap_insert_same joinedAt (players room) i p
               (set_score (score p + 1) p) Hi eq_refl).
    rewrite length_insert. split; [done|]. split; [done|]. lia.
  - rewrite <- !list_fmap_compose, length_map.
    split; [done|]. split; [done|]. lia.
Qed.

(** Bo's disconnection during the sample match leaves both players on the
    roster. *)
Lemma roster_is_append_only_witness :
  exists room',
    Registry.get SAMPLE_CODE (rooms sampleResults) = Some room'
    /\ [AVA; BO] `prefix_of` (pl_id <$> players room').
Proof.
  eexists.
  assert (Hget : Registry.get SAMPLE_CODE (rooms sampleMatch) = Some _)
    by (vm_compute; reflexivity).
  assert (Hget' : Registry.get SAMPLE_CODE (rooms sampleResults) = Some _)
    by (vm_compute; reflexivity).
  split; [exact Hget'|].
  exact (proj1 (roster_is_append_only sampleMatch (Disconnect "sockB")
                  (sampleHost 6000 0) SAMPLE_CODE _ _ Hget Hget')).
Defined.

(** X29. The settings of a room change in the lobby only: whatever the event, a
    room that is in a match or shows the results keeps its settings. *)
Theorem settings_are_frozen_outside_lobby s e h c room room' :
  Registry.get c (rooms s) = Some room ->
  Registry.get c (rooms (after e s h)) = Some room' ->
  phase room ≠ lobby ->
  config room' = config room.
Proof.
  intros Hget Hget' Hph.
  pose proof (after_room_step e s h c room room' Hget Hget') as Hstep.
  by apply (room_step_config _ _ _ Hstep).
Qed.

(** Ava asks for longer turns during the sample match: the settings
    stay. *)
Lemma settings_are_frozen_outside_lobby_witness :
  exists room room',
    Registry.get SAMPLE_CODE (rooms sampleMatch) = Some room
    /\ Registry.get SAMPLE_CODE
         (rooms (after (RoomUpdateSettings "sockA"
                          (mkUpdateSettings SAMPLE_CODE AVA
                             (Some (Js.Finite (inject_Z 20))) None None))
                   sampleMatch (sampleHost 3500 0))) = Some room'
    /\ config room' = config room.
Proof.
  eexists. eexists.
  assert (Hget : Registry.get SAMPLE_CODE (rooms sampleMatch) = Some _)
    by (vm_compute; reflexivity).
  assert (Hget' : Registry.get SAMPLE_CODE
         (rooms (after (RoomUpdateSettings "sockA"
                          (mkUpdateSettings SAMPLE_CODE AVA
                             (Some (Js.Finite (inject_Z 20))) None None))
                   sampleMatch (sampleHost 3500 0))) = Some _)
    by (vm_compute; reflexivity).
  split; [exact Hget|]. split; [exact Hget'|].
  apply (settings_are_frozen_outside_lobby _ _ _ _ _ _ Hget Hget').
  vm_compute. discriminate.
Defined.

(** X30. During a match, whatever the event, at most one player of the room
    changes, and for every player: the identifier stays, the lives stay or go
    down by one, the score stays or goes up by one, and who is eliminated
    stays eliminated.  Nobody joins and nobody gains a life before the match
    is over. *)
Theorem match_is_monotone s e h c room room' :
  reachable s ->
  Registry.get c (rooms s) = Some room ->
  Registry.get c (rooms (after e s h)) = Some room' ->
  phase room = in_game ->
  length (players room') = length (players room)
  /\ (exists i, forall j, j ≠ i -> players room' !! j = players room !! j)
  /\ forall j p, players room !! j = Some p ->
       exists p', players room' !! j = Some p'
                  /\ pl_id p' = pl_id p
                  /\ lives p - 1 <= lives p' <= lives p
                  /\ score p <= score p' <= score p + 1
                  /\ (eliminated p = true -> eliminated p' = true).
Proof.
  intros Hreach Hget Hget' Hph.
  pose proof (after_room_step e s h c room room' Hget Hget') as Hstep.
  apply room_step_match_step in Hstep.
  destruct (reachable_room_wf s c room Hreach Hget) as [_ _ _ [_ Hall] _ _ _ _].
  rewrite Forall_lookup in Hall.
  assert (Hsame : forall p, exists p', Some p = Some p'
            /\ pl_id p' = pl_id p /\ lives p - 1 <= lives p' <= lives p
            /\ score p <= score p' <= score p + 1
            /\ (eliminated p = true -> eliminated p' = true)).
  { intros p. exists p. repeat split; auto; lia. }
  destruct Hstep as [Hp _ _
    | playerId name socket joined Hlobby Hroom Hid Hname Hp _ _
    | i p p' Hi Hstep Hp _ _
    | i p word _ Hi He Hw Hnew Hp _ _
    | Hnot Hp _ _]; try congruence; rewrite Hp.
  - split; [done|]. split; [by exists 0%nat|].
    intros j p Hj. rewrite Hj. apply Hsame.
  - rewrite length_insert. split; [done|].
    split; [exists i; intros j Hne; by rewrite list_lookup_insert_ne|].
    intros j q Hj. destruct (decide (i = j)) as [<-|Hne].
    + rewrite list_lookup_insert_eq by (by eapply lookup_lt_Some).
      rewrite Hi in Hj. injection Hj as <-.
      destruct (Hall i p Hi) as (_ & _ & Hl & _).
      destruct (player_step_frame p p' Hstep ltac:(lia)) as (Hid & _ & Hs & Hlv & Hel).
      exists p'. split; [done|]. split; [done|]. split; [done|].
      split; [lia|done].
    + rewrite list_lookup_insert_ne by done. rewrite Hj. apply Hsame.
  - rewrite length_insert. split; [done|].
    split; [exists i; intros j Hne; by rewrite list_lookup_insert_ne|].
    intros j q Hj. destruct (decide (i = j)) as [<-|Hne].
    + rewrite list_lookup_insert_eq by (by eapply lookup_lt_Some).
      rewrite Hi in Hj. injection Hj as <-.
      eexists. split; [done|]. simpl. repeat split; auto; lia.
    + rewrite list_lookup_insert_ne by done. rewrite Hj. apply Hsame.
Qed.

(** Ava's accepted word in the sample match changes nothing of the roster
    but her score. *)
Lemma match_is_monotone_witness :
  exists room',
    Registry.get SAMPLE_CODE (rooms sampleSecondTurn) = Some room'
    /\ length (players room') = 2%nat.
Proof.
  eexists.
  assert (Hget : Registry.get SAMPLE_CODE (rooms sampleMatch) = Some _)
    by (vm_compute; reflexivity).
  assert (Hget' : Registry.get SAMPLE_CODE (rooms sampleSecondTurn) = Some _)
    by (vm_compute; reflexivity).
  split; [exact Hget'|].
  rewrite (proj1 (match_is_monotone sampleMatch
                    (TurnSubmitWord "sockA" (mkSubmitWord SAMPLE_CODE AVA " Teach "))
                    (sampleHost 4000 11) SAMPLE_CODE _ _ sampleMatch_reachable
                    Hget Hget' eq_refl)).
  reflexivity.
Defined.
